(** * spawn_sync.cc: the synchronous child-process runner of node

    A shallow embedding of [src/spawn_sync.cc] (classes
    [SyncProcessOutputBuffer], [SyncProcessStdioPipe] and
    [SyncProcessRunner]) together with the properties its specification
    states about it.

    Conventions.
    - C++ integers are [Z]; every place where the source narrows or wraps
      an integer writes the wrap-around out ([wrap_unsigned], [wrap_signed]).
    - A failed [assert], a call to [abort()] and a dereference of [NULL]
      all end the process; the embedding returns [Abort] (or [None] for
      the read-only helpers).
    - libuv is the environment: every call into it is appended to a log,
      its return codes come from an oracle, and the callbacks that
      [uv_run] delivers come from a script held by the same oracle. *)

From Stdlib Require Import ZArith Strings.Byte.
From stdpp Require Import prelude strings.

Local Open Scope Z_scope.
#[local] Set Warnings "-register-all".

#[global] Instance byte_eq_decision : EqDecision byte := byte_eq_dec.

(** ** Machine integers *)

Definition wrap_unsigned (bits z : Z) : Z := z mod 2 ^ bits.

Definition wrap_signed (bits z : Z) : Z :=
  (z + 2 ^ (bits - 1)) mod 2 ^ bits - 2 ^ (bits - 1).

(** [size_t] and [unsigned int] on the LP64 targets node builds for. *)
Definition to_size_t : Z → Z := wrap_unsigned 64.
Definition to_unsigned_int : Z → Z := wrap_unsigned 32.
Definition to_int : Z → Z := wrap_signed 32.
Definition to_int64 : Z → Z := wrap_signed 64.

(** [static_cast<double>(int64_t)]: the value of the nearest binary64
    number (ties to even).  Integers of magnitude below 2^53 are exact. *)
Definition round_to_53_bits (m : Z) : Z :=
  let k := Z.log2 m in
  if k <? 53 then m
  else
    let sh := k - 52 in
    let q := Z.shiftr m sh in
    let rest := Z.land m (Z.ones sh) in
    let half := Z.shiftl 1 (sh - 1) in
    let q' := if (half <? rest) || ((rest =? half) && Z.odd q) then q + 1 else q in
    Z.shiftl q' sh.

Definition int64_to_double (z : Z) : Z :=
  if z <? 0 then - round_to_53_bits (- z) else round_to_53_bits z.

(** ** Constants of uv.h, uv-errno.h and signal.h (Linux values) *)

Definition UV_EOF : Z := -4095.
Definition UV_EINVAL : Z := -22.
Definition UV_ENOMEM : Z := -12.
Definition UV_ENOBUFS : Z := -105.
Definition UV_ESRCH : Z := -3.
Definition UV_ETIMEDOUT : Z := -110.

Definition UV_IGNORE : Z := 0.
Definition UV_CREATE_PIPE : Z := 1.
Definition UV_INHERIT_FD : Z := 2.
Definition UV_READABLE_PIPE : Z := 16.
Definition UV_WRITABLE_PIPE : Z := 32.

Definition UV_PROCESS_SETUID : Z := 1.
Definition UV_PROCESS_SETGID : Z := 2.
Definition UV_PROCESS_WINDOWS_VERBATIM_ARGUMENTS : Z := 4.
Definition UV_PROCESS_DETACHED : Z := 8.

Definition SIGTERM : Z := 15.

(** ** Pointers and [uv_buf_t] *)

(** A [char*] seen by this file points nowhere, into the [data_] array of
    one capture buffer of a pipe, or at the bytes of a host [Buffer]. *)
Inductive ptr :=
| NullPtr
| ChunkPtr (chunk : nat) (offset : Z)
| HostPtr (content : list byte).

#[global] Instance ptr_eq_decision : EqDecision ptr.
Proof. solve_decision. Defined.

Record uv_buf_t := uv_buf_init { base : ptr; len : Z }.

(** [memcpy(dest + offset, src, n)] into a destination of known size;
    writing past its end is undefined and yields [None]. *)
Definition memcpy (dest : list byte) (offset : Z) (src : list byte) : option (list byte) :=
  let o := Z.to_nat offset in
  if bool_decide (0 ≤ offset ∧ (o + length src ≤ length dest)%nat)
  then Some (take o dest ++ src ++ drop (o + length src)%nat dest)
  else None.

(** ** class SyncProcessOutputBuffer *)

Module OutputBuffer.

Definition kBufferSize : Z := 65536.

(** [data_] holds the bytes of the array written so far, from index 0;
    the rest of the 65536 bytes is indeterminate. *)
Record t := mk {
  data_ : list byte;
  used_ : Z;
  next_ : option nat
}.

(** [SyncProcessOutputBuffer::SyncProcessOutputBuffer()] *)
Definition new : t := {| data_ := []; used_ := 0; next_ := None |}.

Definition used (b : t) : Z := used_ b.

Definition available (b : t) : Z :=
  to_unsigned_int (to_size_t (kBufferSize - used b)).

Definition next (b : t) : option nat := next_ b.

Definition set_next (n : option nat) (b : t) : t :=
  {| data_ := data_ b; used_ := used_ b; next_ := n |}.

(** [self] is the address of the buffer ([this]). *)
Definition OnAlloc (self : nat) (b : t) (suggested_size : Z) : uv_buf_t :=
  if used b =? kBufferSize then uv_buf_init NullPtr 0
  else uv_buf_init (ChunkPtr self (used b)) (available b).

Definition OnRead (self : nat) (b : t) (buf : uv_buf_t) (nread : Z) : option t :=
  if bool_decide (base buf = ChunkPtr self (used b))
  then Some {| data_ := data_ b;
               used_ := to_unsigned_int (used_ b + to_unsigned_int nread);
               next_ := next_ b |}
  else None.

(** [Copy(dest)] called with [dest = start + offset]; reading bytes of
    [data_] that were never written is undefined. *)
Definition Copy (b : t) (dest : list byte) (offset : Z) : option (Z * list byte) :=
  if bool_decide (0 ≤ used b ∧ (Z.to_nat (used b) ≤ length (data_ b))%nat)
  then d ← memcpy dest offset (take (Z.to_nat (used b)) (data_ b)); Some (used b, d)
  else None.

(** What libuv does between the alloc and the read callback: it stores
    the bytes it read at the offset the alloc callback returned. *)
Definition store (offset : Z) (bytes : list byte) (b : t) : t :=
  let o := Z.to_nat offset in
  {| data_ := take o (data_ b) ++ bytes ++ drop (o + length bytes)%nat (data_ b);
     used_ := used_ b; next_ := next_ b |}.

End OutputBuffer.

(** ** class SyncProcessStdioPipe: state, and the methods that only touch it *)

Module StdioPipe.

Inductive Lifecycle := kUninitialized | kInitialized | kStarted | kClosing | kClosed.

#[global] Instance Lifecycle_eq_decision : EqDecision Lifecycle.
Proof. solve_decision. Defined.

Definition Lifecycle_rank (l : Lifecycle) : Z :=
  match l with
  | kUninitialized => 0 | kInitialized => 1 | kStarted => 2
  | kClosing => 3 | kClosed => 4
  end.

(** [self] identifies the object and its [uv_pipe_] handle.  [heap] is
    the arena of the [SyncProcessOutputBuffer]s this pipe allocated with
    [new]; an address is an index into it. *)
Record t := mk {
  self : nat;
  readable_ : bool;
  writable_ : bool;
  input_buffer_ : uv_buf_t;
  heap : list OutputBuffer.t;
  first_output_buffer_ : option nat;
  last_output_buffer_ : option nat;
  lifecycle_ : Lifecycle
}.

Definition set_lifecycle_ (l : Lifecycle) (p : t) : t :=
  mk (self p) (readable_ p) (writable_ p) (input_buffer_ p) (heap p)
     (first_output_buffer_ p) (last_output_buffer_ p) l.

Definition set_chain (h : list OutputBuffer.t) (first last : option nat) (p : t) : t :=
  mk (self p) (readable_ p) (writable_ p) (input_buffer_ p) h first last (lifecycle_ p).

(** The constructor; [assert(readable || writable)]. *)
Definition new (self : nat) (readable writable : bool) (input_buffer : uv_buf_t) : option t :=
  if readable || writable
  then Some (mk self readable writable input_buffer [] None None kUninitialized)
  else None.

Definition readable (p : t) : bool := readable_ p.
Definition writable (p : t) : bool := writable_ p.

Definition uv_stdio_flags (p : t) : Z :=
  let flags := UV_CREATE_PIPE in
  let flags := if readable p then Z.lor flags UV_READABLE_PIPE else flags in
  let flags := if writable p then Z.lor flags UV_WRITABLE_PIPE else flags in
  flags.

(** [uv_pipe()], [uv_stream()], [uv_handle()]: [assert(lifecycle_ < kClosing)]. *)
Definition uv_pipe (p : t) : option nat :=
  if Lifecycle_rank (lifecycle_ p) <? Lifecycle_rank kClosing then Some (self p) else None.

(** The loop [for (buf = first; buf != NULL; buf = buf->next())].  It
    follows pointers, so the embedding bounds it by the number of
    buffers in the arena: a chain that ends visits each at most once. *)
Fixpoint OutputLength_loop (fuel : nat) (h : list OutputBuffer.t)
    (buf : option nat) (size : Z) : option Z :=
  match buf with
  | None => Some size
  | Some a =>
      match fuel with
      | O => None
      | S fuel' =>
          b ← h !! a;
          OutputLength_loop fuel' h (OutputBuffer.next b)
            (to_size_t (size + OutputBuffer.used b))
      end
  end.

Definition OutputLength (p : t) : option Z :=
  OutputLength_loop (length (heap p)) (heap p) (first_output_buffer_ p) 0.

Fixpoint CopyOutput_loop (fuel : nat) (h : list OutputBuffer.t)
    (buf : option nat) (dest : list byte) (offset : Z) : option (list byte) :=
  match buf with
  | None => Some dest
  | Some a =>
      match fuel with
      | O => None
      | S fuel' =>
          b ← h !! a;
          '(n, dest') ← OutputBuffer.Copy b dest offset;
          CopyOutput_loop fuel' h (OutputBuffer.next b) dest' (to_size_t (offset + n))
      end
  end.

Definition CopyOutput (p : t) (dest : list byte) : option (list byte) :=
  CopyOutput_loop (length (heap p)) (heap p) (first_output_buffer_ p) dest 0.

(** [GetOutputAsBuffer]: the bytes of the [Buffer] it returns.
    [Buffer::New(length)] gives [length] bytes of storage. *)
Definition GetOutputAsBuffer (p : t) : option (list byte) :=
  length ← OutputLength p;
  CopyOutput p (replicate (Z.to_nat length) "000"%byte).

Definition OnAlloc (p : t) (suggested_size : Z) : option (uv_buf_t * t) :=
  match last_output_buffer_ p with
  | None =>
      let a := length (heap p) in
      Some (OutputBuffer.OnAlloc a OutputBuffer.new suggested_size,
            set_chain (heap p ++ [OutputBuffer.new]) (Some a) (Some a) p)
  | Some l =>
      b ← heap p !! l;
      if OutputBuffer.available b =? 0 then
        let a := length (heap p) in
        Some (OutputBuffer.OnAlloc a OutputBuffer.new suggested_size,
              set_chain (<[l := OutputBuffer.set_next (Some a) b]> (heap p) ++ [OutputBuffer.new])
                        (first_output_buffer_ p) (Some a) p)
      else Some (OutputBuffer.OnAlloc l b suggested_size, p)
  end.

(** The part of [OnRead] that commits [nread] bytes to the last buffer. *)
Definition commit (p : t) (buf : uv_buf_t) (nread : Z) : option t :=
  l ← last_output_buffer_ p;
  b ← heap p !! l;
  b' ← OutputBuffer.OnRead l b buf nread;
  Some (set_chain (<[l := b']> (heap p)) (first_output_buffer_ p) (last_output_buffer_ p) p).

(** libuv storing the bytes it read through the pointer of [buf]. *)
Definition store (p : t) (buf : uv_buf_t) (bytes : list byte) : option t :=
  match base buf with
  | ChunkPtr a offset =>
      b ← heap p !! a;
      Some (set_chain (<[a := OutputBuffer.store offset bytes b]> (heap p))
                      (first_output_buffer_ p) (last_output_buffer_ p) p)
  | _ => None
  end.

End StdioPipe.

(** ** Values of the host script engine

    The options record and the result are JavaScript values.  A number is
    an integer ([JsNumber]) or one of the other doubles ([JsDouble]): a
    number with a fractional part, minus zero, an infinity or NaN.  A
    string stands for its UTF-8 encoding, so [StringBytes::Write(..., UTF8)]
    copies it as it is. *)

(** The doubles that are not integers: the fraction [(2 k + 1) / 2 ^ e],
    which has an odd numerator and so is no integer; minus zero; the
    infinities; NaN. *)
Inductive OtherNumber :=
| Fraction (k : Z) (e : positive)
| MinusZero
| Infinity (negative : bool)
| NaN.

Inductive JsValue :=
| JsUndefined
| JsNull
| JsBoolean (b : bool)
| JsNumber (z : Z)
| JsString (s : string)
| JsBuffer (bytes : list byte)
| JsArray (elems : list JsValue)
| JsObject (props : list (string * JsValue))
| JsDouble (d : OtherNumber).

(** The integer a finite double is cut to when its fractional part is
    dropped, as [static_cast<int64_t>] does; none for an infinity or NaN. *)
Definition truncated (d : OtherNumber) : option Z :=
  match d with
  | Fraction k e => Some (Z.quot (2 * k + 1) (2 ^ Z.pos e))
  | MinusZero => Some 0
  | Infinity _ | NaN => None
  end.

(** What this file uses of the host and cannot see: [signo_string] of
    node.cc, and the conversions of v8 on values that are no integers. *)
Class Host := {
  signo_string : Z → string;
  ToString : JsValue → string;
  ToInt32 : JsValue → Z
}.

Definition IsUndefined (v : JsValue) : bool :=
  match v with JsUndefined => true | _ => false end.

Definition IsNull (v : JsValue) : bool :=
  match v with JsNull => true | _ => false end.

Definition IsObject (v : JsValue) : bool :=
  match v with JsBuffer _ | JsArray _ | JsObject _ => true | _ => false end.

Definition IsArray (v : JsValue) : bool :=
  match v with JsArray _ => true | _ => false end.

Definition IsString (v : JsValue) : bool :=
  match v with JsString _ => true | _ => false end.

Definition IsNumber (v : JsValue) : bool :=
  match v with JsNumber _ | JsDouble _ => true | _ => false end.

Definition IsInt32 (v : JsValue) : bool :=
  match v with JsNumber z => bool_decide (- 2 ^ 31 ≤ z < 2 ^ 31) | _ => false end.

Definition IsUint32 (v : JsValue) : bool :=
  match v with JsNumber z => bool_decide (0 ≤ z < 2 ^ 32) | _ => false end.

(** [Buffer::HasInstance], [Buffer::Data] with [Buffer::Length]. *)
Definition Buffer_HasInstance (v : JsValue) : bool :=
  match v with JsBuffer _ => true | _ => false end.

Definition Buffer_Data (v : JsValue) : list byte :=
  match v with JsBuffer bytes => bytes | _ => [] end.

Definition BooleanValue (v : JsValue) : bool :=
  match v with
  | JsUndefined | JsNull => false
  | JsBoolean b => b
  | JsNumber z => negb (z =? 0)
  | JsString s => negb (bool_decide (s = ""%string))
  | JsBuffer _ | JsArray _ | JsObject _ => true
  | JsDouble (Fraction _ _) | JsDouble (Infinity _) => true
  | JsDouble MinusZero | JsDouble NaN => false
  end.

Definition Int32Value `{Host} (v : JsValue) : Z :=
  match v with JsNumber z => to_int z | _ => ToInt32 v end.

Definition Uint32Value `{Host} (v : JsValue) : Z :=
  match v with JsNumber z => to_unsigned_int z | _ => to_unsigned_int (ToInt32 v) end.

(** [static_cast<int64_t>] of a double: the fractional part is dropped;
    outside of the range of [int64_t], and for NaN, the conversion of the
    hardware gives the least value. *)
Definition double_to_int64 (t : option Z) : Z :=
  match t with
  | Some z => if bool_decide (- 2 ^ 63 ≤ z < 2 ^ 63) then z else - 2 ^ 63
  | None => - 2 ^ 63
  end.

(** Only called on numbers. *)
Definition IntegerValue (v : JsValue) : Z :=
  match v with
  | JsNumber z => double_to_int64 (Some z)
  | JsDouble d => double_to_int64 (truncated d)
  | _ => 0
  end.

Definition StrictEquals (v : JsValue) (s : string) : bool :=
  match v with JsString s' => bool_decide (s' = s) | _ => false end.

Fixpoint lookup_prop (key : string) (props : list (string * JsValue)) : JsValue :=
  match props with
  | [] => JsUndefined
  | (k, v) :: rest => if bool_decide (k = key) then v else lookup_prop key rest
  end.

(** [object->Get(key)] for the keys of this file; none of them is a
    property of an array or of a buffer. *)
Definition Get (o : JsValue) (key : string) : JsValue :=
  match o with JsObject props => lookup_prop key props | _ => JsUndefined end.

Definition Array_Length (a : JsValue) : Z :=
  match a with JsArray elems => Z.of_nat (length elems) | _ => 0 end.

Definition Array_Get (a : JsValue) (i : nat) : JsValue :=
  match a with JsArray elems => default JsUndefined (elems !! i) | _ => JsUndefined end.

(** [object->Set(key, value)] *)
Fixpoint set_prop (key : string) (v : JsValue) (props : list (string * JsValue))
    : list (string * JsValue) :=
  match props with
  | [] => [(key, v)]
  | (k, v') :: rest =>
      if bool_decide (k = key) then (k, v) :: rest else (k, v') :: set_prop key v rest
  end.

Definition Set_ (o : JsValue) (key : string) (v : JsValue) : JsValue :=
  match o with JsObject props => JsObject (set_prop key v props) | _ => o end.

(** ** Data handed to libuv *)

Module StdioContainer.

Inductive data_t := NoData | Stream (pipe : nat) | Fd (fd : Z).

(** [uv_stdio_container_t] *)
Record t := mk { flags : Z; data : data_t }.

End StdioContainer.

Module ProcessOptions.

(** [uv_process_options_t]; a pointer to a buffer of this file is the
    content of that buffer, [None] is [NULL].  [exit_cb] tells whether the
    exit callback of this file is installed. *)
Record t := mk {
  exit_cb : bool;
  file : option string;
  args : option (list string);
  env : option (list string);
  cwd : option string;
  flags : Z;
  stdio_count : Z;
  stdio : option (list (option StdioContainer.t));
  uid : Z;
  gid : Z
}.

Definition set_exit_cb (v : bool) (o : t) : t :=
  mk v (file o) (args o) (env o) (cwd o) (flags o) (stdio_count o) (stdio o) (uid o) (gid o).

Definition set_file (v : option string) (o : t) : t :=
  mk (exit_cb o) v (args o) (env o) (cwd o) (flags o) (stdio_count o) (stdio o) (uid o) (gid o).

Definition set_args (v : option (list string)) (o : t) : t :=
  mk (exit_cb o) (file o) v (env o) (cwd o) (flags o) (stdio_count o) (stdio o) (uid o) (gid o).

Definition set_cwd (v : option string) (o : t) : t :=
  mk (exit_cb o) (file o) (args o) (env o) v (flags o) (stdio_count o) (stdio o) (uid o) (gid o).

Definition set_flags (v : Z) (o : t) : t :=
  mk (exit_cb o) (file o) (args o) (env o) (cwd o) v (stdio_count o) (stdio o) (uid o) (gid o).

Definition set_stdio_count (v : Z) (o : t) : t :=
  mk (exit_cb o) (file o) (args o) (env o) (cwd o) (flags o) v (stdio o) (uid o) (gid o).

Definition set_stdio (v : option (list (option StdioContainer.t))) (o : t) : t :=
  mk (exit_cb o) (file o) (args o) (env o) (cwd o) (flags o) (stdio_count o) v (uid o) (gid o).

Definition set_uid (v : Z) (o : t) : t :=
  mk (exit_cb o) (file o) (args o) (env o) (cwd o) (flags o) (stdio_count o) (stdio o) v (gid o).

Definition set_gid (v : Z) (o : t) : t :=
  mk (exit_cb o) (file o) (args o) (env o) (cwd o) (flags o) (stdio_count o) (stdio o) (uid o) v.
(** [uv_process_options_()] *)
Definition zero : t := mk false None None None None 0 0 None 0 0.

End ProcessOptions.

(** ** class SyncProcessRunner: state *)

Inductive Lifecycle := kUninitialized | kInitialized | kHandlesClosed.

#[global] Instance Lifecycle_eq_decision : EqDecision Lifecycle.
Proof. solve_decision. Defined.

Definition Lifecycle_rank (l : Lifecycle) : Z :=
  match l with kUninitialized => 0 | kInitialized => 1 | kHandlesClosed => 2 end.

(** [uv_loop_] tells whether the loop pointer is set.  [pipes_] and
    [uv_stdio_containers_] are [NULL] or arrays; an entry of [pipes_] is
    [NULL] or the pipe it points to; an entry of [uv_stdio_containers_] is
    [None] until it is written. *)
Record SyncProcessRunner := mkRunner {
  max_buffer_ : Z;
  timeout_ : Z;
  kill_signal_ : Z;
  uv_loop_ : bool;
  stdio_count_ : Z;
  uv_stdio_containers_ : option (list (option StdioContainer.t));
  pipes_ : option (list (option StdioPipe.t));
  uv_process_options_ : ProcessOptions.t;
  file_buffer_ : option string;
  args_buffer_ : option (list string);
  env_buffer_ : option (list string);
  cwd_buffer_ : option string;
  killed_ : bool;
  buffered_output_size_ : Z;
  exit_status_ : Z;
  term_signal_ : Z;
  kill_timer_initialized_ : bool;
  error_ : Z;
  pipe_error_ : Z;
  lifecycle_ : Lifecycle
}.

Definition set_max_buffer_ (v : Z) (r : SyncProcessRunner) : SyncProcessRunner :=
  mkRunner v (timeout_ r) (kill_signal_ r) (uv_loop_ r) (stdio_count_ r)
    (uv_stdio_containers_ r) (pipes_ r) (uv_process_options_ r) (file_buffer_ r)
    (args_buffer_ r) (env_buffer_ r) (cwd_buffer_ r) (killed_ r)
    (buffered_output_size_ r) (exit_status_ r) (term_signal_ r)
    (kill_timer_initialized_ r) (error_ r) (pipe_error_ r) (lifecycle_ r).

Definition set_timeout_ (v : Z) (r : SyncProcessRunner) : SyncProcessRunner :=
  mkRunner (max_buffer_ r) v (kill_signal_ r) (uv_loop_ r) (stdio_count_ r)
    (uv_stdio_containers_ r) (pipes_ r) (uv_process_options_ r) (file_buffer_ r)
    (args_buffer_ r) (env_buffer_ r) (cwd_buffer_ r) (killed_ r)
    (buffered_output_size_ r) (exit_status_ r) (term_signal_ r)
    (kill_timer_initialized_ r) (error_ r) (pipe_error_ r) (lifecycle_ r).

Definition set_kill_signal_ (v : Z) (r : SyncProcessRunner) : SyncProcessRunner :=
  mkRunner (max_buffer_ r) (timeout_ r) v (uv_loop_ r) (stdio_count_ r)
    (uv_stdio_containers_ r) (pipes_ r) (uv_process_options_ r) (file_buffer_ r)
    (args_buffer_ r) (env_buffer_ r) (cwd_buffer_ r) (killed_ r)
    (buffered_output_size_ r) (exit_status_ r) (term_signal_ r)
    (kill_timer_initialized_ r) (error_ r) (pipe_error_ r) (lifecycle_ r).

Definition set_uv_loop_ (v : bool) (r : SyncProcessRunner) : SyncProcessRunner :=
  mkRunner (max_buffer_ r) (timeout_ r) (kill_signal_ r) v (stdio_count_ r)
    (uv_stdio_containers_ r) (pipes_ r) (uv_process_options_ r) (file_buffer_ r)
    (args_buffer_ r) (env_buffer_ r) (cwd_buffer_ r) (killed_ r)
    (buffered_output_size_ r) (exit_status_ r) (term_signal_ r)
    (kill_timer_initialized_ r) (error_ r) (pipe_error_ r) (lifecycle_ r).

Definition set_stdio_count_ (v : Z) (r : SyncProcessRunner) : SyncProcessRunner :=
  mkRunner (max_buffer_ r) (timeout_ r) (kill_signal_ r) (uv_loop_ r) v
    (uv_stdio_containers_ r) (pipes_ r) (uv_process_options_ r) (file_buffer_ r)
    (args_buffer_ r) (env_buffer_ r) (cwd_buffer_ r) (killed_ r)
    (buffered_output_size_ r) (exit_status_ r) (term_signal_ r)
    (kill_timer_initialized_ r) (error_ r) (pipe_error_ r) (lifecycle_ r).

Definition set_uv_stdio_containers_ (v : option (list (option StdioContainer.t))) (r : SyncProcessRunner) : SyncProcessRunner :=
  mkRunner (max_buffer_ r) (timeout_ r) (kill_signal_ r) (uv_loop_ r) (stdio_count_ r) v
    (pipes_ r) (uv_process_options_ r) (file_buffer_ r) (args_buffer_ r) (env_buffer_ r)
    (cwd_buffer_ r) (killed_ r) (buffered_output_size_ r) (exit_status_ r)
    (term_signal_ r) (kill_timer_initialized_ r) (error_ r) (pipe_error_ r)
    (lifecycle_ r).

Definition set_pipes_ (v : option (list (option StdioPipe.t))) (r : SyncProcessRunner) : SyncProcessRunner :=
  mkRunner (max_buffer_ r) (timeout_ r) (kill_signal_ r) (uv_loop_ r) (stdio_count_ r)
    (uv_stdio_containers_ r) v (uv_process_options_ r) (file_buffer_ r) (args_buffer_ r)
    (env_buffer_ r) (cwd_buffer_ r) (killed_ r) (buffered_output_size_ r)
    (exit_status_ r) (term_signal_ r) (kill_timer_initialized_ r) (error_ r)
    (pipe_error_ r) (lifecycle_ r).

Definition set_uv_process_options_ (v : ProcessOptions.t) (r : SyncProcessRunner) : SyncProcessRunner :=
  mkRunner (max_buffer_ r) (timeout_ r) (kill_signal_ r) (uv_loop_ r) (stdio_count_ r)
    (uv_stdio_containers_ r) (pipes_ r) v (file_buffer_ r) (args_buffer_ r)
    (env_buffer_ r) (cwd_buffer_ r) (killed_ r) (buffered_output_size_ r)
    (exit_status_ r) (term_signal_ r) (kill_timer_initialized_ r) (error_ r)
    (pipe_error_ r) (lifecycle_ r).

Definition set_file_buffer_ (v : option string) (r : SyncProcessRunner) : SyncProcessRunner :=
  mkRunner (max_buffer_ r) (timeout_ r) (kill_signal_ r) (uv_loop_ r) (stdio_count_ r)
    (uv_stdio_containers_ r) (pipes_ r) (uv_process_options_ r) v (args_buffer_ r)
    (env_buffer_ r) (cwd_buffer_ r) (killed_ r) (buffered_output_size_ r)
    (exit_status_ r) (term_signal_ r) (kill_timer_initialized_ r) (error_ r)
    (pipe_error_ r) (lifecycle_ r).

Definition set_args_buffer_ (v : option (list string)) (r : SyncProcessRunner) : SyncProcessRunner :=
  mkRunner (max_buffer_ r) (timeout_ r) (kill_signal_ r) (uv_loop_ r) (stdio_count_ r)
    (uv_stdio_containers_ r) (pipes_ r) (uv_process_options_ r) (file_buffer_ r) v
    (env_buffer_ r) (cwd_buffer_ r) (killed_ r) (buffered_output_size_ r)
    (exit_status_ r) (term_signal_ r) (kill_timer_initialized_ r) (error_ r)
    (pipe_error_ r) (lifecycle_ r).

Definition set_env_buffer_ (v : option (list string)) (r : SyncProcessRunner) : SyncProcessRunner :=
  mkRunner (max_buffer_ r) (timeout_ r) (kill_signal_ r) (uv_loop_ r) (stdio_count_ r)
    (uv_stdio_containers_ r) (pipes_ r) (uv_process_options_ r) (file_buffer_ r)
    (args_buffer_ r) v (cwd_buffer_ r) (killed_ r) (buffered_output_size_ r)
    (exit_status_ r) (term_signal_ r) (kill_timer_initialized_ r) (error_ r)
    (pipe_error_ r) (lifecycle_ r).

Definition set_killed_ (v : bool) (r : SyncProcessRunner) : SyncProcessRunner :=
  mkRunner (max_buffer_ r) (timeout_ r) (kill_signal_ r) (uv_loop_ r) (stdio_count_ r)
    (uv_stdio_containers_ r) (pipes_ r) (uv_process_options_ r) (file_buffer_ r)
    (args_buffer_ r) (env_buffer_ r) (cwd_buffer_ r) v (buffered_output_size_ r)
    (exit_status_ r) (term_signal_ r) (kill_timer_initialized_ r) (error_ r)
    (pipe_error_ r) (lifecycle_ r).

Definition set_buffered_output_size_ (v : Z) (r : SyncProcessRunner) : SyncProcessRunner :=
  mkRunner (max_buffer_ r) (timeout_ r) (kill_signal_ r) (uv_loop_ r) (stdio_count_ r)
    (uv_stdio_containers_ r) (pipes_ r) (uv_process_options_ r) (file_buffer_ r)
    (args_buffer_ r) (env_buffer_ r) (cwd_buffer_ r) (killed_ r) v (exit_status_ r)
    (term_signal_ r) (kill_timer_initialized_ r) (error_ r) (pipe_error_ r)
    (lifecycle_ r).

Definition set_exit_status_ (v : Z) (r : SyncProcessRunner) : SyncProcessRunner :=
  mkRunner (max_buffer_ r) (timeout_ r) (kill_signal_ r) (uv_loop_ r) (stdio_count_ r)
    (uv_stdio_containers_ r) (pipes_ r) (uv_process_options_ r) (file_buffer_ r)
    (args_buffer_ r) (env_buffer_ r) (cwd_buffer_ r) (killed_ r)
    (buffered_output_size_ r) v (term_signal_ r) (kill_timer_initialized_ r) (error_ r)
    (pipe_error_ r) (lifecycle_ r).

Definition set_term_signal_ (v : Z) (r : SyncProcessRunner) : SyncProcessRunner :=
  mkRunner (max_buffer_ r) (timeout_ r) (kill_signal_ r) (uv_loop_ r) (stdio_count_ r)
    (uv_stdio_containers_ r) (pipes_ r) (uv_process_options_ r) (file_buffer_ r)
    (args_buffer_ r) (env_buffer_ r) (cwd_buffer_ r) (killed_ r)
    (buffered_output_size_ r) (exit_status_ r) v (kill_timer_initialized_ r) (error_ r)
    (pipe_error_ r) (lifecycle_ r).

Definition set_kill_timer_initialized_ (v : bool) (r : SyncProcessRunner) : SyncProcessRunner :=
  mkRunner (max_buffer_ r) (timeout_ r) (kill_signal_ r) (uv_loop_ r) (stdio_count_ r)
    (uv_stdio_containers_ r) (pipes_ r) (uv_process_options_ r) (file_buffer_ r)
    (args_buffer_ r) (env_buffer_ r) (cwd_buffer_ r) (killed_ r)
    (buffered_output_size_ r) (exit_status_ r) (term_signal_ r) v (error_ r)
    (pipe_error_ r) (lifecycle_ r).

Definition set_error_ (v : Z) (r : SyncProcessRunner) : SyncProcessRunner :=
  mkRunner (max_buffer_ r) (timeout_ r) (kill_signal_ r) (uv_loop_ r) (stdio_count_ r)
    (uv_stdio_containers_ r) (pipes_ r) (uv_process_options_ r) (file_buffer_ r)
    (args_buffer_ r) (env_buffer_ r) (cwd_buffer_ r) (killed_ r)
    (buffered_output_size_ r) (exit_status_ r) (term_signal_ r)
    (kill_timer_initialized_ r) v (pipe_error_ r) (lifecycle_ r).

Definition set_pipe_error_ (v : Z) (r : SyncProcessRunner) : SyncProcessRunner :=
  mkRunner (max_buffer_ r) (timeout_ r) (kill_signal_ r) (uv_loop_ r) (stdio_count_ r)
    (uv_stdio_containers_ r) (pipes_ r) (uv_process_options_ r) (file_buffer_ r)
    (args_buffer_ r) (env_buffer_ r) (cwd_buffer_ r) (killed_ r)
    (buffered_output_size_ r) (exit_status_ r) (term_signal_ r)
    (kill_timer_initialized_ r) (error_ r) v (lifecycle_ r).

Definition set_lifecycle_ (v : Lifecycle) (r : SyncProcessRunner) : SyncProcessRunner :=
  mkRunner (max_buffer_ r) (timeout_ r) (kill_signal_ r) (uv_loop_ r) (stdio_count_ r)
    (uv_stdio_containers_ r) (pipes_ r) (uv_process_options_ r) (file_buffer_ r)
    (args_buffer_ r) (env_buffer_ r) (cwd_buffer_ r) (killed_ r)
    (buffered_output_size_ r) (exit_status_ r) (term_signal_ r)
    (kill_timer_initialized_ r) (error_ r) (pipe_error_ r) v.
(** [SyncProcessRunner::SyncProcessRunner()] *)
Definition SyncProcessRunner_new : SyncProcessRunner :=
  {| max_buffer_ := 0;
     timeout_ := 0;
     kill_signal_ := SIGTERM;
     uv_loop_ := false;
     stdio_count_ := 0;
     uv_stdio_containers_ := None;
     pipes_ := None;
     uv_process_options_ := ProcessOptions.zero;
     file_buffer_ := None;
     args_buffer_ := None;
     env_buffer_ := None;
     cwd_buffer_ := None;
     killed_ := false;
     buffered_output_size_ := 0;
     exit_status_ := -1;
     term_signal_ := -1;
     kill_timer_initialized_ := false;
     error_ := 0;
     pipe_error_ := 0;
     lifecycle_ := kUninitialized |}.

(** ** The environment: libuv *)

(** The calls this file makes into libuv.  A pipe handle is named by the
    [self] of its [SyncProcessStdioPipe]. *)
Inductive UvCall :=
| uv_loop_new
| uv_loop_delete
| uv_run
| uv_pipe_init (pipe : nat)
| uv_write (pipe : nat) (bytes : list byte)
| uv_shutdown (pipe : nat)
| uv_read_start (pipe : nat)
| uv_read_stop (pipe : nat)
| uv_close_pipe (pipe : nat)
| uv_timer_init
| uv_unref_timer
| uv_ref_timer
| uv_timer_start (timeout : Z)
| uv_timer_stop
| uv_close_timer
| uv_spawn (options : ProcessOptions.t)
| uv_process_kill (signum : Z).

(** The callbacks [uv_run] can deliver.  [EvData] is the arrival of bytes
    on the stream of a pipe, [EvReadEnd] a read that ends in end-of-file or
    in an error. *)
Inductive UvEvent :=
| EvData (pipe : nat) (bytes : list byte)
| EvReadEnd (pipe : nat) (nread : Z)
| EvWriteDone (pipe : nat) (result : Z)
| EvShutdownDone (pipe : nat) (result : Z)
| EvClose (pipe : nat)
| EvExit (exit_status term_signal : Z)
| EvKillTimer (status : Z)
| EvKillTimerClose.

(** [uv_ret c n] is what the call [c] returns when [n] calls were made
    before it; [uv_events n] are the callbacks delivered by the [uv_run]
    that is call number [n]. *)
Record UvOracle := {
  uv_ret : UvCall → nat → Z;
  uv_events : nat → list UvEvent
}.

Record World := mkWorld {
  runner : SyncProcessRunner;
  uv_log : list UvCall;
  uv_oracle : UvOracle
}.

(** ** The monad of the embedding: state, and [Abort] *)

Inductive Outcome (A : Type) :=
| Ok (a : A) (w : World)
| Abort.
Arguments Ok {A} a w.
Arguments Abort {A}.

Definition M (A : Type) : Type := World → Outcome A.

#[global] Instance M_ret : MRet M := λ A a w, Ok a w.

#[global] Instance M_bind : MBind M := λ A B f m w,
  match m w with
  | Ok a w' => f a w'
  | Abort => Abort
  end.

Definition abort {A} : M A := λ _, Abort.

Definition assert (b : bool) : M unit := if b then mret () else abort.

Definition from_option {A} (o : option A) : M A :=
  match o with Some a => mret a | None => abort end.

Definition get_runner : M SyncProcessRunner := λ w, Ok (runner w) w.

Definition modify_runner (f : SyncProcessRunner → SyncProcessRunner) : M unit :=
  λ w, Ok () (mkWorld (f (runner w)) (uv_log w) (uv_oracle w)).

(** A call into libuv: logged, its return code given by the oracle. *)
Definition uv (c : UvCall) : M Z :=
  λ w, Ok (uv_ret (uv_oracle w) c (length (uv_log w)))
          (mkWorld (runner w) (uv_log w ++ [c]) (uv_oracle w)).

Definition uv_scripted_events : M (list UvEvent) :=
  λ w, Ok (uv_events (uv_oracle w) (length (uv_log w))) w.

(** [pipes_[i]], dereferenced. *)
Definition get_pipe (i : nat) : M StdioPipe.t :=
  r ← get_runner;
  from_option (ps ← pipes_ r; h ← ps !! i; h).

Definition put_pipe (i : nat) (p : StdioPipe.t) : M unit :=
  modify_runner (λ r, set_pipes_ (<[i := Some p]> <$> pipes_ r) r).

(** ** class SyncProcessRunner: errors, the kill, output accounting *)

Definition GetError (r : SyncProcessRunner) : Z :=
  if negb (error_ r =? 0) then error_ r else pipe_error_ r.

Definition SetError (error : Z) (r : SyncProcessRunner) : SyncProcessRunner :=
  if error_ r =? 0 then set_error_ error r else r.

Definition SetPipeError (pipe_error : Z) (r : SyncProcessRunner) : SyncProcessRunner :=
  if pipe_error_ r =? 0 then set_pipe_error_ pipe_error r else r.

Definition StopKillTimer : M unit :=
  r ← get_runner;
  assert (bool_decide ((0 <? timeout_ r) = kill_timer_initialized_ r));;
  if kill_timer_initialized_ r then
    r ← uv uv_timer_stop;
    assert (r =? 0)
  else mret ().

Definition Kill : M unit :=
  this ← get_runner;
  (* Only attempt to kill once. *)
  if killed_ this then mret () else
  modify_runner (set_killed_ true);;
  r ← uv (uv_process_kill (kill_signal_ this));
  (if (r <? 0) && negb (r =? UV_ESRCH) then
     modify_runner (SetError r);;
     r ← uv (uv_process_kill (kill_signal_ this));
     assert ((0 <=? r) || (r =? UV_ESRCH))
   else mret ());;
  (* Stop the timeout timer if it is running. *)
  StopKillTimer.

Definition IncrementBufferSizeAndCheckOverflow (length : Z) : M unit :=
  modify_runner
    (λ r, set_buffered_output_size_ (to_size_t (buffered_output_size_ r + length)) r);;
  this ← get_runner;
  if (0 <? max_buffer_ this) && (max_buffer_ this <? buffered_output_size_ this)
  then Kill
  else mret ().

Definition OnExit (exit_status term_signal : Z) : M unit :=
  if exit_status <? 0 then modify_runner (SetError (to_int exit_status))
  else
    modify_runner (set_exit_status_ exit_status);;
    modify_runner (set_term_signal_ term_signal);;
    StopKillTimer.

Definition OnKillTimerTimeout (status : Z) : M unit :=
  assert (status =? 0);;
  modify_runner (SetError UV_ETIMEDOUT);;
  Kill.

(** ** class SyncProcessStdioPipe: the methods that reach libuv or the runner

    [i] is the index of the pipe in [pipes_]. *)

Definition SyncProcessStdioPipe_Initialize (h : StdioPipe.t) : M (Z * StdioPipe.t) :=
  assert (bool_decide (StdioPipe.lifecycle_ h = StdioPipe.kUninitialized));;
  handle ← from_option (StdioPipe.uv_pipe h);
  r ← uv (uv_pipe_init handle);
  if r <? 0 then mret (r, h)
  else mret (0, StdioPipe.set_lifecycle_ StdioPipe.kInitialized h).

(** The bytes a [uv_buf_t] of input designates. *)
Definition input_bytes (b : uv_buf_t) : list byte :=
  match base b with
  | HostPtr content => take (Z.to_nat (len b)) content
  | _ => []
  end.

Definition SyncProcessStdioPipe_Start (i : nat) : M Z :=
  p ← get_pipe i;
  assert (bool_decide (StdioPipe.lifecycle_ p = StdioPipe.kInitialized));;
  (* Set the busy flag already. *)
  let p := StdioPipe.set_lifecycle_ StdioPipe.kStarted p in
  put_pipe i p;;
  let start_reading : M Z :=
    if StdioPipe.writable p then
      stream ← from_option (StdioPipe.uv_pipe p);
      r ← uv (uv_read_start stream);
      if r <? 0 then mret r else mret 0
    else mret 0 in
  let shutdown_then_read : M Z :=
    stream ← from_option (StdioPipe.uv_pipe p);
    r ← uv (uv_shutdown stream);
    if r <? 0 then mret r else start_reading in
  if StdioPipe.readable p then
    if 0 <? len (StdioPipe.input_buffer_ p) then
      assert (negb (bool_decide (base (StdioPipe.input_buffer_ p) = NullPtr)));;
      stream ← from_option (StdioPipe.uv_pipe p);
      r ← uv (uv_write stream (input_bytes (StdioPipe.input_buffer_ p)));
      if r <? 0 then mret r else shutdown_then_read
    else shutdown_then_read
  else start_reading.

Definition SyncProcessStdioPipe_Close (i : nat) : M unit :=
  p ← get_pipe i;
  assert (bool_decide (StdioPipe.lifecycle_ p = StdioPipe.kInitialized)
          || bool_decide (StdioPipe.lifecycle_ p = StdioPipe.kStarted));;
  handle ← from_option (StdioPipe.uv_pipe p);
  uv (uv_close_pipe handle);;
  put_pipe i (StdioPipe.set_lifecycle_ StdioPipe.kClosing p).

Definition SyncProcessStdioPipe_SetError (error : Z) : M unit :=
  assert (negb (error =? 0));;
  modify_runner (SetPipeError error).

Definition SyncProcessStdioPipe_OnAlloc (i : nat) (suggested_size : Z) : M uv_buf_t :=
  p ← get_pipe i;
  '(buf, p') ← from_option (StdioPipe.OnAlloc p suggested_size);
  put_pipe i p';;
  mret buf.

Definition SyncProcessStdioPipe_OnRead (i : nat) (buf : uv_buf_t) (nread : Z) : M unit :=
  if nread =? UV_EOF then
    (* Libuv implicitly stops reading on EOF. *)
    mret ()
  else if nread <? 0 then
    SyncProcessStdioPipe_SetError (to_int nread);;
    p ← get_pipe i;
    stream ← from_option (StdioPipe.uv_pipe p);
    uv (uv_read_stop stream);;
    mret ()
  else
    p ← get_pipe i;
    p' ← from_option (StdioPipe.commit p buf nread);
    put_pipe i p';;
    IncrementBufferSizeAndCheckOverflow nread.

Definition SyncProcessStdioPipe_OnWriteDone (result : Z) : M unit :=
  if result <? 0 then SyncProcessStdioPipe_SetError result else mret ().

Definition SyncProcessStdioPipe_OnShutdownDone (result : Z) : M unit :=
  if result <? 0 then SyncProcessStdioPipe_SetError result else mret ().

Definition SyncProcessStdioPipe_OnClose (i : nat) : M unit :=
  p ← get_pipe i;
  put_pipe i (StdioPipe.set_lifecycle_ StdioPipe.kClosed p).

(** ** [uv_run]: the callbacks, as libuv delivers them *)

(** Storing the bytes of one read of the stream into the memory [buf]
    points to. *)
Definition uv_store (i : nat) (buf : uv_buf_t) (bytes : list byte) : M unit :=
  p ← get_pipe i;
  p' ← from_option (StdioPipe.store p buf bytes);
  put_pipe i p'.

(** The read loop of a stream on which [pending] bytes arrived: ask for
    memory, read as much as fits, report it, and go on while bytes are
    left.  At least one byte is taken in each round, so [length pending]
    rounds after the first are enough. *)
Fixpoint uv__read (fuel : nat) (i : nat) (pending : list byte) : M unit :=
  buf ← SyncProcessStdioPipe_OnAlloc i 65536;
  if len buf <=? 0 then SyncProcessStdioPipe_OnRead i buf UV_ENOBUFS
  else
    let n := Z.to_nat (Z.min (len buf) (Z.of_nat (length pending))) in
    uv_store i buf (take n pending);;
    SyncProcessStdioPipe_OnRead i buf (Z.of_nat n);;
    match drop n pending, fuel with
    | _ :: _, S fuel' => uv__read fuel' i (drop n pending)
    | _, _ => mret ()
    end.

Definition dispatch (e : UvEvent) : M unit :=
  match e with
  | EvData i bytes => uv__read (length bytes) i bytes
  | EvReadEnd i nread =>
      buf ← SyncProcessStdioPipe_OnAlloc i 65536;
      SyncProcessStdioPipe_OnRead i buf nread
  | EvWriteDone i result => get_pipe i;; SyncProcessStdioPipe_OnWriteDone result
  | EvShutdownDone i result => get_pipe i;; SyncProcessStdioPipe_OnShutdownDone result
  | EvClose i => SyncProcessStdioPipe_OnClose i
  | EvExit exit_status term_signal => OnExit exit_status term_signal
  | EvKillTimer status => OnKillTimerTimeout status
  | EvKillTimerClose => mret ()
  end.

Fixpoint dispatch_all (es : list UvEvent) : M unit :=
  match es with
  | [] => mret ()
  | e :: es' => dispatch e;; dispatch_all es'
  end.

(** [uv_run(uv_loop_, UV_RUN_DEFAULT)] *)
Definition uv_run_default : M Z :=
  es ← uv_scripted_events;
  r ← uv uv_run;
  dispatch_all es;;
  mret r.

(** ** The options decoder *)

Definition file_sym : string := "file".
Definition args_sym : string := "args".
Definition cwd_sym : string := "cwd".
Definition envPairs_sym : string := "envPairs".
Definition uid_sym : string := "uid".
Definition gid_sym : string := "gid".
Definition detached_sym : string := "detached".
Definition windowsVerbatimArguments_sym : string := "windowsVerbatimArguments".
Definition stdio_sym : string := "stdio".
Definition timeout_sym : string := "timeout".
Definition maxBuffer_sym : string := "maxBuffer".
Definition killSignal_sym : string := "killSignal".
Definition type_sym : string := "type".
Definition ignore_sym : string := "ignore".
Definition pipe_sym : string := "pipe".
Definition inherit_sym : string := "inherit".
Definition readable_sym : string := "readable".
Definition writable_sym : string := "writable".
Definition input_sym : string := "input".
Definition fd_sym : string := "fd".
Definition error_sym : string := "error".
Definition status_sym : string := "status".
Definition signal_sym : string := "signal".
Definition output_sym : string := "output".

Definition IsSet (value : JsValue) : bool :=
  negb (IsUndefined value) && negb (IsNull value).

(** [CheckRange<t>] for an integer type [t] of [bits] bits.  [(t) ~0] has
    all bits of [t] set; for a signed [t] that is -1, whose complement is 0. *)
Definition CheckRange `{Host} (is_signed : bool) (bits : Z) (js_value : JsValue) : bool :=
  if negb is_signed then
    if negb (IsUint32 js_value) then false
    else if negb (Z.land (Uint32Value js_value) (Z.lnot (Z.ones bits)) =? 0) then false
    else true
  else
    if negb (IsInt32 js_value) then false
    else if negb (Z.land (Int32Value js_value) (Z.lnot (-1)) =? 0) then false
    else true.

(** [uv_uid_t], [uv_gid_t] and [uint32_t] are unsigned, 32 bits wide. *)
Definition CheckRange_uv_uid_t `{Host} := CheckRange false 32.
Definition CheckRange_uv_gid_t `{Host} := CheckRange false 32.
Definition CheckRange_uint32_t `{Host} := CheckRange false 32.

(** [CopyJsString(js_value, target)]: the return code and the new value of
    [target], an owned null-terminated copy of the string. *)
Definition CopyJsString `{Host} (js_value : JsValue) (target : option string)
    : Z * option string :=
  let js_string :=
    match js_value with JsString s => s | _ => ToString js_value end in
  (0, Some js_string).

(** [CopyJsStringArray(js_value, target)].  The buffer it builds is a table
    of pointers followed by the strings; read as a [char**] it is the list
    of the strings. *)
Definition CopyJsStringArray `{Host} (js_value : JsValue) (target : option (list string))
    : Z * option (list string) :=
  match js_value with
  | JsArray elems =>
      let strings :=
        map (λ e, match e with JsString s => s | _ => ToString e end) elems in
      (0, Some strings)
  | _ => (UV_EINVAL, target)
  end.

(** The value of the C++ expression [x < 0], an [int]. *)
Definition is_negative (x : Z) : Z := if x <? 0 then 1 else 0.

(** [for (uint32_t i = first; i < first + count; i++) body]; the body yields
    [Some r] when it executes [return r]. *)
Fixpoint for_loop (count : nat) (i : nat) (body : nat → M (option Z)) : M (option Z) :=
  match count with
  | O => mret None
  | S count' =>
      r ← body i;
      match r with
      | Some _ => mret r
      | None => for_loop count' (S i) body
      end
  end.

(** [pipes_[i]], the pointer. *)
Definition pipes_at (i : nat) : M (option StdioPipe.t) :=
  r ← get_runner;
  from_option (ps ← pipes_ r; ps !! i).

Definition set_container_flags (child_fd : nat) (flags : Z) (r : SyncProcessRunner)
    : SyncProcessRunner :=
  set_uv_stdio_containers_
    ((λ cs, <[child_fd :=
               Some (StdioContainer.mk flags
                       (default StdioContainer.NoData
                          (StdioContainer.data <$> mjoin (cs !! child_fd))))]> cs)
       <$> uv_stdio_containers_ r) r.

Definition set_container_data (child_fd : nat) (d : StdioContainer.data_t)
    (r : SyncProcessRunner) : SyncProcessRunner :=
  set_uv_stdio_containers_
    ((λ cs, <[child_fd :=
               Some (StdioContainer.mk
                       (default 0 (StdioContainer.flags <$> mjoin (cs !! child_fd))) d)]> cs)
       <$> uv_stdio_containers_ r) r.

(** [assert(child_fd < stdio_count_); assert(pipes_[child_fd] == NULL);] *)
Definition assert_free_slot (child_fd : nat) : M unit :=
  r ← get_runner;
  assert (Z.of_nat child_fd <? stdio_count_ r);;
  h ← pipes_at child_fd;
  assert (match h with None => true | Some _ => false end).

Definition AddStdioIgnore (child_fd : nat) : M Z :=
  assert_free_slot child_fd;;
  modify_runner (set_container_flags child_fd UV_IGNORE);;
  mret 0.

Definition AddStdioPipe (child_fd : nat) (readable writable : bool)
    (input_buffer : uv_buf_t) : M Z :=
  assert_free_slot child_fd;;
  h ← from_option (StdioPipe.new child_fd readable writable input_buffer);
  '(r, h) ← SyncProcessStdioPipe_Initialize h;
  if r <? 0 then
    (* delete h; *)
    mret r
  else
    put_pipe child_fd h;;
    modify_runner (set_container_flags child_fd (StdioPipe.uv_stdio_flags h));;
    stream ← from_option (StdioPipe.uv_pipe h);
    modify_runner (set_container_data child_fd (StdioContainer.Stream stream));;
    mret 0.

Definition AddStdioInheritFD (child_fd : nat) (inherit_fd : Z) : M Z :=
  assert_free_slot child_fd;;
  modify_runner (set_container_flags child_fd UV_INHERIT_FD);;
  modify_runner (set_container_data child_fd (StdioContainer.Fd inherit_fd));;
  mret 0.

Definition ParseStdioOption `{Host} (child_fd : nat) (js_stdio_option : JsValue) : M Z :=
  let js_type := Get js_stdio_option type_sym in
  if StrictEquals js_type ignore_sym then
    AddStdioIgnore child_fd
  else if StrictEquals js_type pipe_sym then
    let readable := BooleanValue (Get js_stdio_option readable_sym) in
    let writable := BooleanValue (Get js_stdio_option writable_sym) in
    let buf := uv_buf_init NullPtr 0 in
    buf ← (if readable then
             let input := Get js_stdio_option input_sym in
             if negb (Buffer_HasInstance input) then
               (* We can only deal with buffers for now. *)
               assert (IsUndefined input);; mret buf
             else
               mret (uv_buf_init (HostPtr (Buffer_Data input))
                       (to_unsigned_int (Z.of_nat (length (Buffer_Data input)))))
           else mret buf);
    AddStdioPipe child_fd readable writable buf
  else if StrictEquals js_type inherit_sym then
    let inherit_fd := Int32Value (Get js_stdio_option fd_sym) in
    AddStdioInheritFD child_fd inherit_fd
  else
    (* assert(0 && "invalid child stdio type"); *)
    abort.

Definition ParseStdioOptions `{Host} (js_value : JsValue) : M Z :=
  if negb (IsArray js_value) then mret UV_EINVAL else
  let js_stdio_options := js_value in
  let count := to_unsigned_int (Array_Length js_stdio_options) in
  modify_runner (set_stdio_count_ count);;
  modify_runner (set_pipes_ (Some (replicate (Z.to_nat count) None)));;
  modify_runner (set_uv_stdio_containers_ (Some (replicate (Z.to_nat count) None)));;
  returned ← for_loop (Z.to_nat count) 0 (λ i,
    let js_stdio_option := Array_Get js_stdio_options i in
    if negb (IsObject js_stdio_option) then mret (Some UV_EINVAL) else
    r ← ParseStdioOption i js_stdio_option;
    if r <? 0 then mret (Some r) else mret None);
  match returned with
  | Some r => mret r
  | None =>
      modify_runner (λ r, set_uv_process_options_
        (ProcessOptions.set_stdio (uv_stdio_containers_ r) (uv_process_options_ r)) r);;
      modify_runner (λ r, set_uv_process_options_
        (ProcessOptions.set_stdio_count (stdio_count_ r) (uv_process_options_ r)) r);;
      mret 0
  end.

(** Assignments to fields of [uv_process_options_]. *)
Definition modify_options (f : ProcessOptions.t → ProcessOptions.t) : M unit :=
  modify_runner (λ r, set_uv_process_options_ (f (uv_process_options_ r)) r).

Definition or_flag (flag : Z) : M unit :=
  modify_options (λ o, ProcessOptions.set_flags (Z.lor (ProcessOptions.flags o) flag) o).

(** [ParseOptions].  Its conditions of the form [if (r = f(...) < 0) return r;]
    assign to [r] the value of the comparison, as C++ parses them. *)
Definition ParseOptions `{Host} (js_value : JsValue) : M Z :=
  if negb (IsObject js_value) then mret UV_EINVAL else
  let js_options := js_value in

  let js_file := Get js_options file_sym in
  this ← get_runner;
  let '(c, target) := CopyJsString js_file (file_buffer_ this) in
  modify_runner (set_file_buffer_ target);;
  let r := is_negative c in
  if negb (r =? 0) then mret r else
  modify_runner (λ r, set_uv_process_options_
    (ProcessOptions.set_file (file_buffer_ r) (uv_process_options_ r)) r);;

  let js_args := Get js_options args_sym in
  this ← get_runner;
  let '(c, target) := CopyJsStringArray js_args (args_buffer_ this) in
  modify_runner (set_args_buffer_ target);;
  let r := is_negative c in
  if negb (r =? 0) then mret r else
  modify_runner (λ r, set_uv_process_options_
    (ProcessOptions.set_args (args_buffer_ r) (uv_process_options_ r)) r);;

  let js_cwd := Get js_options cwd_sym in
  returned ← (if IsSet js_cwd then
    this ← get_runner;
    let '(c, target) := CopyJsString js_cwd (ProcessOptions.cwd (uv_process_options_ this)) in
    modify_options (ProcessOptions.set_cwd target);;
    let r := is_negative c in
    if negb (r =? 0) then mret (Some r) else
    modify_runner (λ r, set_uv_process_options_
      (ProcessOptions.set_cwd (cwd_buffer_ r) (uv_process_options_ r)) r);;
    mret None
  else mret None);
  match returned with Some r => mret r | None =>

  let js_env_pairs := Get js_options envPairs_sym in
  returned ← (if IsSet js_env_pairs then
    this ← get_runner;
    let '(c, target) := CopyJsStringArray js_env_pairs (env_buffer_ this) in
    modify_runner (set_env_buffer_ target);;
    let r := is_negative c in
    if negb (r =? 0) then mret (Some r) else
    modify_runner (λ r, set_uv_process_options_
      (ProcessOptions.set_args (env_buffer_ r) (uv_process_options_ r)) r);;
    mret None
  else mret None);
  match returned with Some r => mret r | None =>

  let js_uid := Get js_options uid_sym in
  returned ← (if IsSet js_uid then
    if negb (CheckRange_uv_uid_t js_uid) then mret (Some UV_EINVAL) else
    modify_options (ProcessOptions.set_uid (to_unsigned_int (Int32Value js_uid)));;
    or_flag UV_PROCESS_SETUID;;
    mret None
  else mret None);
  match returned with Some r => mret r | None =>

  let js_gid := Get js_options gid_sym in
  returned ← (if IsSet js_gid then
    if negb (CheckRange_uv_gid_t js_gid) then mret (Some UV_EINVAL) else
    modify_options (ProcessOptions.set_gid (to_unsigned_int (Int32Value js_gid)));;
    or_flag UV_PROCESS_SETGID;;
    mret None
  else mret None);
  match returned with Some r => mret r | None =>

  (if BooleanValue (Get js_options detached_sym)
   then or_flag UV_PROCESS_DETACHED else mret ());;

  (if BooleanValue (Get js_options windowsVerbatimArguments_sym)
   then or_flag UV_PROCESS_WINDOWS_VERBATIM_ARGUMENTS else mret ());;

  let js_timeout := Get js_options timeout_sym in
  returned ← (if IsSet js_timeout then
    if negb (IsNumber js_timeout) then mret (Some UV_EINVAL) else
    let timeout := IntegerValue js_timeout in
    if timeout <? 0 then mret (Some UV_EINVAL) else
    modify_runner (set_timeout_ (wrap_unsigned 64 timeout));;
    mret None
  else mret None);
  match returned with Some r => mret r | None =>

  let js_max_buffer := Get js_options maxBuffer_sym in
  returned ← (if IsSet js_max_buffer then
    if negb (CheckRange_uint32_t js_max_buffer) then mret (Some UV_EINVAL) else
    modify_runner (set_max_buffer_ (Uint32Value js_max_buffer));;
    mret None
  else mret None);
  match returned with Some r => mret r | None =>

  let js_kill_signal := Get js_options killSignal_sym in
  returned ← (if IsSet js_kill_signal then
    if negb (IsInt32 js_kill_signal) then mret (Some UV_EINVAL) else
    modify_runner (set_kill_signal_ (Int32Value js_kill_signal));;
    this ← get_runner;
    if kill_signal_ this =? 0 then mret (Some UV_EINVAL) else
    mret None
  else mret None);
  match returned with Some r => mret r | None =>

  let js_stdio := Get js_options stdio_sym in
  c ← ParseStdioOptions js_stdio;
  let r := is_negative c in
  if negb (r =? 0) then mret r else

  mret 0
  end end end end end end end.

(** ** class SyncProcessRunner: the run, the teardown, the result *)

Definition TryInitializeAndRunLoop `{Host} (options : JsValue) : M unit :=
  this ← get_runner;
  assert (bool_decide (lifecycle_ this = kUninitialized));;
  modify_runner (set_lifecycle_ kInitialized);;

  l ← uv uv_loop_new;
  modify_runner (set_uv_loop_ (negb (l <? 0)));;
  if l <? 0 then modify_runner (SetError UV_ENOMEM) else

  r ← ParseOptions options;
  if r <? 0 then modify_runner (SetError r) else

  this ← get_runner;
  returned ← (if 0 <? timeout_ this then
    r ← uv uv_timer_init;
    if r <? 0 then modify_runner (SetError r);; mret true else
    uv uv_unref_timer;;
    modify_runner (set_kill_timer_initialized_ true);;
    (* Start the timer immediately. *)
    r ← uv (uv_timer_start (timeout_ this));
    if r <? 0 then modify_runner (SetError r);; mret true else
    mret false
  else mret false);
  if returned : bool then mret () else

  modify_options (ProcessOptions.set_exit_cb true);;
  this ← get_runner;
  r ← uv (uv_spawn (uv_process_options_ this));
  if r <? 0 then modify_runner (SetError r) else

  returned ← for_loop (Z.to_nat (stdio_count_ this)) 0 (λ i,
    h ← pipes_at i;
    match h with
    | Some _ =>
        r ← SyncProcessStdioPipe_Start i;
        if r <? 0 then modify_runner (SetError r);; mret (Some r) else mret None
    | None => mret None
    end);
  match returned with Some _ => mret () | None =>

  r ← uv_run_default;
  if r <? 0 then
    (* We can't handle uv_run failure. *)
    abort
  else

  (* If we get here the process should have exited. *)
  this ← get_runner;
  assert (0 <=? exit_status_ this)
  end.

Definition CloseHandlesAndDeleteLoop : M unit :=
  this ← get_runner;
  assert (Lifecycle_rank (lifecycle_ this) <? Lifecycle_rank kHandlesClosed);;
  modify_runner (set_lifecycle_ kHandlesClosed);;

  (match pipes_ this with
   | Some _ =>
       assert (uv_loop_ this);;
       for_loop (Z.to_nat (stdio_count_ this)) 0 (λ i,
         h ← pipes_at i;
         match h with
         | Some _ => SyncProcessStdioPipe_Close i;; mret None
         | None => mret None
         end);;
       mret ()
   | None => mret ()
   end);;

  (if kill_timer_initialized_ this then
     uv uv_ref_timer;;
     uv uv_close_timer;;
     mret ()
   else mret ());;

  if uv_loop_ this then
    (* Give closing watchers a chance to finish closing. *)
    r ← uv_run_default;
    if r <? 0 then abort else
    uv uv_loop_delete;;
    mret ()
  else mret ().

(** [BuildOutputArray]; it only reads the runner.  [js_output->Set(i, v)]
    on the array made by [Array::New(stdio_count_)] is collected entry by
    entry. *)
Fixpoint BuildOutputArray_loop (count i : nat) (ps : list (option StdioPipe.t))
    : option (list JsValue) :=
  match count with
  | O => Some []
  | S count' =>
      h ← ps !! i;
      v ← match h with
          | Some h =>
              if StdioPipe.writable h
              then JsBuffer <$> StdioPipe.GetOutputAsBuffer h
              else Some JsNull
          | None => Some JsNull
          end;
      rest ← BuildOutputArray_loop count' (S i) ps;
      Some (v :: rest)
  end.

Definition BuildOutputArray (this : SyncProcessRunner) : option JsValue :=
  if negb (Lifecycle_rank kInitialized <=? Lifecycle_rank (lifecycle_ this)) then None else
  match pipes_ this with
  | None => None
  | Some ps => JsArray <$> BuildOutputArray_loop (Z.to_nat (stdio_count_ this)) 0 ps
  end.

Definition BuildResultObject `{Host} (this : SyncProcessRunner) : option JsValue :=
  let js_result := JsObject [] in

  let js_result :=
    if negb (GetError this =? 0)
    then Set_ js_result error_sym (JsNumber (GetError this))
    else js_result in

  let js_result :=
    if 0 <=? exit_status_ this
    then Set_ js_result status_sym (JsNumber (int64_to_double (exit_status_ this)))
    else
      (* If exit_status_ < 0 the process was never started because of some error. *)
      Set_ js_result status_sym JsNull in

  let js_result :=
    if 0 <? term_signal_ this
    then Set_ js_result signal_sym (JsString (signo_string (term_signal_ this)))
    else Set_ js_result signal_sym JsNull in

  if 0 <=? exit_status_ this
  then js_output ← BuildOutputArray this; Some (Set_ js_result output_sym js_output)
  else Some (Set_ js_result output_sym JsNull).

Definition Run `{Host} (options : JsValue) : M JsValue :=
  this ← get_runner;
  assert (bool_decide (lifecycle_ this = kUninitialized));;

  TryInitializeAndRunLoop options;;
  CloseHandlesAndDeleteLoop;;

  this ← get_runner;
  from_option (BuildResultObject this).

(** [~SyncProcessStdioPipe] and [~SyncProcessRunner], as far as they can
    end the process. *)
Definition pipe_destructible (h : option StdioPipe.t) : bool :=
  match h with
  | Some h =>
      bool_decide (StdioPipe.lifecycle_ h = StdioPipe.kUninitialized)
      || bool_decide (StdioPipe.lifecycle_ h = StdioPipe.kClosed)
  | None => true
  end.

Definition SyncProcessRunner_delete : M unit :=
  this ← get_runner;
  assert (bool_decide (lifecycle_ this = kHandlesClosed));;
  match pipes_ this with
  | Some ps =>
      assert (bool_decide (Z.to_nat (stdio_count_ this) ≤ length ps)%nat);;
      assert (forallb pipe_destructible (take (Z.to_nat (stdio_count_ this)) ps))
  | None => mret ()
  end.

(** [SyncProcessRunner::Spawn]: the entry point [spawnSync(options)], run
    against the libuv described by [oracle]. *)
Definition Spawn `{Host} (options : JsValue) (oracle : UvOracle) : Outcome JsValue :=
  (result ← Run options;
   SyncProcessRunner_delete;;
   mret result) (mkWorld SyncProcessRunner_new [] oracle).

(** * Notions the properties are stated with *)

(** ** Sequences of error reports, for the write-once property *)

Inductive ErrorReport :=
| ReportError (error : Z)
| ReportPipeError (pipe_error : Z).

Definition report (c : ErrorReport) (r : SyncProcessRunner) : SyncProcessRunner :=
  match c with
  | ReportError e => SetError e r
  | ReportPipeError e => SetPipeError e r
  end.



(** ** What [Kill] asks of libuv *)

(** The calls of a first [Kill]: the signal, once more when delivery
    [failed], and the stop of the timer when there is one. *)
Definition kill_calls (this : SyncProcessRunner) (failed : bool) : list UvCall :=
  [uv_process_kill (kill_signal_ this)]
  ++ (if failed then [uv_process_kill (kill_signal_ this)] else [])
  ++ (if kill_timer_initialized_ this then [uv_timer_stop] else []).

(** Delivery failed with an error that is not "no such process". *)
Definition kill_failed (r : Z) : bool := (r <? 0) && negb (r =? UV_ESRCH).

(** ** The output chain of a pipe, seen as bytes *)

(** The valid bytes of one capture buffer. *)
Definition chunk_bytes (b : OutputBuffer.t) : list byte :=
  take (Z.to_nat (OutputBuffer.used b)) (OutputBuffer.data_ b).

(** The bytes a pipe holds, buffer after buffer in the order of allocation. *)
Definition captured (p : StdioPipe.t) : list byte :=
  concat (chunk_bytes <$> StdioPipe.heap p).

(** The sum of [used()] over the buffers of a pipe. *)
Definition sum_used (p : StdioPipe.t) : Z :=
  foldr (λ b s, OutputBuffer.used b + s) 0 (StdioPipe.heap p).

(** The shape [OnAlloc] and [OnRead] keep: the chain starts at the first
    buffer allocated and links each buffer to the one allocated next, the
    last one excepted; only the last buffer can have room left. *)
Definition chain_ok (p : StdioPipe.t) : Prop :=
  StdioPipe.first_output_buffer_ p
    = match length (StdioPipe.heap p) with O => None | S _ => Some 0%nat end
  ∧ StdioPipe.last_output_buffer_ p
    = match length (StdioPipe.heap p) with O => None | S l => Some l end
  ∧ ∀ k b, StdioPipe.heap p !! k = Some b →
      0 ≤ OutputBuffer.used b ≤ OutputBuffer.kBufferSize
      ∧ (Z.to_nat (OutputBuffer.used b) ≤ length (OutputBuffer.data_ b))%nat
      ∧ OutputBuffer.next b
        = (if decide (S k < length (StdioPipe.heap p))%nat then Some (S k) else None)
      ∧ ((S k < length (StdioPipe.heap p))%nat →
         OutputBuffer.used b = OutputBuffer.kBufferSize).

(** ** Worlds *)

(** [pipes_[i]] when it is a pipe. *)
Definition pipe_of (w : World) (i : nat) : option StdioPipe.t :=
  ps ← pipes_ (runner w); h ← ps !! i; h.

(** What [StopKillTimer] asserts. *)
Definition timer_consistent (r : SyncProcessRunner) : Prop :=
  (0 <? timeout_ r) = kill_timer_initialized_ r.

(** What [Kill] and [StopKillTimer] assert of libuv: after a delivery that
    failed the next one succeeds or finds no process, and stopping a timer
    succeeds. *)
Definition kill_contract (o : UvOracle) : Prop :=
  (∀ sig n, kill_failed (uv_ret o (uv_process_kill sig) n) = true →
            0 ≤ uv_ret o (uv_process_kill sig) (S n)
            ∨ uv_ret o (uv_process_kill sig) (S n) = UV_ESRCH)
  ∧ ∀ n, uv_ret o uv_timer_stop n = 0.

(** A callback of the read path of pipe [i]: bytes, or a read that ends
    with a negative code. *)
Definition read_event_of (i : nat) (e : UvEvent) : Prop :=
  match e with
  | EvData j _ => j = i
  | EvReadEnd j nread => j = i ∧ - 2 ^ 31 ≤ nread < 0
  | _ => False
  end.

(** The bytes a script delivers, in order. *)
Definition delivered (es : list UvEvent) : list byte :=
  concat ((λ e, match e with EvData _ bytes => bytes | _ => [] end) <$> es).

(** Between two callbacks of the read path of pipe [i]: the pipe is
    started, its chain is well-formed and holds the bytes [c], and the
    assertions of the kill hold. *)
Definition read_inv (i : nat) (c : list byte) (w : World) : Prop :=
  ∃ p, pipe_of w i = Some p ∧ chain_ok p ∧ captured p = c
       ∧ StdioPipe.lifecycle_ p = StdioPipe.kStarted
       ∧ StdioPipe.writable_ p = true
       ∧ timer_consistent (runner w) ∧ kill_contract (uv_oracle w).

(** The world after [pipes_[i]] was made to hold [p]. *)
Definition put_pipe_world (i : nat) (p : StdioPipe.t) (w : World) : World :=
  mkWorld (set_pipes_ (<[i := Some p]> <$> pipes_ (runner w)) (runner w))
          (uv_log w) (uv_oracle w).

(** Right after the alloc callback of pipe [i] returned [buf]: [buf] is
    the free part of the last buffer of the chain, and is not empty. *)
Definition alloc_ready (i : nat) (c : list byte) (buf : uv_buf_t) (w : World) : Prop :=
  ∃ p l b,
    pipe_of w i = Some p ∧ chain_ok p ∧ captured p = c
    ∧ StdioPipe.lifecycle_ p = StdioPipe.kStarted
    ∧ StdioPipe.writable_ p = true
    ∧ StdioPipe.last_output_buffer_ p = Some l
    ∧ StdioPipe.heap p !! l = Some b
    ∧ S l = length (StdioPipe.heap p)
    ∧ base buf = ChunkPtr l (OutputBuffer.used b)
    ∧ len buf = OutputBuffer.kBufferSize - OutputBuffer.used b
    ∧ 0 ≤ OutputBuffer.used b < OutputBuffer.kBufferSize
    ∧ timer_consistent (runner w) ∧ kill_contract (uv_oracle w).

(** The world in which [Run] starts: a new runner, a libuv not called yet. *)
Definition initial_world (oracle : UvOracle) : World :=
  mkWorld SyncProcessRunner_new [] oracle.

(** ** Frames *)

(** The computation [m], when it returns, leaves [f] of the runner as it was. *)
Definition preserves {T A} (f : SyncProcessRunner → T) (m : M A) : Prop :=
  ∀ w a w', m w = Ok a w' → f (runner w') = f (runner w).

(** ** The result *)

(** Entry [i] of [output], in the words of the specification: the
    captured bytes when [pipes_[i]] is a writable pipe, null otherwise.
    The captured bytes are the valid bytes of the buffers of the pipe, in
    the order of the chain. *)
Definition expected_output_entry (slot : option StdioPipe.t) : JsValue :=
  match slot with
  | Some h => if StdioPipe.writable h then JsBuffer (captured h) else JsNull
  | None => JsNull
  end.

(** ** Sample inputs *)

(** A host for the sample inputs. *)
Definition sample_host : Host :=
  {| signo_string := λ signum, if signum =? 15 then "SIGTERM"%string else "SIGKILL"%string;
     ToString := λ _, "undefined"%string;
     ToInt32 := λ _, 0 |}.

(** A libuv in which every call returns 0, with the given scripts. *)
Definition quiet_oracle (events : nat → list UvEvent) : UvOracle :=
  {| uv_ret := λ _ _, 0; uv_events := events |}.

(** A writable pipe for fd 1, started, that has read nothing yet. *)
Definition sample_stdout_pipe : StdioPipe.t :=
  StdioPipe.mk 1 false true (uv_buf_init NullPtr 0) [] None None StdioPipe.kStarted.

(** A runner after the spawn of a child with stdio [ignore, pipe, ignore]. *)
Definition sample_running : World :=
  mkWorld
    (set_lifecycle_ kInitialized
       (set_uv_loop_ true
          (set_stdio_count_ 3
             (set_pipes_ (Some [None; Some sample_stdout_pipe; None])
                SyncProcessRunner_new))))
    [] (quiet_oracle (λ _, [])).

(** Three read callbacks on fd 1: two with data, and the end of file. *)
Definition sample_reads : list UvEvent :=
  [EvData 1 ["h"; "e"; "l"]%byte; EvData 1 ["l"; "o"]%byte; EvReadEnd 1 UV_EOF].

(** The runner of [sample_running] once its child has exited with code 0. *)
Definition sample_exited : SyncProcessRunner :=
  set_term_signal_ 0 (set_exit_status_ 0 (runner sample_running)).

(** A writable pipe for fd 1 that is closed and has captured "hello". *)
Definition sample_hello_pipe : StdioPipe.t :=
  StdioPipe.mk 1 false true (uv_buf_init NullPtr 0)
    [OutputBuffer.mk ["h"; "e"; "l"; "l"; "o"]%byte 5 None] (Some 0%nat) (Some 0%nat)
    StdioPipe.kClosed.

(** The runner of [sample_exited] when fd 1 has captured "hello". *)
Definition sample_exited_hello : SyncProcessRunner :=
  set_pipes_ (Some [None; Some sample_hello_pipe; None]) sample_exited.

(** A libuv whose first [uv_process_kill] fails with [UV_EINVAL], as it
    does for a signal number the system does not know. *)
Definition kill_fails_once_oracle : UvOracle :=
  {| uv_ret := λ c n,
       match c, n with
       | uv_process_kill _, O => UV_EINVAL
       | _, _ => 0
       end;
     uv_events := λ _, [] |}.

(** A runner with [maxBuffer = 1] whose child runs and wrote nothing yet. *)
Definition sample_capped : World :=
  mkWorld (set_max_buffer_ 1 (runner sample_running)) [] kill_fails_once_oracle.

(** A pipe for fd 0 that is both readable and writable, with one byte of
    input, as [AddStdioPipe] leaves it. *)
Definition sample_duplex_pipe : StdioPipe.t :=
  StdioPipe.mk 0 true true (uv_buf_init (HostPtr ["a"%byte]) 1) [] None None
    StdioPipe.kInitialized.

(** A libuv whose [uv_write] fails with [UV_EPIPE] (-32). *)
Definition write_fails_oracle : UvOracle :=
  {| uv_ret := λ c _, match c with uv_write _ _ => -32 | _ => 0 end;
     uv_events := λ _, [] |}.

(** A runner after the spawn of a child whose only fd is that pipe. *)
Definition sample_spawned_duplex : World :=
  mkWorld
    (set_lifecycle_ kInitialized
       (set_uv_loop_ true
          (set_stdio_count_ 1
             (set_pipes_ (Some [Some sample_duplex_pipe]) SyncProcessRunner_new))))
    [uv_loop_new] write_fails_oracle.

(** The options of [spawnSync("/bin/echo", ["echo", "hi"])] with stdio
    [ignore, pipe (writable), ignore]; no [killSignal]. *)
Definition sample_echo_options : JsValue :=
  JsObject
    [(file_sym, JsString "/bin/echo");
     (args_sym, JsArray [JsString "echo"; JsString "hi"]);
     (stdio_sym,
      JsArray
        [JsObject [(type_sym, JsString "ignore")];
         JsObject [(type_sym, JsString "pipe"); (writable_sym, JsBoolean true)];
         JsObject [(type_sym, JsString "ignore")]])].

(** A stdio entry for a readable pipe whose [input] is a string. *)
Definition sample_string_input : JsValue :=
  JsObject [(type_sym, JsString "pipe"); (readable_sym, JsBoolean true);
            (input_sym, JsString "text")].

(** Options whose [stdio] has an entry that is not an object: decoding
    [stdio] fails with [UV_EINVAL]. *)
Definition sample_bad_stdio_options : JsValue :=
  JsObject
    [(file_sym, JsString "/bin/echo");
     (args_sym, JsArray [JsString "echo"]);
     (stdio_sym, JsArray [JsObject [(type_sym, JsString "ignore")]; JsNumber 7])].

(** A libuv in which every call succeeds and the child exits with code 0
    during the first [uv_run]. *)
Definition child_exits_oracle : UvOracle :=
  quiet_oracle (λ n, if (n <? 3)%nat then [EvExit 0 0] else []).

(** Options with a working directory and an environment. *)
Definition sample_env_options : JsValue :=
  JsObject
    [(file_sym, JsString "/bin/ls");
     (args_sym, JsArray [JsString "ls"]);
     (cwd_sym, JsString "/tmp");
     (envPairs_sym, JsArray [JsString "A=1"]);
     (stdio_sym, JsArray [])].

(** A libuv for [sample_echo_options]: the child writes "hi\n" to fd 1
    and exits with code 0 during the first [uv_run]; the second [uv_run]
    delivers the close callback of the pipe. *)
Definition sample_echo_oracle : UvOracle :=
  quiet_oracle
    (λ n, if (n <? 5)%nat
          then [EvData 1 ["h"; "i"; "010"]%byte; EvReadEnd 1 UV_EOF; EvExit 0 0]
          else [EvClose 1]).

(** The options of a [sleep 10] that may run for 50 ms. *)
Definition sample_sleep_options : JsValue :=
  JsObject
    [(file_sym, JsString "/bin/sleep");
     (args_sym, JsArray [JsString "sleep"; JsString "10"]);
     (timeout_sym, JsNumber 50);
     (stdio_sym, JsArray [JsObject [(type_sym, JsString "ignore")]])].

(** A libuv for them: the timer fires, then the child is reported dead
    by signal 15. *)
Definition sample_timeout_oracle : UvOracle :=
  quiet_oracle
    (λ n, if (n <? 6)%nat then [EvKillTimer 0; EvExit 0 15] else [EvKillTimerClose]).

(** For each buffer of the chain of pipe [i]: [used()], and [next()]. *)
Definition chain_summary (w : World) (i : nat) : list (Z * option nat) :=
  match pipe_of w i with
  | Some p => (λ b, (OutputBuffer.used b, OutputBuffer.next b)) <$> StdioPipe.heap p
  | None => []
  end.

(** * Notions the wider properties are stated with *)

(** ** Postconditions and invariants *)

(** Whenever [m] returns from [w], its result and the world it leaves
    satisfy [Q]. *)
Definition wp {A} (m : M A) (Q : A → World → Prop) (w : World) : Prop :=
  match m w with Ok a w' => Q a w' | Abort => True end.

(** [I] holds when [m] returns whenever it held before. *)
Definition stable {A} (I : World → Prop) (m : M A) : Prop :=
  ∀ w a w', I w → m w = Ok a w' → I w'.

(** ** The log *)

Definition is_kill (c : UvCall) : bool :=
  match c with uv_process_kill _ => true | _ => false end.

(** How often the log asks libuv to send a signal. *)
Definition kill_attempts (log : list UvCall) : nat :=
  length (List.filter is_kill log).

(** At most the first delivery and its retry, and none before [killed_]. *)
Definition kill_budget (w : World) : Prop :=
  (kill_attempts (uv_log w) ≤ (if killed_ (runner w) then 2 else 0))%nat.

(** ** Further sample inputs *)

(** [sample_running] after its timeout was recorded. *)
Definition sample_timed_out : World :=
  mkWorld (set_error_ UV_ETIMEDOUT (runner sample_running)) [] (quiet_oracle (λ _, [])).

(** Callbacks that report errors of their own: a failed exit status, a
    failed write and a failed read on fd 1. *)
Definition sample_late_errors : list UvEvent :=
  [EvExit (-5) 0; EvWriteDone 1 (-32); EvReadEnd 1 (-104)].

(** A libuv that cannot make a loop. *)
Definition no_loop_oracle : UvOracle :=
  {| uv_ret := λ c _, match c with uv_loop_new => -1 | _ => 0 end;
     uv_events := λ _, [] |}.

(** ** What the decoder accepts *)

(** The field a numeric option is decoded into: the number [z] the option
    holds, which lies in the range from [lo] to [hi], the upper bound
    excluded; the [old] value when the option is undefined or null. *)
Definition decoded (v : JsValue) (lo hi : Z) (old new : Z) : Prop :=
  if IsSet v then ∃ z, v = JsNumber z ∧ lo ≤ z < hi ∧ new = z else new = old.

(** The integer part of a finite number: the number without its
    fractional part, rounded towards zero. *)
Definition integer_part (v : JsValue) : option Z :=
  match v with
  | JsNumber z => Some z
  | JsDouble (Fraction k e) => Some (Z.quot (2 * k + 1) (2 ^ Z.pos e))
  | JsDouble MinusZero => Some 0
  | _ => None
  end.

(** The field [timeout] is decoded into: the integer part [t] of the
    number the option holds, which is finite and lies from 0 to 2^63, the
    upper bound excluded; the [old] value when the option is undefined or
    null. *)
Definition decoded_timeout (v : JsValue) (old new : Z) : Prop :=
  if IsSet v
  then ∃ t, IsNumber v = true ∧ integer_part v = Some t ∧ 0 ≤ t < 2 ^ 63 ∧ new = t
  else new = old.

(** The flags of the descriptor once the decoder went over [uid], [gid],
    [detached] and [windowsVerbatimArguments], in this order. *)
Definition decoded_flags (options : JsValue) (flags : Z) : Z :=
  let flags :=
    if IsSet (Get options uid_sym) then Z.lor flags UV_PROCESS_SETUID else flags in
  let flags :=
    if IsSet (Get options gid_sym) then Z.lor flags UV_PROCESS_SETGID else flags in
  let flags :=
    if BooleanValue (Get options detached_sym)
    then Z.lor flags UV_PROCESS_DETACHED else flags in
  let flags :=
    if BooleanValue (Get options windowsVerbatimArguments_sym)
    then Z.lor flags UV_PROCESS_WINDOWS_VERBATIM_ARGUMENTS else flags in
  flags.

(** Options that set every numeric key; the timeout is 1500.5 ms. *)
Definition sample_numeric_options : JsValue :=
  JsObject
    [(file_sym, JsString "/bin/true");
     (args_sym, JsArray [JsString "true"]);
     (uid_sym, JsNumber 4294967294);
     (gid_sym, JsNumber 100);
     (detached_sym, JsBoolean true);
     (timeout_sym, JsDouble (Fraction 1500 1));
     (maxBuffer_sym, JsNumber 204800);
     (killSignal_sym, JsNumber 9);
     (stdio_sym, JsArray [])].

(** What is known after a block of the decoder: it returned a code that
    is not 0, or it went on with a runner that satisfies [P]. *)
Definition block_post (P : SyncProcessRunner → Prop) (ret : option Z) (w : World) : Prop :=
  match ret with Some r => r ≠ 0 | None => P (runner w) end.

(** [m] returns from [w], with a result and a world that satisfy [Q]. *)
Definition wp_total {A} (m : M A) (Q : A → World → Prop) (w : World) : Prop :=
  match m w with Ok a w' => Q a w' | Abort => False end.

(** The checks [ParseOptions] makes on the numeric keys that are set. *)
Definition numeric_keys_valid `{Host} (options : JsValue) : bool :=
  let ok key (check : JsValue → bool) :=
    negb (IsSet (Get options key)) || check (Get options key) in
  ok uid_sym CheckRange_uv_uid_t
  && ok gid_sym CheckRange_uv_gid_t
  && ok timeout_sym (λ v, IsNumber v && (0 <=? IntegerValue v))
  && ok maxBuffer_sym CheckRange_uint32_t
  && ok killSignal_sym (λ v, IsInt32 v && negb (Int32Value v =? 0)).

(** Options the decoder turns down with [UV_EINVAL]: they are no object,
    or their strings can be copied and a numeric key fails its check. *)
Definition rejected `{Host} (options : JsValue) : bool :=
  negb (IsObject options)
  || (IsArray (Get options args_sym)
      && (negb (IsSet (Get options envPairs_sym)) || IsArray (Get options envPairs_sym))
      && negb (numeric_keys_valid options)).

(** What the decoder leaves alone while it looks at the keys other than
    [stdio]. *)
Definition undecoded (r : SyncProcessRunner) :=
  (pipes_ r, uv_stdio_containers_ r, stdio_count_ r, lifecycle_ r,
   kill_timer_initialized_ r, uv_loop_ r, killed_ r,
   (error_ r, pipe_error_ r, exit_status_ r, term_signal_ r)).

(** After a block of the decoder that checks a key: the world is as
    [same] says, and the block returned [UV_EINVAL] or found the key
    [valid]. *)
Definition checked_post (same : World → Prop) (valid : bool) (ret : option Z) (w : World)
    : Prop :=
  same w ∧ (ret = Some UV_EINVAL ∨ (ret = None ∧ valid = true)).

(** Options with a kill signal of 0. *)
Definition sample_zero_signal_options : JsValue :=
  JsObject
    [(file_sym, JsString "/bin/true");
     (args_sym, JsArray [JsString "true"]);
     (killSignal_sym, JsNumber 0);
     (stdio_sym, JsArray [JsObject [(type_sym, JsString "pipe"); (writable_sym, JsBoolean true)]])].

(** The decoder went from [w] to [w'] without a call into libuv and
    without a change to the fields of [undecoded]. *)
Definition same_but_decoded (w w' : World) : Prop :=
  undecoded (runner w') = undecoded (runner w)
  ∧ uv_log w' = uv_log w
  ∧ uv_oracle w' = uv_oracle w.

(** A runner with a timeout of 50 ms whose timer is armed, and a libuv
    whose first delivery of the signal fails. *)
Definition sample_timed : World :=
  mkWorld (set_kill_timer_initialized_ true (set_timeout_ 50 (runner sample_running)))
    [] kill_fails_once_oracle.

(** ** The stdio plan *)

(** What entry [i] of [stdio] asks for: the pipe to make, if any, and the
    container handed to libuv.  [None] for an entry of no known type. *)
Definition decoded_stdio_entry `{Host} (i : nat) (js_stdio_option : JsValue)
    : option (option StdioPipe.t * StdioContainer.t) :=
  let js_type := Get js_stdio_option type_sym in
  if StrictEquals js_type ignore_sym then
    Some (None, StdioContainer.mk UV_IGNORE StdioContainer.NoData)
  else if StrictEquals js_type pipe_sym then
    let readable := BooleanValue (Get js_stdio_option readable_sym) in
    let writable := BooleanValue (Get js_stdio_option writable_sym) in
    let input := Get js_stdio_option input_sym in
    let buf :=
      if readable && Buffer_HasInstance input
      then uv_buf_init (HostPtr (Buffer_Data input))
             (to_unsigned_int (Z.of_nat (length (Buffer_Data input))))
      else uv_buf_init NullPtr 0 in
    let p := StdioPipe.mk i readable writable buf [] None None StdioPipe.kInitialized in
    Some (Some p, StdioContainer.mk (StdioPipe.uv_stdio_flags p) (StdioContainer.Stream i))
  else if StrictEquals js_type inherit_sym then
    Some (None,
          StdioContainer.mk UV_INHERIT_FD
            (StdioContainer.Fd (Int32Value (Get js_stdio_option fd_sym))))
  else None.

(** The handles the decoder initializes for the entries from [first] on. *)
Fixpoint pipe_init_calls (first : nat) (entries : list JsValue) : list UvCall :=
  match entries with
  | [] => []
  | e :: rest =>
      (if StrictEquals (Get e type_sym) pipe_sym then [uv_pipe_init first] else [])
      ++ pipe_init_calls (S first) rest
  end.

(** While the decoder is at entry [k] of [entries]: the arrays have one
    slot for each entry, the slots before [k] hold what the entries ask
    for, the slots from [k] on are empty, and [calls] were made. *)
Definition stdio_decoded_upto `{Host} (entries : list JsValue) (log : list UvCall)
    (k : nat) (w : World) : Prop :=
  ∃ ps cs,
    pipes_ (runner w) = Some ps
    ∧ uv_stdio_containers_ (runner w) = Some cs
    ∧ length ps = length entries
    ∧ length cs = length entries
    ∧ (∀ j e, (j < k)%nat → entries !! j = Some e →
         ∃ slot c, decoded_stdio_entry j e = Some (slot, c)
                   ∧ ps !! j = Some slot ∧ cs !! j = Some (Some c))
    ∧ (∀ j, (k ≤ j < length entries)%nat → ps !! j = Some None ∧ cs !! j = Some None)
    ∧ uv_log w = log ++ pipe_init_calls 0 (take k entries).

(** The entries of a [stdio] that ignores fd 0, captures fd 1 and passes
    its own fd 2 on. *)
Definition sample_stdio_entries : list JsValue :=
  [JsObject [(type_sym, JsString "ignore")];
   JsObject [(type_sym, JsString "pipe"); (writable_sym, JsBoolean true)];
   JsObject [(type_sym, JsString "inherit"); (fd_sym, JsNumber 2)]].

(** ** The teardown *)

(** A pipe whose handle is open: initialized or started. *)
Definition pipe_open (p : StdioPipe.t) : bool :=
  bool_decide (StdioPipe.lifecycle_ p = StdioPipe.kInitialized)
  || bool_decide (StdioPipe.lifecycle_ p = StdioPipe.kStarted).

(** One [uv_close] for each pipe there is, in the order of the fds. *)
Fixpoint close_calls (ps : list (option StdioPipe.t)) : list UvCall :=
  match ps with
  | [] => []
  | Some p :: rest => uv_close_pipe (StdioPipe.self p) :: close_calls rest
  | None :: rest => close_calls rest
  end.

Definition with_lifecycle (l : StdioPipe.Lifecycle) (h : option StdioPipe.t)
    : option StdioPipe.t :=
  StdioPipe.set_lifecycle_ l <$> h.

(** The runner of [w'] differs from that of [w] in [pipes_] at most, and
    libuv is the same. *)
Definition same_but_pipes (w w' : World) : Prop :=
  (∀ v, set_pipes_ v (runner w') = set_pipes_ v (runner w))
  ∧ uv_oracle w' = uv_oracle w.

(** A callback of the teardown: the close callback of a pipe there is, or
    that of the kill timer. *)
Definition close_event_for (ps : list (option StdioPipe.t)) (e : UvEvent) : Prop :=
  match e with
  | EvClose i => ∃ p, ps !! i = Some (Some p)
  | EvKillTimerClose => True
  | _ => False
  end.

(** [sample_running] with a libuv that delivers the close callback of
    fd 1 in every [uv_run]. *)
Definition sample_teardown : World :=
  mkWorld (runner sample_running) [] (quiet_oracle (λ _, [EvClose 1])).

(** ** The error that is reported *)

(** The first code of a list that is not 0; 0 when there is none. *)
Fixpoint first_nonzero (codes : list Z) : Z :=
  match codes with
  | [] => 0
  | c :: rest => if c =? 0 then first_nonzero rest else c
  end.

(** The codes reported as primary errors, and those reported as pipe
    errors, in the order of the reports. *)
Definition primary_reports (cs : list ErrorReport) : list Z :=
  omap (λ c, match c with ReportError e => Some e | ReportPipeError _ => None end) cs.

Definition pipe_reports (cs : list ErrorReport) : list Z :=
  omap (λ c, match c with ReportPipeError e => Some e | ReportError _ => None end) cs.

(** ** The output cap *)

(** The runner was killed if and only if its output went over the cap. *)
Definition killed_when_over (r : SyncProcessRunner) : Prop :=
  killed_ r = (0 <? max_buffer_ r) && (max_buffer_ r <? buffered_output_size_ r).

(** A child with [maxBuffer = 4] that runs and wrote nothing yet. *)
Definition sample_capped_4 : World :=
  mkWorld (set_max_buffer_ 4 (runner sample_running)) [] (quiet_oracle (λ _, [])).

(** The counters of the cap between two callbacks of the read path:
    [b] bytes were counted, the cap is the one of [w0], and the runner was
    killed if and only if the count went over the cap. *)
Definition cap_inv (b : Z) (w0 w : World) : Prop :=
  buffered_output_size_ (runner w) = b
  ∧ max_buffer_ (runner w) = max_buffer_ (runner w0)
  ∧ killed_when_over (runner w).

(** ** The buffers of [CopyJsString] and [CopyJsStringArray] *)

(** What the two functions use of string_bytes.cc and util.h:
    [StringBytes::StorageSize(value, UTF8)], the bytes that
    [StringBytes::Write(buf, -1, value, UTF8)] stores at [buf] (it returns
    their number), and the macro [ROUND_UP]. *)
Class StringHost := {
  StringBytes_StorageSize : string → Z;
  StringBytes_Write : string → list byte;
  ROUND_UP : Z → Z → Z
}.

(** What the functions rely on: [Write] stores no more bytes than
    [StorageSize] announced, and [ROUND_UP a 8] is the multiple of 8 that
    follows [a]. *)
Definition string_host_ok `{StringHost} : Prop :=
  (∀ s, Z.of_nat (length (StringBytes_Write s)) ≤ StringBytes_StorageSize s)
  ∧ ∀ a, 0 ≤ a → a ≤ ROUND_UP a 8 < a + 8 ∧ ROUND_UP a 8 mod 8 = 0.

Module CharBuffer.

(** A slot of a table of [char*]: not written, [NULL], or [buffer + offset]. *)
Inductive slot : Type := Uninit | Null | Ptr (offset : Z).

(** A [new char[size]] whose first bytes are read as a table of [char*]:
    the slots of the table, and the [size] bytes of the buffer, [None]
    where no character was written. *)
Record t : Type := mk {
  table : list slot;
  chars : list (option byte)
}.

Definition alloc (list_size size : Z) : t :=
  mk (replicate (Z.to_nat (list_size / 8)) Uninit) (replicate (Z.to_nat size) None).

(** [buffer[offset] = c].  [None] when the byte is outside the buffer or
    inside the table. *)
Definition store (offset : Z) (c : byte) (b : t) : option t :=
  if bool_decide (8 * Z.of_nat (length (table b)) ≤ offset < Z.of_nat (length (chars b)))
  then Some (mk (table b) (<[Z.to_nat offset := Some c]> (chars b)))
  else None.

(** What [StringBytes::Write(buffer + offset, ...)] does with its bytes. *)
Fixpoint store_all (offset : Z) (bytes : list byte) (b : t) : option t :=
  match bytes with
  | [] => Some b
  | c :: rest => b' ← store offset c b; store_all (offset + 1) rest b'
  end.

(** [list[i] = p].  [None] when the slot is outside the buffer. *)
Definition set_slot (i : Z) (p : slot) (b : t) : option t :=
  if bool_decide (0 ≤ i < Z.of_nat (length (table b))
                  ∧ 8 * (i + 1) ≤ Z.of_nat (length (chars b)))
  then Some (mk (<[Z.to_nat i := p]> (table b)) (chars b))
  else None.

(** The C string at [buffer + offset]: the bytes before the first NUL. *)
Fixpoint c_string (fuel : nat) (b : t) (offset : nat) : option (list byte) :=
  match fuel with
  | O => None
  | S fuel' =>
      match chars b !! offset with
      | Some (Some c) =>
          if bool_decide (c = x00) then Some []
          else (c ::.) <$> c_string fuel' b (S offset)
      | _ => None
      end
  end.

(** The bytes [bytes] and a NUL are at [buffer + offset]. *)
Definition string_at (b : t) (offset : Z) (bytes : list byte) : Prop :=
  (∀ k c, bytes !! k = Some c → chars b !! (Z.to_nat offset + k)%nat = Some (Some c))
  ∧ chars b !! (Z.to_nat offset + length bytes)%nat = Some (Some x00).

End CharBuffer.

Section string_buffers.
Context `{Host} `{StringHost}.

(** The buffer that [CopyJsString] makes [target] point to.  [None] when
    a byte is stored outside of it. *)
Definition CopyJsString_buffer (js_value : JsValue) : option (Z * CharBuffer.t) :=
  let js_string :=
    match js_value with JsString s => s | _ => ToString js_value end in
  (* Include space for null terminator byte. *)
  let size := to_size_t (StringBytes_StorageSize js_string + 1) in
  let buffer := CharBuffer.alloc 0 size in
  buffer ← CharBuffer.store_all 0 (StringBytes_Write js_string) buffer;
  let written := Z.of_nat (length (StringBytes_Write js_string)) in
  buffer ← CharBuffer.store written x00 buffer;
  Some (0, buffer).

(** The second loop of [CopyJsStringArray], from [data_size]. *)
Definition data_size_loop (data_size : Z) (strings : list string) : Z :=
  foldl (λ data_size s,
           let data_size := to_size_t (data_size + to_size_t (StringBytes_StorageSize s + 1)) in
           to_size_t (ROUND_UP data_size 8))
        data_size strings.

(** The third loop of [CopyJsStringArray], from index [i]. *)
Fixpoint write_strings (strings : list string) (i data_offset : Z) (buffer : CharBuffer.t)
    : option CharBuffer.t :=
  match strings with
  | [] => Some buffer
  | s :: rest =>
      buffer ← CharBuffer.set_slot i (CharBuffer.Ptr data_offset) buffer;
      buffer ← CharBuffer.store_all data_offset (StringBytes_Write s) buffer;
      let data_offset := to_size_t (data_offset + Z.of_nat (length (StringBytes_Write s))) in
      buffer ← CharBuffer.store data_offset x00 buffer;
      let data_offset := to_size_t (data_offset + 1) in
      let data_offset := to_size_t (ROUND_UP data_offset 8) in
      write_strings rest (to_unsigned_int (i + 1)) data_offset buffer
  end.

(** The buffer that [CopyJsStringArray] makes [target] point to, with the
    return code; without a buffer when the code is not 0.  [None] when a
    byte or a pointer is stored outside of the buffer. *)
Definition CopyJsStringArray_buffer (js_value : JsValue) : option (Z * option CharBuffer.t) :=
  match js_value with
  | JsArray elems =>
      let length := Z.of_nat (length elems) in
      (* Convert all array elements to string. *)
      let strings :=
        map (λ e, match e with JsString s => s | _ => ToString e end) elems in
      (* Index has a pointer to every string element, plus one more for a
         final null pointer. *)
      let list_size := to_size_t (to_unsigned_int (length + 1) * 8) in
      let data_size := data_size_loop 0 strings in
      let buffer := CharBuffer.alloc list_size (to_size_t (list_size + data_size)) in
      let data_offset := list_size in
      buffer ← write_strings strings 0 data_offset buffer;
      buffer ← CharBuffer.set_slot length CharBuffer.Null buffer;
      Some (0, Some buffer)
  | _ => Some (UV_EINVAL, None)
  end.

(** An upper bound of the bytes of the strings, each with its NUL and its
    padding. *)
Definition storage_bound (strings : list string) : Z :=
  foldr (λ s acc, StringBytes_StorageSize s + 8 + acc) 0 strings.

End string_buffers.

(** A host that stores one byte for a character and announces three, as
    node does for UTF-8. *)
Definition sample_string_host : StringHost :=
  {| StringBytes_StorageSize := λ s, 3 * Z.of_nat (String.length s);
     StringBytes_Write := λ s, String.list_byte_of_string s;
     ROUND_UP := λ a b, if a mod b =? 0 then a else a + b - a mod b |}.

(** ** The spawn, over a whole run *)

Definition is_spawn (c : UvCall) : bool :=
  match c with uv_spawn _ => true | _ => false end.

(** The calls that start the traffic of a pipe. *)
Definition is_io (c : UvCall) : bool :=
  match c with uv_write _ _ | uv_shutdown _ | uv_read_start _ => true | _ => false end.

Definition io_calls (log : list UvCall) : nat := length (List.filter is_io log).

(** The codes libuv returned to the calls of [uv_spawn] in a log whose
    first call was call number [n]. *)
Fixpoint spawn_codes_from (o : UvOracle) (n : nat) (log : list UvCall) : list Z :=
  match log with
  | [] => []
  | c :: log' =>
      (if is_spawn c then [uv_ret o c n] else []) ++ spawn_codes_from o (S n) log'
  end.

Definition spawn_codes (o : UvOracle) (log : list UvCall) : list Z :=
  spawn_codes_from o 0 log.

(** Before the spawn: no child, no traffic, no error. *)
Definition spawn_pending (o : UvOracle) (w : World) : Prop :=
  uv_oracle w = o
  ∧ spawn_codes o (uv_log w) = []
  ∧ io_calls (uv_log w) = 0%nat
  ∧ error_ (runner w) = 0.

(** After a spawn that returned [r]. *)
Definition spawned (o : UvOracle) (r : Z) (w : World) : Prop :=
  uv_oracle w = o ∧ spawn_codes o (uv_log w) = [r].

(** What a run leaves: an error and no spawn, or one spawn; after a spawn
    that failed, its code as the error; without a child, no traffic. *)
Definition spawn_settled (o : UvOracle) (w : World) : Prop :=
  uv_oracle w = o
  ∧ match spawn_codes o (uv_log w) with
    | [] => error_ (runner w) ≠ 0 ∧ io_calls (uv_log w) = 0%nat
    | [r] => r < 0 → error_ (runner w) = r ∧ io_calls (uv_log w) = 0%nat
    | _ => False
    end.


(** * Properties *)

(** ** Records: reading a field after writing another *)

Lemma error_SetError e r :
  error_ (SetError e r) = if error_ r =? 0 then e else error_ r.
Proof. unfold SetError. by destruct (error_ r =? 0). Qed.

Lemma pipe_error_SetError e r : pipe_error_ (SetError e r) = pipe_error_ r.
Proof. unfold SetError. by destruct (error_ r =? 0). Qed.

Lemma pipe_error_SetPipeError e r :
  pipe_error_ (SetPipeError e r) = if pipe_error_ r =? 0 then e else pipe_error_ r.
Proof. unfold SetPipeError. by destruct (pipe_error_ r =? 0). Qed.

Lemma error_SetPipeError e r : error_ (SetPipeError e r) = error_ r.
Proof. unfold SetPipeError. by destruct (pipe_error_ r =? 0). Qed.







(** ** The kill *)

Ltac run_monad :=
  repeat progress
    (change (@mbind M M_bind) with M_bind;
     change (@mret M M_ret) with M_ret;
     unfold M_bind, M_ret, get_runner, modify_runner, uv, assert, abort, from_option;
     cbn [runner uv_log uv_oracle]).

Lemma Kill_killed w : killed_ (runner w) = true → Kill w = Ok () w.
Proof. intros Hk. unfold Kill. run_monad. by rewrite Hk. Qed.

Lemma StopKillTimer_no_timer w :
  (0 <? timeout_ (runner w)) = kill_timer_initialized_ (runner w) →
  kill_timer_initialized_ (runner w) = false →
  StopKillTimer w = Ok () w.
Proof.
  intros Hc Hi. unfold StopKillTimer. run_monad.
  rewrite bool_decide_true by done. run_monad. by rewrite Hi.
Qed.

Lemma StopKillTimer_timer w :
  (0 <? timeout_ (runner w)) = kill_timer_initialized_ (runner w) →
  kill_timer_initialized_ (runner w) = true →
  uv_ret (uv_oracle w) uv_timer_stop (length (uv_log w)) = 0 →
  StopKillTimer w = Ok () (mkWorld (runner w) (uv_log w ++ [uv_timer_stop]) (uv_oracle w)).
Proof.
  intros Hc Hi Hr. unfold StopKillTimer. run_monad.
  rewrite bool_decide_true by done. run_monad. rewrite Hi. run_monad. by rewrite Hr.
Qed.

Lemma SetError_frame e x :
  kill_timer_initialized_ (SetError e x) = kill_timer_initialized_ x
  ∧ timeout_ (SetError e x) = timeout_ x
  ∧ killed_ (SetError e x) = killed_ x
  ∧ kill_signal_ (SetError e x) = kill_signal_ x
  ∧ max_buffer_ (SetError e x) = max_buffer_ x
  ∧ buffered_output_size_ (SetError e x) = buffered_output_size_ x
  ∧ pipes_ (SetError e x) = pipes_ x.
Proof. unfold SetError. by destruct (error_ x =? 0). Qed.

(** The first [Kill], when the assertions on its way hold. *)
Lemma Kill_first w :
  killed_ (runner w) = false →
  (0 <? timeout_ (runner w)) = kill_timer_initialized_ (runner w) →
  (kill_failed (uv_ret (uv_oracle w) (uv_process_kill (kill_signal_ (runner w)))
                  (length (uv_log w))) = true →
   0 ≤ uv_ret (uv_oracle w) (uv_process_kill (kill_signal_ (runner w)))
         (S (length (uv_log w)))
   ∨ uv_ret (uv_oracle w) (uv_process_kill (kill_signal_ (runner w)))
         (S (length (uv_log w))) = UV_ESRCH) →
  (∀ n, uv_ret (uv_oracle w) uv_timer_stop n = 0) →
  Kill w =
  Ok () (mkWorld
           ((if kill_failed (uv_ret (uv_oracle w)
                               (uv_process_kill (kill_signal_ (runner w)))
                               (length (uv_log w)))
             then SetError (uv_ret (uv_oracle w)
                              (uv_process_kill (kill_signal_ (runner w)))
                              (length (uv_log w)))
             else id) (set_killed_ true (runner w)))
           (uv_log w ++ kill_calls (runner w)
              (kill_failed (uv_ret (uv_oracle w)
                              (uv_process_kill (kill_signal_ (runner w)))
                              (length (uv_log w)))))
           (uv_oracle w)).
Proof.
  intros Hk Htimer Hretry Hstop.
  unfold Kill. run_monad. rewrite Hk. run_monad.
  set (sig := kill_signal_ (runner w)) in *.
  set (r := uv_ret (uv_oracle w) (uv_process_kill sig) (length (uv_log w))) in *.
  fold (kill_failed r). unfold kill_calls. fold sig.
  destruct (kill_failed r) eqn:Hf.
  - specialize (Hretry eq_refl). run_monad.
    rewrite length_app. cbn [length]. rewrite Nat.add_1_r.
    rewrite (proj2 (orb_true_iff (0 <=? _) (_ =? UV_ESRCH))); cycle 1.
    { destruct Hretry as [H|H]; [left; lia | right; lia]. }
    run_monad.
    destruct (SetError_frame r (set_killed_ true (runner w))) as (Hi & Ht & _).
    cbn [kill_timer_initialized_ timeout_ set_killed_] in Hi, Ht.
    destruct (kill_timer_initialized_ (runner w)) eqn:Hinit.
    + rewrite StopKillTimer_timer; cbn [runner uv_log uv_oracle];
        [|by rewrite Hi, Ht|by rewrite Hi|apply Hstop].
      by rewrite <- !app_assoc.
    + rewrite StopKillTimer_no_timer; cbn [runner uv_log uv_oracle];
        [|by rewrite Hi, Ht|by rewrite Hi].
      by rewrite <- !app_assoc.
  - run_monad. destruct (kill_timer_initialized_ (runner w)) eqn:Hinit.
    + rewrite StopKillTimer_timer; cbn [runner uv_log uv_oracle id];
        [|cbn; congruence|cbn; congruence|apply Hstop].
      by rewrite <- !app_assoc.
    + rewrite StopKillTimer_no_timer; cbn [runner uv_log uv_oracle id];
        [|cbn; congruence|cbn; congruence].
      by rewrite app_nil_r.
Qed.

(** C3. [Kill] does nothing once [killed_] is set.  The first [Kill] sets
    [killed_], sends [kill_signal_]; when that fails with an error other
    than [UV_ESRCH] it passes the error to [SetError] and sends
    [kill_signal_] a second time; it then stops the kill timer; a [Kill]
    after it changes nothing.  The premises are the assertions of the
    source: the timer exists exactly when a timeout is set, the second
    delivery succeeds or reports [UV_ESRCH], and [uv_timer_stop] returns 0. *)
Theorem C3_kill_once_retry_same_signal (w : World) :
  let this := runner w in
  let now := length (uv_log w) in
  let r := uv_ret (uv_oracle w) (uv_process_kill (kill_signal_ this)) now in
  let failed := kill_failed r in
  (killed_ this = true → Kill w = Ok () w) ∧
  (killed_ this = false →
   (0 <? timeout_ this) = kill_timer_initialized_ this →
   (failed = true →
    let r' := uv_ret (uv_oracle w) (uv_process_kill (kill_signal_ this)) (S now) in
    0 ≤ r' ∨ r' = UV_ESRCH) →
   (∀ n, uv_ret (uv_oracle w) uv_timer_stop n = 0) →
   ∃ w',
     Kill w = Ok () w'
     ∧ runner w' = (if failed then SetError r else id) (set_killed_ true this)
     ∧ uv_log w' = uv_log w ++ kill_calls this failed
     ∧ uv_oracle w' = uv_oracle w
     ∧ Kill w' = Ok () w').
Proof.
  intros this now r failed. split; [apply Kill_killed|].
  intros Hk Htimer Hretry Hstop.
  eexists. split; [by apply Kill_first|].
  cbn [runner uv_log uv_oracle]. repeat split.
  apply Kill_killed. cbn [runner]. fold this now r failed.
  destruct failed; [|done].
  by destruct (SetError_frame r (set_killed_ true this)) as (_ & _ & -> & _).
Qed.

Lemma C3_kill_once_retry_same_signal_witness :
  ∃ w',
    Kill sample_capped = Ok () w'
    ∧ killed_ (runner w') = true
    ∧ error_ (runner w') = UV_EINVAL
    ∧ uv_log w' = [uv_process_kill SIGTERM; uv_process_kill SIGTERM]
    ∧ Kill w' = Ok () w'.
Proof.
  destruct (proj2 (C3_kill_once_retry_same_signal sample_capped))
    as (w' & Hkill & Hrunner & Hlog & _ & Hagain).
  - reflexivity.
  - reflexivity.
  - intros _. left. discriminate.
  - reflexivity.
  - exists w'. rewrite Hrunner, Hlog. split_and!; [exact Hkill|reflexivity..|exact Hagain].
Defined.

(** ** The output chain *)

Lemma to_size_t_small z : 0 ≤ z < 18446744073709551616 → to_size_t z = z.
Proof. intros Hz. unfold to_size_t, wrap_unsigned. by apply Z.mod_small. Qed.

Lemma to_unsigned_int_small z : 0 ≤ z < 4294967296 → to_unsigned_int z = z.
Proof. intros Hz. unfold to_unsigned_int, wrap_unsigned. by apply Z.mod_small. Qed.

Lemma available_spec b :
  0 ≤ OutputBuffer.used b ≤ OutputBuffer.kBufferSize →
  OutputBuffer.available b = OutputBuffer.kBufferSize - OutputBuffer.used b.
Proof.
  unfold OutputBuffer.available, OutputBuffer.kBufferSize. intros Hu.
  rewrite to_size_t_small by lia. apply to_unsigned_int_small. lia.
Qed.

Lemma length_chunk_bytes b :
  0 ≤ OutputBuffer.used b →
  (Z.to_nat (OutputBuffer.used b) ≤ length (OutputBuffer.data_ b))%nat →
  Z.of_nat (length (chunk_bytes b)) = OutputBuffer.used b.
Proof. intros H0 Hd. unfold chunk_bytes. rewrite length_take. lia. Qed.

Lemma sum_used_nonneg (h : list OutputBuffer.t) :
  (∀ k b, h !! k = Some b → 0 ≤ OutputBuffer.used b) →
  0 ≤ foldr (λ b s, OutputBuffer.used b + s) 0 h.
Proof.
  induction h as [|b h IH]; intros Hh; simpl; [lia|].
  pose proof (Hh 0%nat b eq_refl).
  assert (0 ≤ foldr (λ b s, OutputBuffer.used b + s) 0 h); [|lia].
  apply IH. intros k b' Hk. by apply (Hh (S k)).
Qed.

Lemma length_concat_chunks (h : list OutputBuffer.t) :
  (∀ k b, h !! k = Some b →
     0 ≤ OutputBuffer.used b
     ∧ (Z.to_nat (OutputBuffer.used b) ≤ length (OutputBuffer.data_ b))%nat) →
  Z.of_nat (length (concat (chunk_bytes <$> h)))
  = foldr (λ b s, OutputBuffer.used b + s) 0 h.
Proof.
  induction h as [|b h IH]; intros Hh; [done|].
  rewrite fmap_cons. cbn [concat foldr]. rewrite length_app, Nat2Z.inj_add.
  destruct (Hh 0%nat b eq_refl) as [H0 Hd].
  rewrite length_chunk_bytes by done. f_equal.
  apply IH. intros k b' Hk. by apply (Hh (S k)).
Qed.

Lemma sum_used_captured p :
  chain_ok p → sum_used p = Z.of_nat (length (captured p)).
Proof.
  intros (_ & _ & Hc). unfold sum_used, captured.
  symmetry. apply length_concat_chunks. intros k b Hk.
  destruct (Hc k b Hk) as (? & ? & _). split; [lia|done].
Qed.

(** The loop of [OutputLength] from buffer [k] on: it ends, with the sum
    of the [used()] of the buffers from [k]. *)
Lemma OutputLength_loop_spec (h : list OutputBuffer.t) :
  (∀ k b, h !! k = Some b →
     0 ≤ OutputBuffer.used b
     ∧ OutputBuffer.next b = (if decide (S k < length h)%nat then Some (S k) else None)) →
  ∀ n k fuel size,
    (k + n = length h)%nat → (n ≤ fuel)%nat → 0 ≤ size →
    size + foldr (λ b s, OutputBuffer.used b + s) 0 (drop k h) < 18446744073709551616 →
    StdioPipe.OutputLength_loop fuel h
      (if decide (k < length h)%nat then Some k else None) size
    = Some (size + foldr (λ b s, OutputBuffer.used b + s) 0 (drop k h)).
Proof.
  intros Hh. induction n as [|n IH]; intros k fuel size Hk Hfuel Hsize Hsum.
  - rewrite decide_False by lia. rewrite drop_ge by lia.
    destruct fuel; simpl; f_equal; lia.
  - rewrite decide_True by lia.
    destruct fuel as [|fuel]; [lia|].
    destruct (lookup_lt_is_Some_2 h k) as [b Hb]; [lia|].
    rewrite (drop_S _ _ _ Hb) in Hsum |- *. cbn [foldr] in Hsum |- *.
    destruct (Hh k b Hb) as [Hu Hnext].
    assert (0 ≤ foldr (λ b s, OutputBuffer.used b + s) 0 (drop (S k) h)) as Hrest.
    { apply sum_used_nonneg. intros j b' Hj. rewrite lookup_drop in Hj.
      by destruct (Hh _ _ Hj). }
    cbn [StdioPipe.OutputLength_loop]. rewrite Hb. cbn [mbind option_bind].
    rewrite Hnext. rewrite to_size_t_small by lia.
    rewrite (IH (S k) fuel) by lia. f_equal. lia.
Qed.

Lemma OutputLength_spec p :
  chain_ok p → sum_used p < 18446744073709551616 →
  StdioPipe.OutputLength p = Some (sum_used p).
Proof.
  intros (Hfirst & _ & Hc) Hsum. unfold StdioPipe.OutputLength. rewrite Hfirst.
  assert (Hh : ∀ k b, StdioPipe.heap p !! k = Some b →
     0 ≤ OutputBuffer.used b
     ∧ OutputBuffer.next b
       = (if decide (S k < length (StdioPipe.heap p))%nat then Some (S k) else None)).
  { intros k b Hk. destruct (Hc k b Hk) as (? & _ & ? & _). split; [lia|done]. }
  pose proof (OutputLength_loop_spec _ Hh (length (StdioPipe.heap p)) 0
                (length (StdioPipe.heap p)) 0) as Hloop.
  rewrite drop_0 in Hloop. unfold sum_used in *.
  destruct (StdioPipe.heap p) as [|b h] eqn:Heq.
  - done.
  - rewrite decide_True in Hloop by (simpl; lia).
    cbn [length] in Hloop |- *. rewrite Hloop; [done|lia|lia|lia|lia].
Qed.

(** The loop of [CopyOutput] from buffer [k] on, when the destination has
    room for exactly what is left: it ends, and has written the bytes of
    the buffers from [k] after the first [offset] bytes. *)
Lemma CopyOutput_loop_spec (h : list OutputBuffer.t) :
  (∀ k b, h !! k = Some b →
     0 ≤ OutputBuffer.used b
     ∧ (Z.to_nat (OutputBuffer.used b) ≤ length (OutputBuffer.data_ b))%nat
     ∧ OutputBuffer.next b = (if decide (S k < length h)%nat then Some (S k) else None)) →
  ∀ n k fuel dest offset,
    (k + n = length h)%nat → (n ≤ fuel)%nat → 0 ≤ offset →
    (Z.to_nat offset + length (concat (chunk_bytes <$> drop k h)) = length dest)%nat →
    Z.of_nat (length dest) < 18446744073709551616 →
    StdioPipe.CopyOutput_loop fuel h
      (if decide (k < length h)%nat then Some k else None) dest offset
    = Some (take (Z.to_nat offset) dest ++ concat (chunk_bytes <$> drop k h)).
Proof.
  intros Hh. induction n as [|n IH]; intros k fuel dest offset Hk Hfuel Hoff Hlen Hbound.
  - rewrite decide_False by lia. rewrite drop_ge in Hlen |- * by lia.
    simpl in Hlen |- *. rewrite app_nil_r, take_ge by lia.
    by destruct fuel.
  - rewrite decide_True by lia.
    destruct fuel as [|fuel]; [lia|].
    destruct (lookup_lt_is_Some_2 h k) as [b Hb]; [lia|].
    rewrite (drop_S _ _ _ Hb) in Hlen |- *.
    rewrite fmap_cons in Hlen |- *. cbn [concat] in Hlen |- *.
    rewrite length_app in Hlen.
    destruct (Hh k b Hb) as (Hu & Hd & Hnext).
    pose proof (length_chunk_bytes b Hu Hd) as Hcb.
    cbn [StdioPipe.CopyOutput_loop]. rewrite Hb. cbn [mbind option_bind].
    unfold OutputBuffer.Copy. rewrite bool_decide_true by done.
    fold (chunk_bytes b). unfold memcpy.
    rewrite bool_decide_true by (split; [done|lia]).
    cbn [mbind option_bind]. rewrite Hnext.
    rewrite to_size_t_small by lia.
    rewrite (IH (S k) fuel); [|lia|lia|lia| |].
    + f_equal. rewrite <- Hcb, Z2Nat.inj_add, Nat2Z.id by lia.
      rewrite take_app_add'; [|rewrite length_take; lia].
      rewrite take_app_length. by rewrite <- app_assoc.
    + rewrite !length_app, length_take, length_drop. lia.
    + rewrite !length_app, length_take, length_drop. lia.
Qed.

(** On a well-formed chain [GetOutputAsBuffer] returns, and returns the
    bytes of the buffers in order. *)
Lemma GetOutputAsBuffer_spec p :
  chain_ok p → Z.of_nat (length (captured p)) < 18446744073709551616 →
  StdioPipe.OutputLength p = Some (Z.of_nat (length (captured p)))
  ∧ StdioPipe.GetOutputAsBuffer p = Some (captured p).
Proof.
  intros Hok Hsize. pose proof (sum_used_captured p Hok) as Hsum.
  pose proof (OutputLength_spec p Hok) as Hlen. rewrite Hsum in Hlen.
  specialize (Hlen Hsize). split; [done|].
  unfold StdioPipe.GetOutputAsBuffer. rewrite Hlen. cbn [mbind option_bind].
  destruct Hok as (Hfirst & _ & Hc).
  unfold StdioPipe.CopyOutput. rewrite Hfirst, Nat2Z.id.
  assert (Hh : ∀ k b, StdioPipe.heap p !! k = Some b →
     0 ≤ OutputBuffer.used b
     ∧ (Z.to_nat (OutputBuffer.used b) ≤ length (OutputBuffer.data_ b))%nat
     ∧ OutputBuffer.next b
       = (if decide (S k < length (StdioPipe.heap p))%nat then Some (S k) else None)).
  { intros k b Hk. destruct (Hc k b Hk) as (? & ? & ? & _). repeat split; [lia|done|done]. }
  pose proof (CopyOutput_loop_spec _ Hh (length (StdioPipe.heap p)) 0
                (length (StdioPipe.heap p))
                (replicate (length (captured p)) "000"%byte) 0) as Hloop.
  rewrite drop_0 in Hloop. fold (captured p) in Hloop.
  rewrite length_replicate in Hloop.
  destruct (StdioPipe.heap p) as [|b h] eqn:Heq.
  - unfold captured. rewrite Heq. done.
  - rewrite decide_True in Hloop by (simpl; lia).
    cbn [length] in Hloop |- *. rewrite Hloop; [done|lia|lia|lia|simpl; lia|lia].
Qed.

(** [OnAlloc] on a well-formed chain: it returns the free part of the
    last buffer, which has room, and keeps the chain and its bytes. *)
Lemma OnAlloc_spec p suggested_size :
  chain_ok p →
  ∃ buf p' l b,
    StdioPipe.OnAlloc p suggested_size = Some (buf, p')
    ∧ chain_ok p' ∧ captured p' = captured p
    ∧ StdioPipe.lifecycle_ p' = StdioPipe.lifecycle_ p
    ∧ StdioPipe.self p' = StdioPipe.self p
    ∧ StdioPipe.last_output_buffer_ p' = Some l
    ∧ StdioPipe.heap p' !! l = Some b
    ∧ S l = length (StdioPipe.heap p')
    ∧ base buf = ChunkPtr l (OutputBuffer.used b)
    ∧ len buf = OutputBuffer.kBufferSize - OutputBuffer.used b
    ∧ OutputBuffer.used b < OutputBuffer.kBufferSize
    ∧ StdioPipe.writable_ p' = StdioPipe.writable_ p.
Proof.
  intros (Hfirst & Hlast & Hc). unfold StdioPipe.OnAlloc. rewrite Hlast.
  destruct (StdioPipe.heap p) as [|b0 h0] eqn:Heap using rev_ind.
  - (* no buffer yet *)
    cbn [length]. eexists _, _, 0%nat, OutputBuffer.new.
    split; [reflexivity|]. unfold chain_ok, captured. cbn. rewrite Heap.
    split_and!; try done.
    intros k b Hk. destruct k; [|done]. injection Hk as <-. cbn.
    split_and!; try done. lia.
  - clear IHh0. rewrite length_app in *. cbn [length] in *.
    rewrite Nat.add_1_r in *. cbn [mbind option_bind].
    assert (Hb0 : (h0 ++ [b0]) !! length h0 = Some b0).
    { by rewrite lookup_app_r, Nat.sub_diag. }
    rewrite Hb0. cbn [mbind option_bind].
    destruct (Hc _ _ Hb0) as (Hu & Hd & Hn & _).
    rewrite available_spec by done.
    destruct (OutputBuffer.kBufferSize - OutputBuffer.used b0 =? 0) eqn:Hfull.
    + (* the last buffer is full: a new one is linked after it *)
      apply Z.eqb_eq in Hfull.
      eexists _, _, (S (length h0)), OutputBuffer.new.
      split; [reflexivity|]. unfold chain_ok. cbn.
      rewrite insert_app_r_alt, Nat.sub_diag by lia. cbn [insert list_insert].
      rewrite !length_app. cbn [length]. rewrite !Nat.add_1_r.
      unfold captured. cbn. rewrite Heap, !fmap_app. cbn.
      split_and!; try done.
      * intros k b Hk.
        destruct (decide (k < length h0)%nat) as [Hlt|Hge];
          [|destruct (decide (k = length h0)) as [->|Hne]].
        -- rewrite <- app_assoc, lookup_app_l in Hk by done.
           destruct (Hc k b) as (? & ? & Hnext & Hfullk); [by rewrite lookup_app_l|].
           rewrite decide_True in Hnext by lia. rewrite decide_True by lia.
           split_and!; [lia|lia|done|done|intros _; apply Hfullk; lia].
        -- rewrite <- app_assoc, lookup_app_r, Nat.sub_diag in Hk by lia.
           injection Hk as <-. unfold OutputBuffer.used, OutputBuffer.next in *. cbn.
           rewrite decide_True by lia.
           split_and!; [lia|lia|done|done|intros _; lia].
        -- assert (k = S (length h0)) as ->.
           { apply lookup_lt_Some in Hk. rewrite !length_app in Hk. simpl in Hk. lia. }
           rewrite lookup_app_r in Hk by (rewrite length_app; simpl; lia).
           rewrite length_app in Hk. cbn [length] in Hk.
           rewrite Nat.add_1_r, Nat.sub_diag in Hk.
           injection Hk as <-. unfold OutputBuffer.used, OutputBuffer.next in *. cbn.
           rewrite decide_False by lia.
           split_and!; [done|done|lia|done|lia].
      * rewrite !concat_app. cbn. by rewrite !app_nil_r.
      * by rewrite lookup_app_r, length_app, Nat.add_1_r, Nat.sub_diag
          by (rewrite length_app; simpl; lia).
    + (* the last buffer has room *)
      apply Z.eqb_neq in Hfull.
      eexists _, _, (length h0), b0.
      split; [reflexivity|]. unfold chain_ok. cbn.
      unfold OutputBuffer.OnAlloc.
      destruct (OutputBuffer.used b0 =? OutputBuffer.kBufferSize) eqn:Hcmp;
        [apply Z.eqb_eq in Hcmp; lia|].
      rewrite available_spec by done. cbn.
      rewrite Heap, length_app. cbn [length]. rewrite Nat.add_1_r.
      split_and!; try done; try lia.
Qed.

Lemma chunk_bytes_commit b bytes :
  0 ≤ OutputBuffer.used_ b →
  (Z.to_nat (OutputBuffer.used_ b) ≤ length (OutputBuffer.data_ b))%nat →
  chunk_bytes
    (OutputBuffer.mk
       (take (Z.to_nat (OutputBuffer.used_ b)) (OutputBuffer.data_ b) ++ bytes
        ++ drop (Z.to_nat (OutputBuffer.used_ b) + length bytes) (OutputBuffer.data_ b))
       (OutputBuffer.used_ b + Z.of_nat (length bytes)) (OutputBuffer.next_ b))
  = chunk_bytes b ++ bytes.
Proof.
  intros Hu Hd. unfold chunk_bytes, OutputBuffer.used. cbn.
  rewrite Z2Nat.inj_add, Nat2Z.id by lia.
  rewrite take_app_add'; [|rewrite length_take; lia].
  by rewrite take_app_length'.
Qed.

(** One read of [bytes] into the region [OnAlloc] returned: libuv stores
    them, [OnRead] commits them.  The chain stays well-formed and holds
    the bytes it held, followed by [bytes]. *)
Lemma store_commit_spec p buf l b bytes :
  chain_ok p →
  StdioPipe.last_output_buffer_ p = Some l →
  StdioPipe.heap p !! l = Some b →
  S l = length (StdioPipe.heap p) →
  base buf = ChunkPtr l (OutputBuffer.used b) →
  OutputBuffer.used b + Z.of_nat (length bytes) ≤ OutputBuffer.kBufferSize →
  ∃ p1 p2,
    StdioPipe.store p buf bytes = Some p1
    ∧ StdioPipe.commit p1 buf (Z.of_nat (length bytes)) = Some p2
    ∧ chain_ok p2 ∧ captured p2 = captured p ++ bytes
    ∧ StdioPipe.lifecycle_ p2 = StdioPipe.lifecycle_ p
    ∧ StdioPipe.self p2 = StdioPipe.self p
    ∧ StdioPipe.writable_ p2 = StdioPipe.writable_ p.
Proof.
  intros (Hfirst & Hlast & Hc) Hl Hb Hlen Hbase Hroom.
  destruct (Hc l b Hb) as (Hu & Hd & Hnext & _).
  rewrite decide_False in Hnext by lia.
  assert (Hlt : (l < length (StdioPipe.heap p))%nat) by lia.
  unfold StdioPipe.store. rewrite Hbase, Hb. cbn [mbind option_bind].
  eexists _, _. split; [reflexivity|].
  unfold StdioPipe.commit. cbn [StdioPipe.last_output_buffer_ StdioPipe.set_chain
    StdioPipe.heap StdioPipe.first_output_buffer_].
  rewrite Hl. cbn [mbind option_bind].
  rewrite list_lookup_insert_eq by done. cbn [mbind option_bind].
  unfold OutputBuffer.OnRead. rewrite Hbase.
  unfold OutputBuffer.used, OutputBuffer.next, OutputBuffer.kBufferSize in *.
  cbn [OutputBuffer.store OutputBuffer.used_ OutputBuffer.data_ OutputBuffer.next_].
  rewrite bool_decide_true by done. cbn [mbind option_bind].
  rewrite list_insert_insert_eq.
  rewrite (to_unsigned_int_small (Z.of_nat _)) by lia.
  rewrite to_unsigned_int_small by lia.
  split; [reflexivity|]. unfold chain_ok, captured.
  cbn [StdioPipe.last_output_buffer_ StdioPipe.set_chain StdioPipe.heap
    StdioPipe.first_output_buffer_ StdioPipe.lifecycle_ StdioPipe.self
    StdioPipe.writable_].
  rewrite length_insert. split_and!; try done.
  - by rewrite <- Hlen.
  - intros k b' Hk.
    destruct (decide (k = l)) as [->|Hne].
    + rewrite list_lookup_insert_eq in Hk by done. injection Hk as <-.
      unfold OutputBuffer.used, OutputBuffer.next, OutputBuffer.kBufferSize. cbn.
      rewrite decide_False by lia.
      split_and!; [lia|lia| |done|intros; lia].
      rewrite !length_app, length_take. lia.
    + rewrite list_lookup_insert_ne in Hk by done.
      destruct (Hc k b' Hk) as (? & ? & ? & ?).
      unfold OutputBuffer.used, OutputBuffer.next, OutputBuffer.kBufferSize in *.
      split_and!; [lia|lia|done|done|done].
  - rewrite <- (take_drop_middle _ _ _ Hb) at 2.
    rewrite insert_take_drop by done.
    rewrite !fmap_app, !fmap_cons, !concat_app. cbn [concat].
    rewrite (drop_ge (StdioPipe.heap p) (S l)) by lia. cbn.
    rewrite chunk_bytes_commit, !app_nil_r by lia.
    by rewrite <- app_assoc.
Qed.

(** ** Running the monad *)

Lemma bind_ok {A B} (m : M A) (f : A → M B) w a w1 :
  m w = Ok a w1 → (m ≫= f) w = f a w1.
Proof. intros Hm. unfold mbind, M_bind. by rewrite Hm. Qed.

Lemma bind_ok2 {A B C} (m1 : M A) (m2 : A → M B) (k : B → M C) w b w2 :
  (m1 ≫= m2) w = Ok b w2 → (m1 ≫= λ a, m2 a ≫= k) w = k b w2.
Proof.
  unfold mbind, M_bind. destruct (m1 w) as [a w1|]; [|done].
  by intros ->.
Qed.

Lemma get_pipe_ok w i p : pipe_of w i = Some p → get_pipe i w = Ok p w.
Proof.
  unfold pipe_of, get_pipe. intros Hp. run_monad.
  by rewrite Hp.
Qed.

Lemma put_pipe_ok w i p : put_pipe i p w = Ok () (put_pipe_world i p w).
Proof. reflexivity. Qed.

Lemma pipe_of_put w i p p0 :
  pipe_of w i = Some p0 → pipe_of (put_pipe_world i p w) i = Some p.
Proof.
  unfold pipe_of, put_pipe_world. cbn.
  destruct (pipes_ (runner w)) as [ps|]; [|done]. cbn.
  destruct (ps !! i) as [h|] eqn:Hi; [|done]. intros _.
  rewrite list_lookup_insert_eq; [done|]. by eapply lookup_lt_Some.
Qed.

(** The kill, whenever its assertions hold: it returns, and touches
    neither the pipes nor what it asserts. *)
Lemma Kill_total w :
  timer_consistent (runner w) → kill_contract (uv_oracle w) →
  ∃ w', Kill w = Ok () w'
        ∧ pipes_ (runner w') = pipes_ (runner w)
        ∧ timer_consistent (runner w')
        ∧ uv_oracle w' = uv_oracle w.
Proof.
  intros Ht [Hretry Hstop].
  destruct (killed_ (runner w)) eqn:Hk.
  - exists w. by rewrite Kill_killed.
  - eexists. split; [apply Kill_first; [done|done|apply Hretry|done]|].
    cbn [runner uv_oracle]. unfold timer_consistent in *.
    destruct (kill_failed _); cbn [id].
    + destruct (SetError_frame
                  (uv_ret (uv_oracle w) (uv_process_kill (kill_signal_ (runner w)))
                     (length (uv_log w)))
                  (set_killed_ true (runner w))) as (-> & -> & _ & _ & _ & _ & ->).
      done.
    + done.
Qed.

Lemma IncrementBufferSizeAndCheckOverflow_total n w :
  timer_consistent (runner w) → kill_contract (uv_oracle w) →
  ∃ w', IncrementBufferSizeAndCheckOverflow n w = Ok () w'
        ∧ pipes_ (runner w') = pipes_ (runner w)
        ∧ timer_consistent (runner w')
        ∧ uv_oracle w' = uv_oracle w.
Proof.
  intros Ht Hc. unfold IncrementBufferSizeAndCheckOverflow. run_monad.
  match goal with |- context [if ?c then Kill else _] => destruct c end.
  - destruct (Kill_total
                (mkWorld (set_buffered_output_size_
                            (to_size_t (buffered_output_size_ (runner w) + n)) (runner w))
                         (uv_log w) (uv_oracle w))) as (w' & Hk & ? & ? & ?); [done..|].
    exists w'. by rewrite Hk.
  - eexists. split; [reflexivity|]. done.
Qed.

(** ** The read path, callback by callback *)

Lemma alloc_ready_read_inv i c buf w : alloc_ready i c buf w → read_inv i c w.
Proof.
  intros (p & l & b & ? & ? & ? & ? & ? & _ & _ & _ & _ & _ & _ & ? & ?). by exists p.
Qed.

Lemma OnAlloc_total i c suggested_size w :
  read_inv i c w →
  ∃ buf w', SyncProcessStdioPipe_OnAlloc i suggested_size w = Ok buf w'
            ∧ alloc_ready i c buf w'.
Proof.
  intros (p & Hp & Hok & Hcap & Hlife & Hw & Ht & Hk).
  destruct (OnAlloc_spec p suggested_size Hok)
    as (buf & p' & l & b & Halloc & Hok' & Hcap' & Hlife' & _ & Hl & Hb & Hlen & Hbase
        & Hblen & Hroom & Hw').
  exists buf, (put_pipe_world i p' w). split.
  - unfold SyncProcessStdioPipe_OnAlloc.
    rewrite (bind_ok _ _ _ _ _ (get_pipe_ok _ _ _ Hp)).
    rewrite Halloc. by run_monad.
  - exists p', l, b. split_and!; try done.
    + by eapply pipe_of_put.
    + congruence.
    + congruence.
    + congruence.
    + destruct Hok' as (_ & _ & Hc). by destruct (Hc l b Hb) as ([? _] & _).
Qed.

Lemma SetPipeError_frame e x :
  pipes_ (SetPipeError e x) = pipes_ x
  ∧ kill_timer_initialized_ (SetPipeError e x) = kill_timer_initialized_ x
  ∧ timeout_ (SetPipeError e x) = timeout_ x.
Proof. unfold SetPipeError. by destruct (pipe_error_ x =? 0). Qed.

(** A read of the bytes libuv just stored into [buf]. *)
Lemma read_round_total i c buf bytes w :
  alloc_ready i c buf w →
  Z.of_nat (length bytes) ≤ len buf →
  ∃ w', (uv_store i buf bytes;;
         SyncProcessStdioPipe_OnRead i buf (Z.of_nat (length bytes))) w = Ok () w'
        ∧ read_inv i (c ++ bytes) w'.
Proof.
  intros (p & l & b & Hp & Hok & Hcap & Hlife & Hw & Hl & Hb & Hlen & Hbase & Hblen
          & Hroom & Ht & Hk) Hfit.
  destruct (store_commit_spec p buf l b bytes Hok Hl Hb Hlen Hbase)
    as (p1 & p2 & Hstore & Hcommit & Hok2 & Hcap2 & Hlife2 & _ & Hw2); [lia|].
  set (w1 := put_pipe_world i p1 w).
  set (w2 := put_pipe_world i p2 w1).
  assert (Hp1 : pipe_of w1 i = Some p1) by by eapply pipe_of_put.
  assert (Hp2 : pipe_of w2 i = Some p2) by by eapply pipe_of_put.
  destruct (IncrementBufferSizeAndCheckOverflow_total (Z.of_nat (length bytes)) w2)
    as (w3 & Hinc & Hpipes & Ht3 & Ho3); [done..|].
  exists w3. split.
  - unfold uv_store.
    erewrite bind_ok; cycle 1.
    { rewrite (bind_ok _ _ _ _ _ (get_pipe_ok _ _ _ Hp)).
      rewrite Hstore. run_monad. apply put_pipe_ok. }
    fold w1. unfold SyncProcessStdioPipe_OnRead.
    replace (Z.of_nat (length bytes) =? UV_EOF) with false
      by (symmetry; apply Z.eqb_neq; unfold UV_EOF; lia).
    replace (Z.of_nat (length bytes) <? 0) with false
      by (symmetry; apply Z.ltb_ge; lia).
    rewrite (bind_ok _ _ _ _ _ (get_pipe_ok _ _ _ Hp1)).
    rewrite Hcommit. run_monad. exact Hinc.
  - exists p2. split_and!; try done.
    + unfold pipe_of in *. by rewrite Hpipes.
    + congruence.
    + congruence.
    + congruence.
    + by rewrite Ho3.
Qed.

(** A read that ends the stream or fails: nothing is committed. *)
Lemma read_end_total i c buf nread w :
  read_inv i c w → - 2 ^ 31 ≤ nread < 0 →
  ∃ w', SyncProcessStdioPipe_OnRead i buf nread w = Ok () w' ∧ read_inv i c w'.
Proof.
  intros Hinv Hn. unfold SyncProcessStdioPipe_OnRead.
  destruct (nread =? UV_EOF); [by exists w|].
  replace (nread <? 0) with true by (symmetry; apply Z.ltb_lt; lia).
  destruct Hinv as (p & Hp & Hok & Hcap & Hlife & Hw & Ht & Hk).
  assert (Hint : to_int nread = nread).
  { unfold to_int, wrap_signed. change (2 ^ (32 - 1)) with 2147483648 in *.
    change (2 ^ 31) with 2147483648 in *.
    change (2 ^ 32) with 4294967296. rewrite Z.mod_small; lia. }
  unfold SyncProcessStdioPipe_SetError. rewrite Hint.
  replace (nread =? 0) with false by (symmetry; apply Z.eqb_neq; lia).
  run_monad. cbn [negb].
  destruct (SetPipeError_frame nread (runner w)) as (Hps & Hi & Hto).
  set (w1 := mkWorld (SetPipeError nread (runner w)) (uv_log w) (uv_oracle w)).
  assert (Hp1 : pipe_of w1 i = Some p).
  { unfold pipe_of, w1 in *. cbn [runner]. by rewrite Hps. }
  rewrite (get_pipe_ok _ _ _ Hp1).
  unfold StdioPipe.uv_pipe. rewrite Hlife. cbn.
  eexists. split; [reflexivity|].
  exists p. split_and!; try done.
  unfold timer_consistent in *. cbn [runner]. by rewrite Hi, Hto.
Qed.

Lemma uv__read_unfold fuel i pending :
  uv__read fuel i pending =
  (buf ← SyncProcessStdioPipe_OnAlloc i 65536;
   if len buf <=? 0 then SyncProcessStdioPipe_OnRead i buf UV_ENOBUFS
   else
     let n := Z.to_nat (Z.min (len buf) (Z.of_nat (length pending))) in
     uv_store i buf (take n pending);;
     SyncProcessStdioPipe_OnRead i buf (Z.of_nat n);;
     match drop n pending, fuel with
     | _ :: _, S fuel' => uv__read fuel' i (drop n pending)
     | _, _ => mret ()
     end).
Proof. by destruct fuel. Qed.

(** The arrival of [pending] bytes: every byte is delivered, whatever the
    room in the buffers is. *)
Lemma uv__read_total i fuel :
  ∀ pending c w,
    (length pending ≤ fuel)%nat → read_inv i c w →
    ∃ w', uv__read fuel i pending w = Ok () w' ∧ read_inv i (c ++ pending) w'.
Proof.
  induction fuel as [|fuel IH]; intros pending c w Hfuel Hinv.
  all: rewrite uv__read_unfold.
  all: destruct (OnAlloc_total i c 65536 w Hinv) as (buf & w1 & Halloc & Hready).
  all: rewrite (bind_ok _ _ _ _ _ Halloc).
  all: pose proof Hready
         as (_ & _ & b & _ & _ & _ & _ & _ & _ & _ & _ & _ & Hblen & Hroom & _).
  all: unfold OutputBuffer.kBufferSize in *.
  all: replace (len buf <=? 0) with false by (symmetry; apply Z.leb_gt; lia).
  all: cbn zeta.
  all: set (n := Z.to_nat (Z.min (len buf) (Z.of_nat (length pending)))).
  all: assert (Hn : (n ≤ length pending)%nat) by lia.
  all: assert (Htake : length (take n pending) = n) by (rewrite length_take; lia).
  all: destruct (read_round_total i c buf (take n pending) w1 Hready)
         as (w2 & Hround & Hinv2); [rewrite Htake; lia|].
  all: rewrite Htake in Hround.
  all: rewrite (bind_ok2 _ _ _ _ _ _ Hround).
  - destruct pending; [|simpl in Hfuel; lia].
    exists w2. rewrite drop_nil. split; [done|].
    subst n. simpl in Hinv2. by rewrite take_nil in Hinv2.
  - pose proof (take_drop n pending) as Htd.
    destruct (drop n pending) as [|x rest] eqn:Hdrop.
    + exists w2. split; [done|].
      rewrite app_nil_r in Htd. by rewrite Htd in Hinv2.
    + assert (1 ≤ n)%nat as Hpos.
      { destruct pending; [by rewrite drop_nil in Hdrop|]. simpl in n. lia. }
      destruct (IH (x :: rest) (c ++ take n pending) w2) as (w3 & Hrec & Hinv3);
        [|done|].
      { rewrite <- Hdrop, length_drop. lia. }
      exists w3. split; [done|].
      by rewrite <- app_assoc, Htd in Hinv3.
Qed.

(** A script of the read path of pipe [i]: all of it is delivered. *)
Lemma dispatch_all_reads_total i :
  ∀ es c w,
    Forall (read_event_of i) es → read_inv i c w →
    ∃ w', dispatch_all es w = Ok () w' ∧ read_inv i (c ++ delivered es) w'.
Proof.
  induction es as [|e es IH]; intros c w Hes Hinv.
  - exists w. split; [done|]. by rewrite app_nil_r.
  - apply Forall_cons in Hes as [He Hes].
    assert (∃ w1, dispatch e w = Ok () w1
                  ∧ read_inv i (c ++ match e with EvData _ bytes => bytes | _ => [] end) w1)
      as (w1 & Hd & Hinv1).
    { destruct e; try done; cbn in He.
      - subst pipe. by apply uv__read_total.
      - destruct He as [-> Hn]. rewrite app_nil_r. cbn [dispatch].
        destruct (OnAlloc_total i c 65536 w Hinv) as (buf & w1 & Halloc & Hready).
        rewrite (bind_ok _ _ _ _ _ Halloc).
        apply read_end_total; [|done]. by eapply alloc_ready_read_inv. }
    destruct (IH _ w1 Hes Hinv1) as (w2 & Hrest & Hinv2).
    exists w2. split.
    + cbn [dispatch_all]. by rewrite (bind_ok _ _ _ _ _ Hd).
    + unfold delivered. rewrite fmap_cons. cbn [concat].
      by rewrite app_assoc.
Qed.

(** C7. Take a writable pipe that was started and has captured nothing,
    and any script of read callbacks on it: arrivals of bytes, cut in any
    way, and reads that end with a negative code.  When the assertions of
    the kill hold, all callbacks return; then [OutputLength] is the sum of
    [used()] over the chain, which is the number of bytes that arrived,
    and [GetOutputAsBuffer] returns the arrived bytes, in order.  Two
    scripts that deliver the same bytes give the same buffer. *)
Theorem C7_output_is_concatenation (w : World) (i : nat) (p : StdioPipe.t)
    (es : list UvEvent) :
  pipe_of w i = Some p →
  StdioPipe.writable p = true →
  StdioPipe.lifecycle_ p = StdioPipe.kStarted →
  StdioPipe.heap p = [] →
  StdioPipe.first_output_buffer_ p = None →
  StdioPipe.last_output_buffer_ p = None →
  Forall (read_event_of i) es →
  timer_consistent (runner w) →
  kill_contract (uv_oracle w) →
  Z.of_nat (length (delivered es)) < 2 ^ 64 →
  ∃ w' p',
    dispatch_all es w = Ok () w'
    ∧ pipe_of w' i = Some p'
    ∧ StdioPipe.writable p' = true
    ∧ StdioPipe.OutputLength p' = Some (sum_used p')
    ∧ sum_used p' = Z.of_nat (length (delivered es))
    ∧ StdioPipe.GetOutputAsBuffer p' = Some (delivered es).
Proof.
  intros Hp Hw Hlife Heap Hfirst Hlast Hes Ht Hk Hsize.
  change (2 ^ 64) with 18446744073709551616 in Hsize.
  assert (Hinv : read_inv i [] w).
  { exists p. split_and!; try done.
    - unfold chain_ok. rewrite Heap, Hfirst, Hlast. split_and!; try done.
    - unfold captured. by rewrite Heap. }
  destruct (dispatch_all_reads_total i es [] w Hes Hinv)
    as (w' & Hrun & p' & Hp' & Hok & Hcap & _ & Hw' & _).
  rewrite app_nil_l in Hcap.
  destruct (GetOutputAsBuffer_spec p' Hok) as [Hlen Hout]; [by rewrite Hcap|].
  pose proof (sum_used_captured p' Hok) as Hsum.
  exists w', p'. rewrite Hcap in *. split_and!; try done.
  by rewrite Hsum.
Qed.

Lemma C7_output_is_concatenation_witness :
  ∃ w' p',
    dispatch_all sample_reads sample_running = Ok () w'
    ∧ pipe_of w' 1 = Some p'
    ∧ StdioPipe.writable p' = true
    ∧ StdioPipe.OutputLength p' = Some (sum_used p')
    ∧ sum_used p' = 5
    ∧ StdioPipe.GetOutputAsBuffer p' = Some ["h"; "e"; "l"; "l"; "o"]%byte.
Proof.
  apply (C7_output_is_concatenation sample_running 1 sample_stdout_pipe sample_reads);
    try reflexivity.
  - repeat constructor; unfold UV_EOF; lia.
  - split; [intros sig n Hf; discriminate Hf | reflexivity].
Defined.

(** ** Frame rules *)

Section frame.
Context {T : Type} (f : SyncProcessRunner → T).

Lemma preserves_ret {A} (a : A) : preserves f (mret a).
Proof. intros w a' w' H. by injection H as _ <-. Qed.

Lemma preserves_bind {A B} (m : M A) (k : A → M B) :
  preserves f m → (∀ a, preserves f (k a)) → preserves f (m ≫= k).
Proof.
  intros Hm Hk w b w' H. unfold mbind, M_bind in H.
  destruct (m w) as [a w1|] eqn:Hmw; [|done].
  rewrite (Hk a _ _ _ H). by eapply Hm.
Qed.

Lemma preserves_modify g : (∀ r, f (g r) = f r) → preserves f (modify_runner g).
Proof. intros Hg w a w' H. injection H as _ <-. apply Hg. Qed.

Lemma preserves_get_runner : preserves f get_runner.
Proof. intros w a w' H. by injection H as _ <-. Qed.

Lemma preserves_uv c : preserves f (uv c).
Proof. intros w a w' H. by injection H as _ <-. Qed.

Lemma preserves_uv_scripted_events : preserves f uv_scripted_events.
Proof. intros w a w' H. by injection H as _ <-. Qed.

Lemma preserves_abort {A} : preserves f (abort : M A).
Proof. intros w a w' H. discriminate H. Qed.

Lemma preserves_assert b : preserves f (assert b).
Proof. destruct b; [apply preserves_ret|apply preserves_abort]. Qed.

Lemma preserves_from_option {A} (o : option A) : preserves f (from_option o).
Proof. destruct o; [apply preserves_ret|apply preserves_abort]. Qed.

Lemma preserves_for_loop body count :
  (∀ i, preserves f (body i)) → ∀ i, preserves f (for_loop count i body).
Proof.
  intros Hbody. induction count as [|count IH]; intros i; cbn [for_loop].
  - apply preserves_ret.
  - apply preserves_bind; [apply Hbody|].
    intros [r|]; [apply preserves_ret|apply IH].
Qed.

End frame.

Create HintDb frames.

(** One step of a frame proof, by the shape of the computation. *)
Ltac frame_step :=
  lazymatch goal with
  | |- preserves _ (mret _) => apply preserves_ret
  | |- preserves _ (mbind _ _) => apply preserves_bind; [|intros ?]
  | |- preserves _ (modify_runner _) =>
      apply preserves_modify; intros ?;
      unfold SetError, SetPipeError; repeat case_match;
      first [reflexivity | solve [eauto]]
  | |- preserves _ get_runner => apply preserves_get_runner
  | |- preserves _ (uv _) => apply preserves_uv
  | |- preserves _ uv_scripted_events => apply preserves_uv_scripted_events
  | |- preserves _ abort => apply preserves_abort
  | |- preserves _ (assert _) => apply preserves_assert
  | |- preserves _ (from_option _) => apply preserves_from_option
  | |- preserves _ (for_loop _ _ _) => apply preserves_for_loop; intros ?
  | |- preserves _ (if ?c then _ else _) => destruct c
  | |- preserves _ (match ?x with _ => _ end) => destruct x
  | |- preserves _ (let _ := _ in _) => cbv zeta
  | |- preserves _ _ => solve [auto with frames]
  end.

Ltac frame := repeat frame_step.

(** What the kill and the output accounting leave alone. *)
Lemma StopKillTimer_preserves {T} (f : SyncProcessRunner → T) : preserves f StopKillTimer.
Proof. unfold StopKillTimer. frame. Qed.

#[local] Hint Resolve StopKillTimer_preserves : frames.

Lemma Kill_preserves {T} (f : SyncProcessRunner → T) :
  (∀ v r, f (set_killed_ v r) = f r) →
  (∀ v r, f (set_error_ v r) = f r) →
  preserves f Kill.
Proof. intros Hk He. unfold Kill. frame. Qed.

#[local] Hint Resolve Kill_preserves : frames.

Lemma bind_inv {A B} (m : M A) (k : A → M B) w b w' :
  (m ≫= k) w = Ok b w' → ∃ a w1, m w = Ok a w1 ∧ k a w1 = Ok b w'.
Proof.
  unfold mbind, M_bind. destruct (m w) as [a w1|]; [|done]. eauto.
Qed.

Lemma get_pipe_preserves {T} (f : SyncProcessRunner → T) i : preserves f (get_pipe i).
Proof. unfold get_pipe. frame. Qed.

Lemma put_pipe_preserves {T} (f : SyncProcessRunner → T) i p :
  (∀ v r, f (set_pipes_ v r) = f r) → preserves f (put_pipe i p).
Proof. intros Hf. unfold put_pipe. frame. Qed.

#[local] Hint Resolve get_pipe_preserves put_pipe_preserves : frames.

(** ** Output accounting *)

Lemma IncrementBufferSizeAndCheckOverflow_adds n w w' :
  IncrementBufferSizeAndCheckOverflow n w = Ok () w' →
  buffered_output_size_ (runner w')
  = to_size_t (buffered_output_size_ (runner w) + n).
Proof.
  unfold IncrementBufferSizeAndCheckOverflow. run_monad.
  match goal with |- context [if ?c then Kill else _] => destruct c end.
  - intros Hk. by rewrite (Kill_preserves buffered_output_size_ ltac:(done) ltac:(done) _ _ _ Hk).
  - by intros [= <-].
Qed.

Lemma OnRead_adds i buf nread w w' :
  0 ≤ nread →
  SyncProcessStdioPipe_OnRead i buf nread w = Ok () w' →
  buffered_output_size_ (runner w')
  = to_size_t (buffered_output_size_ (runner w) + nread).
Proof.
  intros Hn. unfold SyncProcessStdioPipe_OnRead.
  replace (nread =? UV_EOF) with false
    by (symmetry; apply Z.eqb_neq; unfold UV_EOF; lia).
  replace (nread <? 0) with false by (symmetry; apply Z.ltb_ge; lia).
  intros H.
  apply bind_inv in H as (p & w1 & Hget & H).
  apply bind_inv in H as (p' & w2 & Hcommit & H).
  apply bind_inv in H as ([] & w3 & Hput & H).
  rewrite (IncrementBufferSizeAndCheckOverflow_adds _ _ _ H).
  rewrite (put_pipe_preserves buffered_output_size_ _ _ ltac:(done) _ _ _ Hput).
  rewrite (preserves_from_option buffered_output_size_ _ _ _ _ Hcommit).
  by rewrite (get_pipe_preserves buffered_output_size_ _ _ _ _ Hget).
Qed.

Lemma error_SetError_frame e x y :
  error_ y = error_ x → error_ (SetError e y) = error_ (SetError e x).
Proof. intros H. rewrite !error_SetError. by rewrite H. Qed.

(** C4, as amended.  A read that commits [nread] bytes adds [nread] to
    [buffered_output_size_].  The accounting calls [Kill] exactly when
    [max_buffer_ > 0] and the new size exceeds it: before any kill, the
    runner is [killed_] afterwards, and libuv was asked to deliver the
    signal, exactly in that case; with [max_buffer_ = 0] never.  The
    accounting itself reports no error: [error_] changes only when the
    delivery of the signal fails with an error other than [UV_ESRCH], and
    then by [SetError] of that error.  Once [killed_] is set the
    accounting only counts. *)
Theorem C4_overflow_kill (w : World) (nread : Z) :
  let this := runner w in
  let size := buffered_output_size_ this + nread in
  let over := (0 <? max_buffer_ this) && (max_buffer_ this <? size) in
  let r := uv_ret (uv_oracle w) (uv_process_kill (kill_signal_ this))
             (length (uv_log w)) in
  (∀ i buf w', 0 ≤ nread →
     SyncProcessStdioPipe_OnRead i buf nread w = Ok () w' →
     buffered_output_size_ (runner w') = to_size_t size)
  ∧ (0 ≤ buffered_output_size_ this → 0 ≤ nread → size < 2 ^ 64 →
     killed_ this = false → timer_consistent this → kill_contract (uv_oracle w) →
     ∃ w', IncrementBufferSizeAndCheckOverflow nread w = Ok () w'
           ∧ buffered_output_size_ (runner w') = size
           ∧ killed_ (runner w') = over
           ∧ uv_log w' = uv_log w ++ (if over then kill_calls this (kill_failed r) else [])
           ∧ (max_buffer_ this = 0 → killed_ (runner w') = false ∧ uv_log w' = uv_log w)
           ∧ error_ (runner w')
             = (if over && kill_failed r then error_ (SetError r this) else error_ this))
  ∧ (killed_ this = true →
     IncrementBufferSizeAndCheckOverflow nread w
     = Ok () (mkWorld (set_buffered_output_size_ (to_size_t size) this)
                (uv_log w) (uv_oracle w))).
Proof.
  intros this size over r. split; [intros i buf w' Hn; by apply OnRead_adds|].
  split; cycle 1.
  { intros Hk. unfold IncrementBufferSizeAndCheckOverflow. run_monad.
    match goal with |- context [if ?c then Kill else _] => destruct c end; [|done].
    by apply Kill_killed. }
  intros Hb Hn Hsize Hk Ht [Hretry Hstop].
  change (2 ^ 64) with 18446744073709551616 in Hsize.
  unfold IncrementBufferSizeAndCheckOverflow. run_monad.
  fold this. fold size. rewrite to_size_t_small by (unfold size; lia).
  cbn [max_buffer_ buffered_output_size_ set_buffered_output_size_].
  fold over.
  destruct over eqn:Hover.
  - set (w1 := mkWorld (set_buffered_output_size_ size this) (uv_log w) (uv_oracle w)).
    pose proof (Kill_first w1 Hk Ht) as Hkill.
    cbn [runner uv_log uv_oracle w1 kill_signal_ set_buffered_output_size_] in Hkill.
    fold this in Hkill. fold r in Hkill.
    specialize (Hkill (Hretry _ _) Hstop).
    eexists. split; [exact Hkill|]. cbn [runner uv_log uv_oracle].
    assert (max_buffer_ this ≠ 0) as Hmax.
    { apply andb_prop in Hover as [H%Z.ltb_lt _]. lia. }
    destruct (kill_failed r) eqn:Hf; cbn [id andb].
    + destruct (SetError_frame r (set_killed_ true (set_buffered_output_size_ size this)))
        as (_ & _ & -> & _ & _ & -> & _).
      split_and!; try done.
      by apply error_SetError_frame.
    + split_and!; try done.
  - eexists. split; [reflexivity|]. cbn [runner uv_log uv_oracle].
    rewrite app_nil_r. split_and!; try done.
Qed.

Lemma C4_overflow_kill_witness :
  ∃ w', IncrementBufferSizeAndCheckOverflow 2 sample_capped = Ok () w'
        ∧ buffered_output_size_ (runner w') = 2
        ∧ killed_ (runner w') = true
        ∧ uv_log w' = [uv_process_kill SIGTERM; uv_process_kill SIGTERM]
        ∧ (1 = 0 → killed_ (runner w') = false ∧ uv_log w' = [])
        ∧ error_ (runner w') = UV_EINVAL.
Proof.
  apply (proj1 (proj2 (C4_overflow_kill sample_capped 2))); try reflexivity; try done.
  split; [|reflexivity].
  intros sig [|n] Hf; [left; done|discriminate Hf].
Defined.

(** C4, as stated, fails: with [maxBuffer = 1] and a kill signal whose
    first delivery fails with [UV_EINVAL], the read that takes the output
    over the cap ends with the primary error set, although none was set
    before and nothing but the overflow asked for the kill. *)
Lemma C4_counterexample :
  ∃ w', IncrementBufferSizeAndCheckOverflow 2 sample_capped = Ok () w'
        ∧ error_ (runner sample_capped) = 0
        ∧ killed_ (runner sample_capped) = false
        ∧ killed_ (runner w') = true
        ∧ error_ (runner w') = UV_EINVAL
        ∧ error_ (runner w') ≠ 0.
Proof.
  exists (match IncrementBufferSizeAndCheckOverflow 2 sample_capped with
          | Ok _ w' => w'
          | Abort => sample_capped
          end).
  vm_compute. split_and!; try reflexivity. discriminate.
Qed.

(** ** The two error slots *)




(** ** The result object *)

Lemma int64_to_double_exact z : 0 ≤ z ≤ 2 ^ 53 → int64_to_double z = z.
Proof.
  intros Hz. unfold int64_to_double.
  replace (z <? 0) with false by (symmetry; apply Z.ltb_ge; lia).
  destruct (decide (z = 2 ^ 53)) as [->|Hne]; [reflexivity|].
  unfold round_to_53_bits.
  replace (Z.log2 z <? 53) with true; [done|].
  symmetry. apply Z.ltb_lt.
  destruct (decide (z = 0)) as [->|Hpos]; [done|].
  apply Z.log2_lt_pow2; lia.
Qed.

Lemma BuildOutputArray_loop_spec (ps : list (option StdioPipe.t)) :
  (∀ i h, ps !! i = Some (Some h) → StdioPipe.writable h = true →
          chain_ok h ∧ Z.of_nat (length (captured h)) < 2 ^ 64) →
  ∀ count i,
    (i + count = length ps)%nat →
    BuildOutputArray_loop count i ps = Some (expected_output_entry <$> drop i ps).
Proof.
  intros Hps. induction count as [|count IH]; intros i Hi.
  - rewrite drop_ge by lia. done.
  - destruct (lookup_lt_is_Some_2 ps i) as [slot Hslot]; [lia|].
    cbn [BuildOutputArray_loop]. rewrite Hslot. cbn [mbind option_bind].
    rewrite (drop_S _ _ _ Hslot), fmap_cons.
    rewrite (IH (S i)) by lia.
    assert (match slot with
            | Some h =>
                if StdioPipe.writable h
                then JsBuffer <$> StdioPipe.GetOutputAsBuffer h
                else Some JsNull
            | None => Some JsNull
            end = Some (expected_output_entry slot)) as ->; [|done].
    destruct slot as [h|]; [|done]. cbn [expected_output_entry].
    destruct (StdioPipe.writable h) eqn:Hw; [|done].
    destruct (Hps i h Hslot Hw) as [Hok Hsize].
    by destruct (GetOutputAsBuffer_spec h Hok Hsize) as [_ ->].
Qed.

(** C6. The result object.  When [exit_status_ < 0], [status] and
    [output] are null.  When [exit_status_ ≥ 0], [status] is
    [exit_status_] and [output] is an array with one entry for each of the
    [stdio_count_] slots: the captured bytes where the slot holds a
    writable pipe, null elsewhere.  In both cases [signal] is the name of
    [term_signal_] when that is positive and null otherwise.  So [output]
    as a whole is null exactly when [exit_status_ < 0].  The premises of
    the second case are what the run establishes: the array of pipes
    exists, has [stdio_count_] entries, and the chains are well-formed;
    the status is converted to a double, exactly up to 2^53. *)
Theorem C6_result_object `{Host} (this : SyncProcessRunner) :
  let signal :=
    if 0 <? term_signal_ this
    then JsString (signo_string (term_signal_ this)) else JsNull in
  (exit_status_ this < 0 →
   ∃ result,
     BuildResultObject this = Some result
     ∧ Get result status_sym = JsNull
     ∧ Get result signal_sym = signal
     ∧ Get result output_sym = JsNull)
  ∧ (∀ ps,
       0 ≤ exit_status_ this ≤ 2 ^ 53 →
       lifecycle_ this ≠ kUninitialized →
       pipes_ this = Some ps →
       length ps = Z.to_nat (stdio_count_ this) →
       (∀ i h, ps !! i = Some (Some h) → StdioPipe.writable h = true →
               chain_ok h ∧ Z.of_nat (length (captured h)) < 2 ^ 64) →
       ∃ result out,
         BuildResultObject this = Some result
         ∧ Get result status_sym = JsNumber (exit_status_ this)
         ∧ Get result signal_sym = signal
         ∧ Get result output_sym = JsArray out
         ∧ length out = Z.to_nat (stdio_count_ this)
         ∧ out = expected_output_entry <$> ps)
  ∧ (∀ result,
       BuildResultObject this = Some result →
       Get result output_sym = JsNull ↔ exit_status_ this < 0).
Proof.
  intros signal. split_and!.
  - intros Hneg. unfold BuildResultObject.
    replace (0 <=? exit_status_ this) with false by (symmetry; apply Z.leb_gt; lia).
    eexists. split; [reflexivity|]. subst signal.
    destruct (GetError this =? 0), (0 <? term_signal_ this); by split_and!.
  - intros ps Hstatus Hlife Hps Hlen Hchains.
    unfold BuildResultObject.
    replace (0 <=? exit_status_ this) with true by (symmetry; apply Z.leb_le; lia).
    unfold BuildOutputArray. rewrite Hps.
    replace (Lifecycle_rank kInitialized <=? Lifecycle_rank (lifecycle_ this)) with true
      by (by destruct (lifecycle_ this)).
    cbn [negb]. rewrite (BuildOutputArray_loop_spec ps Hchains) by lia.
    rewrite drop_0. cbn [fmap option_fmap option_map mbind option_bind].
    rewrite int64_to_double_exact by done.
    eexists _, _. split; [reflexivity|]. subst signal.
    destruct (GetError this =? 0), (0 <? term_signal_ this); split_and!; try done.
    all: by rewrite length_fmap.
  - intros result. unfold BuildResultObject.
    destruct (0 <=? exit_status_ this) eqn:Hexit.
    + apply Z.leb_le in Hexit.
      destruct (BuildOutputArray this) as [js_output|] eqn:Hout; [|done].
      assert (∃ out, js_output = JsArray out) as [out ->].
      { unfold BuildOutputArray in Hout.
        destruct (negb _); [done|]. destruct (pipes_ this); [|done].
        destruct (BuildOutputArray_loop _ _ _); [|done]. injection Hout as <-. eauto. }
      cbn [mbind option_bind]. intros [= <-].
      destruct (GetError this =? 0), (0 <? term_signal_ this); cbn; split; (done || lia).
    + apply Z.leb_gt in Hexit. intros [= <-].
      destruct (GetError this =? 0), (0 <? term_signal_ this); cbn; split; (done || lia).
Qed.

Lemma C6_result_object_witness :
  ∃ result out,
    @BuildResultObject sample_host sample_exited_hello = Some result
    ∧ Get result status_sym = JsNumber 0
    ∧ Get result signal_sym = JsNull
    ∧ Get result output_sym = JsArray out
    ∧ length out = 3%nat
    ∧ out = [JsNull; JsBuffer ["h"; "e"; "l"; "l"; "o"]%byte; JsNull].
Proof.
  apply (proj1 (proj2 (@C6_result_object sample_host sample_exited_hello))
           [None; Some sample_hello_pipe; None]).
  - done.
  - done.
  - reflexivity.
  - reflexivity.
  - intros [|[|[|i]]] h [= <-]; intros _. split; [|done].
    unfold chain_ok. cbn. split_and!; try done.
    intros [|k] b [= <-]. cbn. split_and!; try done; lia.
Defined.

(** ** Starting a pipe *)

(** C8, as amended.  [Start] on an initialized pipe marks it started,
    whatever happens next.  It asks libuv, in this order: to write the
    whole input, when the pipe is readable and the input is not empty; to
    shut the stream down, when the pipe is readable, unless the write was
    refused; to start reading, when the pipe is writable, unless the write
    or the shutdown was refused.  It returns the code of the first call
    that was refused, or 0. *)
Theorem C8_start (w : World) (i : nat) (p : StdioPipe.t) :
  let now := length (uv_log w) in
  let input := StdioPipe.input_buffer_ p in
  let has_input := StdioPipe.readable p && (0 <? len input) in
  let r_write := uv_ret (uv_oracle w) (uv_write (StdioPipe.self p) (input_bytes input)) now in
  let write_refused := has_input && (r_write <? 0) in
  let after_write := if has_input then S now else now in
  let r_shutdown := uv_ret (uv_oracle w) (uv_shutdown (StdioPipe.self p)) after_write in
  let shutdown_refused := StdioPipe.readable p && negb write_refused && (r_shutdown <? 0) in
  let after_shutdown := if StdioPipe.readable p then S after_write else after_write in
  let r_read := uv_ret (uv_oracle w) (uv_read_start (StdioPipe.self p)) after_shutdown in
  pipe_of w i = Some p →
  StdioPipe.lifecycle_ p = StdioPipe.kInitialized →
  (has_input = true → base input ≠ NullPtr) →
  ∃ r w',
    SyncProcessStdioPipe_Start i w = Ok r w'
    ∧ pipe_of w' i = Some (StdioPipe.set_lifecycle_ StdioPipe.kStarted p)
    ∧ uv_log w' = uv_log w
        ++ (if has_input
            then [uv_write (StdioPipe.self p) (input_bytes input)] else [])
        ++ (if StdioPipe.readable p && negb write_refused
            then [uv_shutdown (StdioPipe.self p)] else [])
        ++ (if StdioPipe.writable p && negb write_refused && negb shutdown_refused
            then [uv_read_start (StdioPipe.self p)] else [])
    ∧ r = (if write_refused then r_write
           else if shutdown_refused then r_shutdown
           else if StdioPipe.writable p && (r_read <? 0) then r_read
           else 0).
Proof.
  intros now input has_input r_write write_refused after_write r_shutdown
    shutdown_refused after_shutdown r_read Hp Hlife Hbase.
  unfold SyncProcessStdioPipe_Start.
  rewrite (bind_ok _ _ _ _ _ (get_pipe_ok _ _ _ Hp)).
  rewrite Hlife.
  rewrite (bool_decide_true (StdioPipe.kInitialized = StdioPipe.kInitialized)) by done.
  set (p' := StdioPipe.set_lifecycle_ StdioPipe.kStarted p).
  assert (Hp' : ∀ l, pipe_of (mkWorld (set_pipes_ (<[i := Some p']> <$> pipes_ (runner w))
                                         (runner w)) l (uv_oracle w)) i
                     = Some p').
  { intros l. by apply (pipe_of_put w i p' p). }
  unfold put_pipe. run_monad.
  change (StdioPipe.uv_pipe p') with (Some (StdioPipe.self p)).
  change (StdioPipe.readable p') with (StdioPipe.readable p).
  change (StdioPipe.writable p') with (StdioPipe.writable p).
  change (StdioPipe.input_buffer_ p') with input.
  subst write_refused shutdown_refused r_read after_shutdown r_shutdown after_write
    r_write has_input now.
  destruct (StdioPipe.readable p) eqn:Hr, (0 <? len input) eqn:Hlen,
    (StdioPipe.writable p) eqn:Hwr;
    cbn [andb negb] in *;
    try rewrite bool_decide_false by (by apply Hbase);
    repeat progress (run_monad; cbn [negb andb]);
    repeat (rewrite ?length_app; cbn [length]; rewrite ?Nat.add_1_r;
            match goal with
            | |- context [uv_ret ?o ?c ?n <? 0] =>
                destruct (uv_ret o c n <? 0) eqn:?
            end;
            repeat progress (run_monad; cbn [negb andb]));
    (eexists _, _; split; [reflexivity|]);
    cbn [runner uv_log uv_oracle]; rewrite Hp';
    split_and!; try done;
    rewrite ?app_nil_r, <- ?app_assoc; done.
Qed.

Lemma C8_start_witness :
  ∃ r w',
    SyncProcessStdioPipe_Start 0 sample_spawned_duplex = Ok r w'
    ∧ pipe_of w' 0
      = Some (StdioPipe.set_lifecycle_ StdioPipe.kStarted sample_duplex_pipe)
    ∧ uv_log w' = [uv_loop_new; uv_write 0 ["a"%byte]]
    ∧ r = -32.
Proof.
  apply (C8_start sample_spawned_duplex 0 sample_duplex_pipe).
  - reflexivity.
  - reflexivity.
  - intros _. discriminate.
Defined.

(** C8, as stated, fails: a pipe that is readable and writable, with
    input, whose write libuv refuses.  [Start] returns the error; it has
    asked for neither the shutdown nor the reads. *)
Lemma C8_counterexample :
  StdioPipe.readable sample_duplex_pipe = true
  ∧ StdioPipe.writable sample_duplex_pipe = true
  ∧ ∃ w', SyncProcessStdioPipe_Start 0 sample_spawned_duplex = Ok (-32) w'
          ∧ uv_log w' = [uv_loop_new; uv_write 0 ["a"%byte]].
Proof.
  split_and!; [reflexivity..|].
  exists (match SyncProcessStdioPipe_Start 0 sample_spawned_duplex with
          | Ok _ w' => w'
          | Abort => sample_spawned_duplex
          end).
  vm_compute. by split.
Qed.

(** ** The options decoder *)

Lemma SyncProcessStdioPipe_Initialize_preserves {T} (f : SyncProcessRunner → T) h :
  preserves f (SyncProcessStdioPipe_Initialize h).
Proof. unfold SyncProcessStdioPipe_Initialize. frame. Qed.

#[local] Hint Resolve SyncProcessStdioPipe_Initialize_preserves : frames.

Lemma pipes_at_preserves {T} (f : SyncProcessRunner → T) i : preserves f (pipes_at i).
Proof. unfold pipes_at. frame. Qed.

#[local] Hint Resolve pipes_at_preserves : frames.

Lemma assert_free_slot_preserves {T} (f : SyncProcessRunner → T) i :
  preserves f (assert_free_slot i).
Proof. unfold assert_free_slot. frame. Qed.

#[local] Hint Resolve assert_free_slot_preserves : frames.

(** The decoder of [stdio] writes [stdio_count_], [pipes_],
    [uv_stdio_containers_] and [uv_process_options_], nothing else. *)
Lemma ParseStdioOptions_preserves `{Host} {T} (f : SyncProcessRunner → T) js_value :
  (∀ v r, f (set_stdio_count_ v r) = f r) →
  (∀ v r, f (set_pipes_ v r) = f r) →
  (∀ v r, f (set_uv_stdio_containers_ v r) = f r) →
  (∀ v r, f (set_uv_process_options_ v r) = f r) →
  preserves f (ParseStdioOptions js_value).
Proof.
  intros H1 H2 H3 H4.
  unfold ParseStdioOptions, ParseStdioOption, AddStdioIgnore, AddStdioPipe,
    AddStdioInheritFD, put_pipe, set_container_flags, set_container_data.
  frame.
Qed.

(** When [killSignal] is not set, [ParseOptions] leaves [kill_signal_] alone. *)
Lemma ParseOptions_preserves_kill_signal `{Host} options :
  IsSet (Get options killSignal_sym) = false →
  preserves kill_signal_ (ParseOptions options).
Proof.
  intros Hunset. unfold ParseOptions. rewrite Hunset.
  unfold modify_options, or_flag, modify_options.
  pose proof (ParseStdioOptions_preserves kill_signal_ (Get options stdio_sym)
                ltac:(done) ltac:(done) ltac:(done) ltac:(done)) as Hstdio.
  frame.
Qed.

(** C9. The constructor sets [kill_signal_] to [SIGTERM], and
    [ParseOptions] on options whose [killSignal] is undefined or null
    returns with [kill_signal_] unchanged: the runner decoded from such
    options kills with [SIGTERM]. *)
Theorem C9_default_kill_signal `{Host} (options : JsValue) (oracle : UvOracle) :
  kill_signal_ SyncProcessRunner_new = SIGTERM
  ∧ (IsSet (Get options killSignal_sym) = false →
     (∀ w r w',
        ParseOptions options w = Ok r w' →
        kill_signal_ (runner w') = kill_signal_ (runner w))
     ∧ ∀ calls r w',
         ParseOptions options (mkWorld SyncProcessRunner_new calls oracle) = Ok r w' →
         kill_signal_ (runner w') = SIGTERM).
Proof.
  split; [reflexivity|]. intros Hunset.
  pose proof (ParseOptions_preserves_kill_signal options Hunset) as Hframe.
  split.
  - intros w r w' Hparse. by apply (Hframe _ _ _ Hparse).
  - intros calls r w' Hparse. by rewrite (Hframe _ _ _ Hparse).
Qed.

Lemma C9_default_kill_signal_witness :
  ∃ r w',
    @ParseOptions sample_host sample_echo_options (initial_world (quiet_oracle (λ _, [])))
    = Ok r w'
    ∧ kill_signal_ (runner w') = SIGTERM.
Proof.
  pose (w' := match @ParseOptions sample_host sample_echo_options
                      (initial_world (quiet_oracle (λ _, []))) with
              | Ok _ w' => w'
              | Abort => initial_world (quiet_oracle (λ _, []))
              end).
  assert (Hparse : @ParseOptions sample_host sample_echo_options
                     (initial_world (quiet_oracle (λ _, []))) = Ok 0 w')
    by (vm_compute; reflexivity).
  exists 0, w'. split; [exact Hparse|].
  exact (proj2 (proj2 (@C9_default_kill_signal sample_host sample_echo_options
                         (quiet_oracle (λ _, []))) eq_refl) [] 0 w' Hparse).
Defined.

(** C10. On the path of a readable pipe the decoder accepts an [input]
    that is a [Buffer], whose bytes become the input of the pipe, and an
    undefined [input], for which the pipe gets no input.  For any other
    [input], null included, the assertion fails: the process ends, and no
    error code is returned. *)
Theorem C10_input_must_be_buffer `{Host} (child_fd : nat) (js_stdio_option : JsValue)
    (w : World) :
  let input := Get js_stdio_option input_sym in
  let writable := BooleanValue (Get js_stdio_option writable_sym) in
  StrictEquals (Get js_stdio_option type_sym) pipe_sym = true →
  BooleanValue (Get js_stdio_option readable_sym) = true →
  (Buffer_HasInstance input = false → IsUndefined input = false →
   ParseStdioOption child_fd js_stdio_option w = Abort)
  ∧ (IsUndefined input = true →
     ParseStdioOption child_fd js_stdio_option w
     = AddStdioPipe child_fd true writable (uv_buf_init NullPtr 0) w)
  ∧ (∀ bytes, input = JsBuffer bytes →
     ParseStdioOption child_fd js_stdio_option w
     = AddStdioPipe child_fd true writable
         (uv_buf_init (HostPtr bytes) (to_unsigned_int (Z.of_nat (length bytes)))) w).
Proof.
  intros input writable Htype Hreadable.
  assert (Hignore : StrictEquals (Get js_stdio_option type_sym) ignore_sym = false).
  { destruct (Get js_stdio_option type_sym); try done. cbn in *.
    apply bool_decide_eq_true in Htype as ->. done. }
  unfold ParseStdioOption. rewrite Hignore, Htype, Hreadable. fold input. fold writable.
  split_and!.
  - intros Hbuf Hundef. rewrite Hbuf, Hundef. reflexivity.
  - intros Hundef. destruct input; try done.
  - intros bytes ->. reflexivity.
Qed.

Lemma C10_input_must_be_buffer_witness :
  @ParseStdioOption sample_host 0 sample_string_input
    (initial_world (quiet_oracle (λ _, []))) = Abort.
Proof.
  apply (proj1 (@C10_input_must_be_buffer sample_host 0 sample_string_input
                  (initial_world (quiet_oracle (λ _, []))) eq_refl eq_refl));
    reflexivity.
Defined.

(** ** Where the decoder goes wrong *)

(** No path of [ParseOptions] assigns the [env] field of the spawn
    descriptor, nor [cwd_buffer_]. *)
Lemma ParseOptions_never_sets_env `{Host} options :
  preserves (λ r, ProcessOptions.env (uv_process_options_ r)) (ParseOptions options).
Proof.
  unfold ParseOptions, ParseStdioOptions, ParseStdioOption, AddStdioIgnore, AddStdioPipe,
    AddStdioInheritFD, put_pipe, set_container_flags, set_container_data,
    modify_options, or_flag, modify_options.
  frame.
Qed.

Lemma ParseOptions_never_sets_cwd_buffer `{Host} options :
  preserves cwd_buffer_ (ParseOptions options).
Proof.
  unfold ParseOptions, ParseStdioOptions, ParseStdioOption, AddStdioIgnore, AddStdioPipe,
    AddStdioInheritFD, put_pipe, set_container_flags, set_container_data,
    modify_options, or_flag, modify_options.
  frame.
Qed.

(** When [args] is not an array, [CopyJsStringArray] fails with
    [UV_EINVAL], and [ParseOptions] returns 1. *)
Lemma ParseOptions_args_not_array `{Host} options w :
  IsObject options = true →
  IsArray (Get options args_sym) = false →
  ∃ w', ParseOptions options w = Ok 1 w'.
Proof.
  intros Hobj Hargs. unfold ParseOptions. rewrite Hobj. cbn [negb].
  assert (∀ t, CopyJsStringArray (Get options args_sym) t = (UV_EINVAL, t)) as Hcopy.
  { intros t. by destruct (Get options args_sym). }
  run_monad. cbn. rewrite Hcopy. run_monad. cbn. eauto.
Qed.

(** C1, on the code.  Decoding the [stdio] of [sample_bad_stdio_options]
    fails with [UV_EINVAL]; [ParseOptions] returns 1; the run goes on,
    spawns the child, and the result carries a status and no error. *)
Theorem C1_decode_failure_not_reported :
  (∃ w', @ParseStdioOptions sample_host (Get sample_bad_stdio_options stdio_sym)
           (initial_world child_exits_oracle) = Ok UV_EINVAL w')
  ∧ (∃ w', @ParseOptions sample_host sample_bad_stdio_options
             (initial_world child_exits_oracle) = Ok 1 w')
  ∧ ∃ result w' spawned,
      @Spawn sample_host sample_bad_stdio_options child_exits_oracle = Ok result w'
      ∧ uv_log w' = [uv_loop_new; uv_spawn spawned; uv_run; uv_run; uv_loop_delete]
      ∧ Get result error_sym = JsUndefined
      ∧ Get result status_sym = JsNumber 0
      ∧ error_ (runner w') = 0.
Proof.
  split_and!.
  - eexists (match @ParseStdioOptions sample_host (Get sample_bad_stdio_options stdio_sym)
                     (initial_world child_exits_oracle) with
             | Ok _ w' => w' | Abort => initial_world child_exits_oracle end).
    vm_compute. reflexivity.
  - eexists (match @ParseOptions sample_host sample_bad_stdio_options
                     (initial_world child_exits_oracle) with
             | Ok _ w' => w' | Abort => initial_world child_exits_oracle end).
    vm_compute. reflexivity.
  - pose (out := @Spawn sample_host sample_bad_stdio_options child_exits_oracle).
    exists (match out with Ok result _ => result | Abort => JsNull end),
           (match out with Ok _ w' => w' | Abort => initial_world child_exits_oracle end),
           (match out with
            | Ok _ w' => uv_process_options_ (runner w')
            | Abort => ProcessOptions.zero
            end).
    vm_compute. by split_and!.
Qed.

(** C2, on the code.  For options with [cwd] and [envPairs],
    [ParseOptions] succeeds; the decoded environment is in [env_buffer_],
    but the descriptor has it as [args] and has no [env]; the decoded
    working directory is lost, [cwd_buffer_] and the [cwd] of the
    descriptor are both [NULL]. *)
Theorem C2_env_and_cwd_misassigned :
  ∃ w',
    @ParseOptions sample_host sample_env_options (initial_world (quiet_oracle (λ _, [])))
    = Ok 0 w'
    ∧ env_buffer_ (runner w') = Some ["A=1"%string]
    ∧ args_buffer_ (runner w') = Some ["ls"%string]
    ∧ ProcessOptions.args (uv_process_options_ (runner w')) = Some ["A=1"%string]
    ∧ ProcessOptions.env (uv_process_options_ (runner w')) = None
    ∧ cwd_buffer_ (runner w') = None
    ∧ ProcessOptions.cwd (uv_process_options_ (runner w')) = None.
Proof.
  exists (match @ParseOptions sample_host sample_env_options
                  (initial_world (quiet_oracle (λ _, []))) with
          | Ok _ w' => w'
          | Abort => initial_world (quiet_oracle (λ _, []))
          end).
  vm_compute. by split_and!.
Qed.

(** ** Scenarios of the specification, run on the embedding *)

(** 70000 bytes arriving at once fill one buffer and start a second one;
    the buffer returned is the 70000 bytes. *)
Example read_crosses_buffer_boundary :
  let bytes := replicate (Z.to_nat 70000) "a"%byte in
  match dispatch (EvData 1 bytes) sample_running with
  | Ok _ w' =>
      bool_decide (chain_summary w' 1 = [(65536, Some 1%nat); (4464, None)])
      && bool_decide (pipe_of w' 1 ≫= StdioPipe.GetOutputAsBuffer = Some bytes)
      && (buffered_output_size_ (runner w') =? 70000)
  | Abort => false
  end = true.
Proof. vm_compute. reflexivity. Qed.

(** "Echo success": status 0, no signal, the output of fd 1, no error. *)
Example scenario_echo :
  ∃ w' spawned,
    @Spawn sample_host sample_echo_options sample_echo_oracle
    = Ok (JsObject
            [(status_sym, JsNumber 0); (signal_sym, JsNull);
             (output_sym, JsArray [JsNull; JsBuffer ["h"; "i"; "010"]%byte; JsNull])])
         w'
    ∧ uv_log w'
      = [uv_loop_new; uv_pipe_init 1; uv_spawn spawned; uv_read_start 1; uv_run;
         uv_close_pipe 1; uv_run; uv_loop_delete].
Proof.
  pose (out := @Spawn sample_host sample_echo_options sample_echo_oracle).
  exists (match out with Ok _ w' => w' | Abort => initial_world sample_echo_oracle end),
         (match out with
          | Ok _ w' => uv_process_options_ (runner w')
          | Abort => ProcessOptions.zero
          end).
  vm_compute. by split.
Qed.

(** "Timeout kill": the error is the timeout, the child got [SIGTERM],
    the default kill signal, and the signal is named in the result. *)
Example scenario_timeout :
  ∃ w' spawned,
    @Spawn sample_host sample_sleep_options sample_timeout_oracle
    = Ok (JsObject
            [(error_sym, JsNumber UV_ETIMEDOUT); (status_sym, JsNumber 0);
             (signal_sym, JsString "SIGTERM"); (output_sym, JsArray [JsNull])])
         w'
    ∧ uv_log w'
      = [uv_loop_new; uv_timer_init; uv_unref_timer; uv_timer_start 50;
         uv_spawn spawned; uv_run; uv_process_kill SIGTERM; uv_timer_stop;
         uv_timer_stop; uv_ref_timer; uv_close_timer; uv_run; uv_loop_delete].
Proof.
  pose (out := @Spawn sample_host sample_sleep_options sample_timeout_oracle).
  exists (match out with Ok _ w' => w' | Abort => initial_world sample_timeout_oracle end),
         (match out with
          | Ok _ w' => uv_process_options_ (runner w')
          | Abort => ProcessOptions.zero
          end).
  vm_compute. by split.
Qed.

(** * Wider properties of the code *)

(** ** Rules for postconditions *)

Lemma wp_ret {A} (a : A) (Q : A → World → Prop) w : Q a w → wp (mret a) Q w.
Proof. done. Qed.

Lemma wp_bind {A B} (m : M A) (k : A → M B) (Q : B → World → Prop) w :
  wp m (λ a w', wp (k a) Q w') w → wp (m ≫= k) Q w.
Proof.
  unfold wp. change ((m ≫= k) w) with (M_bind _ _ k m w). unfold M_bind.
  by destruct (m w).
Qed.

Lemma wp_mono {A} (m : M A) (Q Q' : A → World → Prop) w :
  wp m Q w → (∀ a w', Q a w' → Q' a w') → wp m Q' w.
Proof. unfold wp. destruct (m w); auto. Qed.

Lemma wp_elim {A} (m : M A) (Q : A → World → Prop) w a w' :
  wp m Q w → m w = Ok a w' → Q a w'.
Proof. unfold wp. intros HQ E. by rewrite E in HQ. Qed.

Lemma wp_intro {A} (m : M A) (Q : A → World → Prop) w :
  (∀ a w', m w = Ok a w' → Q a w') → wp m Q w.
Proof. unfold wp. destruct (m w); auto. Qed.

Lemma wp_modify g (Q : unit → World → Prop) w :
  Q () (mkWorld (g (runner w)) (uv_log w) (uv_oracle w)) → wp (modify_runner g) Q w.
Proof. done. Qed.

Lemma wp_get_runner (Q : SyncProcessRunner → World → Prop) w :
  Q (runner w) w → wp get_runner Q w.
Proof. done. Qed.

Lemma wp_uv c (Q : Z → World → Prop) w :
  Q (uv_ret (uv_oracle w) c (length (uv_log w)))
    (mkWorld (runner w) (uv_log w ++ [c]) (uv_oracle w)) →
  wp (uv c) Q w.
Proof. done. Qed.

Lemma wp_uv_scripted_events (Q : list UvEvent → World → Prop) w :
  Q (uv_events (uv_oracle w) (length (uv_log w))) w → wp uv_scripted_events Q w.
Proof. done. Qed.

Lemma wp_abort {A} (Q : A → World → Prop) w : wp abort Q w.
Proof. done. Qed.

Lemma wp_assert b (Q : unit → World → Prop) w : (b = true → Q () w) → wp (assert b) Q w.
Proof. destruct b; [intros HQ; by apply HQ | done]. Qed.

Lemma wp_from_option {A} (o : option A) (Q : A → World → Prop) w :
  (∀ a, o = Some a → Q a w) → wp (from_option o) Q w.
Proof. destruct o; [intros HQ; by apply HQ | done]. Qed.

Lemma wp_for_loop (Inv : nat → World → Prop) body (Q : option Z → World → Prop) count :
  ∀ i w,
    Inv i w →
    (∀ j w1, (i ≤ j < i + count)%nat → Inv j w1 →
       wp (body j) (λ r w2, match r with Some _ => Q r w2 | None => Inv (S j) w2 end) w1) →
    (∀ w1, Inv (i + count)%nat w1 → Q None w1) →
    wp (for_loop count i body) Q w.
Proof.
  induction count as [|count IH]; intros i w Hinv Hbody Hend; cbn [for_loop].
  - apply wp_ret, Hend. by rewrite Nat.add_0_r.
  - apply wp_bind. eapply wp_mono; [apply (Hbody i w); [lia | done] |].
    intros [r|] w2 HQ; [by apply wp_ret |].
    apply IH; [done | |].
    + intros j w1 Hj. apply Hbody. lia.
    + intros w1 Hw1. apply Hend.
      by replace (i + S count)%nat with (S i + count)%nat by lia.
Qed.

Lemma wp_conj {A} (m : M A) (Q1 Q2 : A → World → Prop) w :
  wp m Q1 w → wp m Q2 w → wp m (λ a w', Q1 a w' ∧ Q2 a w') w.
Proof. unfold wp. by destruct (m w). Qed.

Ltac wp_step :=
  lazymatch goal with
  | |- wp (mret _) _ _ => apply wp_ret
  | |- wp (mbind _ _) _ _ => apply wp_bind
  | |- wp (modify_runner _) _ _ => apply wp_modify
  | |- wp get_runner _ _ => apply wp_get_runner
  | |- wp (uv _) _ _ => apply wp_uv
  | |- wp uv_scripted_events _ _ => apply wp_uv_scripted_events
  | |- wp abort _ _ => apply wp_abort
  | |- wp (assert _) _ _ => apply wp_assert; intros ?
  | |- wp (from_option _) _ _ => apply wp_from_option; intros ? ?
  | |- wp (let _ := _ in _) _ _ => cbv zeta
  end.

Ltac wp_steps := repeat (wp_step; cbn [runner uv_log uv_oracle]).

(** ** Rules for invariants *)

Section stable.
Context (I : World → Prop).

Lemma stable_ret {A} (a : A) : stable I (mret a).
Proof. intros w a' w' HI [= _ <-]. done. Qed.

Lemma stable_bind {A B} (m : M A) (k : A → M B) :
  stable I m → (∀ a, stable I (k a)) → stable I (m ≫= k).
Proof.
  intros Hm Hk w b w' HI. change ((m ≫= k) w) with (M_bind _ _ k m w). unfold M_bind.
  destruct (m w) as [a w1|] eqn:E; [|done]. intros Hrun.
  eapply Hk; [|exact Hrun]. by eapply Hm.
Qed.

Lemma stable_modify g :
  (∀ w, I w → I (mkWorld (g (runner w)) (uv_log w) (uv_oracle w))) →
  stable I (modify_runner g).
Proof. intros Hg w a w' HI E. unfold modify_runner in E. simplify_eq. by apply Hg. Qed.

Lemma stable_get_runner : stable I get_runner.
Proof. intros w a w' HI [= _ <-]. done. Qed.

Lemma stable_uv c :
  (∀ w, I w → I (mkWorld (runner w) (uv_log w ++ [c]) (uv_oracle w))) →
  stable I (uv c).
Proof. intros Hc w a w' HI E. unfold uv in E. simplify_eq. by apply Hc. Qed.

Lemma stable_uv_scripted_events : stable I uv_scripted_events.
Proof. intros w a w' HI [= _ <-]. done. Qed.

Lemma stable_abort {A} : stable I (abort : M A).
Proof. intros w a w' HI. done. Qed.

Lemma stable_assert b : stable I (assert b).
Proof. destruct b; [apply stable_ret | apply stable_abort]. Qed.

Lemma stable_from_option {A} (o : option A) : stable I (from_option o).
Proof. destruct o; [apply stable_ret | apply stable_abort]. Qed.

Lemma stable_for_loop body count :
  (∀ i, stable I (body i)) → ∀ i, stable I (for_loop count i body).
Proof.
  intros Hbody. induction count as [|count IH]; intros i; cbn [for_loop].
  - apply stable_ret.
  - apply stable_bind; [apply Hbody |]. intros [r|]; [apply stable_ret | apply IH].
Qed.

Lemma stable_dispatch_all es :
  (∀ e, stable I (dispatch e)) → stable I (dispatch_all es).
Proof.
  intros Hd. induction es as [|e es IH]; cbn [dispatch_all].
  - apply stable_ret.
  - apply stable_bind; [apply Hd | intros _; apply IH].
Qed.

End stable.


Section stable_read.
Context (I : World → Prop).

Lemma stable_uv__read :
  (∀ i size, stable I (SyncProcessStdioPipe_OnAlloc i size)) →
  (∀ i buf bytes, stable I (uv_store i buf bytes)) →
  (∀ i buf nread, stable I (SyncProcessStdioPipe_OnRead i buf nread)) →
  ∀ fuel i pending, stable I (uv__read fuel i pending).
Proof.
  intros Halloc Hstore Hread fuel i.
  induction fuel as [|fuel IH]; intros pending; rewrite uv__read_unfold.
  - apply stable_bind; [apply Halloc | intros buf].
    destruct (len buf <=? 0); [apply Hread |]. cbv zeta.
    apply stable_bind; [apply Hstore | intros _].
    apply stable_bind; [apply Hread | intros _].
    destruct (drop _ pending); apply stable_ret.
  - apply stable_bind; [apply Halloc | intros buf].
    destruct (len buf <=? 0); [apply Hread |]. cbv zeta.
    apply stable_bind; [apply Hstore | intros _].
    apply stable_bind; [apply Hread | intros _].
    destruct (drop _ pending); [apply stable_ret | apply IH].
Qed.

End stable_read.

Create HintDb stables.

(** One step of the proof that [I] is an invariant of a computation;
    [side] proves that a change of the runner or a call into libuv keeps
    [I].  The methods of the file are unfolded; a method that keeps [I]
    for a reason of its own is taken from the hint database. *)
Ltac stable_step side :=
  lazymatch goal with
  | |- stable _ (mret _) => apply stable_ret
  | |- stable _ (mbind _ _) => apply stable_bind; [|intros ?]
  | |- stable _ (modify_runner _) => apply stable_modify; side
  | |- stable _ get_runner => apply stable_get_runner
  | |- stable _ (uv _) => apply stable_uv; side
  | |- stable _ uv_scripted_events => apply stable_uv_scripted_events
  | |- stable _ abort => apply stable_abort
  | |- stable _ (assert _) => apply stable_assert
  | |- stable _ (from_option _) => apply stable_from_option
  | |- stable _ (for_loop _ _ _) => apply stable_for_loop; intros ?
  | |- stable _ (dispatch_all _) => apply stable_dispatch_all; intros ?
  | |- stable _ (uv__read _ _ _) => apply stable_uv__read; intros
  | |- stable _ (if ?c then _ else _) => destruct c
  | |- stable _ (match ?x with _ => _ end) => destruct x
  | |- stable _ (let _ := _ in _) => cbv zeta
  | |- stable _ _ =>
      first
        [ solve [auto with stables]
        | progress
            unfold get_pipe, put_pipe, pipes_at, assert_free_slot, StopKillTimer, Kill,
              IncrementBufferSizeAndCheckOverflow, OnExit, OnKillTimerTimeout,
              SyncProcessStdioPipe_Initialize, SyncProcessStdioPipe_Start,
              SyncProcessStdioPipe_Close, SyncProcessStdioPipe_SetError,
              SyncProcessStdioPipe_OnAlloc, SyncProcessStdioPipe_OnRead,
              SyncProcessStdioPipe_OnWriteDone, SyncProcessStdioPipe_OnShutdownDone,
              SyncProcessStdioPipe_OnClose, uv_store, dispatch, uv_run_default,
              AddStdioIgnore, AddStdioPipe, AddStdioInheritFD, ParseStdioOption,
              ParseStdioOptions, modify_options, or_flag, ParseOptions,
              TryInitializeAndRunLoop, CloseHandlesAndDeleteLoop, Run,
              SyncProcessRunner_delete ]
  end.

Ltac stable_with side := repeat (stable_step side).

(** ** The error slots, over a whole run *)

Ltac error_side :=
  let w := fresh "w" in
  let HI := fresh "HI" in
  intros w HI; cbn [runner uv_log uv_oracle] in *;
  first
    [ exact HI
    | rewrite error_SetError, HI; case_match; [lia | reflexivity]
    | rewrite error_SetPipeError; exact HI
    | rewrite pipe_error_SetPipeError, HI; case_match; [lia | reflexivity]
    | rewrite pipe_error_SetError; exact HI ].

Lemma error_is_stable_in_callbacks e0 es :
  e0 ≠ 0 → stable (λ w, error_ (runner w) = e0) (dispatch_all es).
Proof. intros Hne. stable_with error_side. Qed.

Lemma pipe_error_is_stable_in_callbacks e0 es :
  e0 ≠ 0 → stable (λ w, pipe_error_ (runner w) = e0) (dispatch_all es).
Proof. intros Hne. stable_with error_side. Qed.

Lemma error_is_stable_in_teardown e0 :
  e0 ≠ 0 → stable (λ w, error_ (runner w) = e0) CloseHandlesAndDeleteLoop.
Proof. intros Hne. stable_with error_side. Qed.

Lemma pipe_error_is_stable_in_teardown e0 :
  e0 ≠ 0 → stable (λ w, pipe_error_ (runner w) = e0) CloseHandlesAndDeleteLoop.
Proof. intros Hne. stable_with error_side. Qed.

Lemma error_is_stable_in_run `{Host} e0 options :
  e0 ≠ 0 → stable (λ w, error_ (runner w) = e0) (TryInitializeAndRunLoop options).
Proof. intros Hne. stable_with error_side. Qed.

(** X1. Once a slot holds an error code, the callbacks of a run, whatever
    they are, and the teardown that follows leave the code as it is; the
    error the runner reports is then the primary error that was recorded
    first. *)
Theorem recorded_errors_are_final (es : list UvEvent) (w w1 w2 : World) :
  dispatch_all es w = Ok () w1 →
  CloseHandlesAndDeleteLoop w1 = Ok () w2 →
  (error_ (runner w) ≠ 0 →
   error_ (runner w1) = error_ (runner w)
   ∧ error_ (runner w2) = error_ (runner w)
   ∧ GetError (runner w2) = error_ (runner w))
  ∧ (pipe_error_ (runner w) ≠ 0 →
     pipe_error_ (runner w1) = pipe_error_ (runner w)
     ∧ pipe_error_ (runner w2) = pipe_error_ (runner w)).
Proof.
  intros Hcb Hclose. split; intros Hne.
  - assert (error_ (runner w1) = error_ (runner w)) as H1
      by exact (error_is_stable_in_callbacks _ es Hne w () w1 eq_refl Hcb).
    assert (error_ (runner w2) = error_ (runner w)) as H2
      by exact (error_is_stable_in_teardown _ Hne w1 () w2 H1 Hclose).
    split_and!; [done..|]. unfold GetError. rewrite H2.
    by destruct (error_ (runner w) =? 0) eqn:E; [lia|].
  - assert (pipe_error_ (runner w1) = pipe_error_ (runner w)) as H1
      by exact (pipe_error_is_stable_in_callbacks _ es Hne w () w1 eq_refl Hcb).
    split; [done|].
    exact (pipe_error_is_stable_in_teardown _ Hne w1 () w2 H1 Hclose).
Qed.

Lemma recorded_errors_are_final_witness :
  ∃ w1 w2,
    dispatch_all sample_late_errors sample_timed_out = Ok () w1
    ∧ CloseHandlesAndDeleteLoop w1 = Ok () w2
    ∧ pipe_error_ (runner w2) = -32
    ∧ error_ (runner w2) = UV_ETIMEDOUT
    ∧ GetError (runner w2) = UV_ETIMEDOUT.
Proof.
  pose (w1 := match dispatch_all sample_late_errors sample_timed_out with
              | Ok _ w' => w' | Abort => sample_timed_out end).
  pose (w2 := match CloseHandlesAndDeleteLoop w1 with
              | Ok _ w' => w' | Abort => sample_timed_out end).
  assert (H1 : dispatch_all sample_late_errors sample_timed_out = Ok () w1)
    by (vm_compute; reflexivity).
  assert (H2 : CloseHandlesAndDeleteLoop w1 = Ok () w2) by (vm_compute; reflexivity).
  exists w1, w2. split; [exact H1|]. split; [exact H2|]. split; [vm_compute; reflexivity|].
  destruct (proj1 (recorded_errors_are_final sample_late_errors sample_timed_out w1 w2 H1 H2))
    as (_ & He & Hg); [vm_compute; discriminate|].
  split; [exact He | exact Hg].
Defined.

(** ** The kill signal, over a whole run *)

Lemma kill_attempts_app log c :
  kill_attempts (log ++ [c]) = (kill_attempts log + (if is_kill c then 1 else 0))%nat.
Proof.
  unfold kill_attempts. rewrite List.filter_app, length_app. cbn [List.filter].
  by destruct (is_kill c).
Qed.

Ltac kill_side :=
  let w := fresh "w" in
  let HI := fresh "HI" in
  intros w HI; unfold kill_budget in *; cbn [runner uv_log uv_oracle] in *;
  rewrite ?kill_attempts_app; cbn [is_kill]; rewrite ?Nat.add_0_r;
  first
    [ exact HI
    | unfold SetError, SetPipeError;
      repeat match goal with
             | |- context [if ?x =? 0 then _ else _] => destruct (x =? 0)
             end;
      exact HI ].

Lemma StopKillTimer_kill_budget : stable kill_budget StopKillTimer.
Proof. stable_with kill_side. Qed.

Lemma Kill_kill_budget : stable kill_budget Kill.
Proof.
  intros w a w' HI. destruct (killed_ (runner w)) eqn:Hk.
  - rewrite Kill_killed by done. intros E. by simplify_eq.
  - unfold kill_budget in HI. rewrite Hk in HI.
    assert (kill_attempts (uv_log w) = 0%nat) as H0 by lia.
    unfold Kill. run_monad. rewrite Hk. run_monad.
    cbn [kill_signal_ set_killed_ length].
    set (sig := kill_signal_ (runner w)).
    set (r := uv_ret (uv_oracle w) (uv_process_kill sig) (length (uv_log w))).
    destruct ((r <? 0) && negb (r =? UV_ESRCH)); run_monad.
    + match goal with |- context [if ?c then _ else _] => destruct c end; [|done].
      intros Hstop.
      refine (StopKillTimer_kill_budget _ _ _ _ Hstop).
      unfold kill_budget. cbn [runner uv_log].
      rewrite !kill_attempts_app. cbn [is_kill].
      destruct (SetError_frame r (set_killed_ true (runner w))) as (_ & _ & -> & _).
      cbn [killed_ set_killed_]. lia.
    + intros Hstop. refine (StopKillTimer_kill_budget _ _ _ _ Hstop).
      unfold kill_budget. cbn [runner uv_log killed_ set_killed_].
      rewrite !kill_attempts_app. cbn [is_kill]. lia.
Qed.

#[local] Hint Resolve Kill_kill_budget : stables.

Lemma Run_kill_budget `{Host} options : stable kill_budget (Run options).
Proof. stable_with kill_side. Qed.

Lemma dispatch_all_kill_budget es : stable kill_budget (dispatch_all es).
Proof. stable_with kill_side. Qed.

(** X2. In a whole run, from the constructor to the destructor and
    whatever libuv answers and delivers, the runner asks for the signal to
    be sent at most twice (one delivery and its retry), and never while
    [killed_] is false. *)
Theorem at_most_two_kill_signals `{Host} (options : JsValue) (oracle : UvOracle)
    (result : JsValue) (w' : World) :
  Spawn options oracle = Ok result w' →
  (kill_attempts (uv_log w') ≤ 2)%nat
  ∧ (killed_ (runner w') = false → kill_attempts (uv_log w') = 0%nat).
Proof.
  intros Hrun.
  assert (stable kill_budget
            (result ← Run options; SyncProcessRunner_delete;; mret result)) as Hst
    by stable_with kill_side.
  assert (kill_budget w') as Hb.
  { refine (Hst _ _ _ _ Hrun). unfold kill_budget. cbn. lia. }
  unfold kill_budget in Hb. destruct (killed_ (runner w')); split; try done; lia.
Qed.

Lemma at_most_two_kill_signals_witness :
  ∃ result w',
    @Spawn sample_host sample_sleep_options sample_timeout_oracle = Ok result w'
    ∧ (kill_attempts (uv_log w') ≤ 2)%nat.
Proof.
  pose (o := @Spawn sample_host sample_sleep_options sample_timeout_oracle).
  pose (result := match o with Ok r _ => r | Abort => JsNull end).
  pose (w' := match o with Ok _ w' => w' | Abort => initial_world sample_timeout_oracle end).
  assert (Hrun : @Spawn sample_host sample_sleep_options sample_timeout_oracle
                 = Ok result w') by (vm_compute; reflexivity).
  exists result, w'. split; [exact Hrun|].
  exact (proj1 (@at_most_two_kill_signals sample_host sample_sleep_options
                  sample_timeout_oracle result w' Hrun)).
Defined.

(** ** The lifecycle of the runner *)

Ltac lifecycle_side :=
  let w := fresh "w" in
  let HI := fresh "HI" in
  intros w HI; cbn [runner uv_log uv_oracle] in *;
  first
    [ exact HI
    | unfold SetError, SetPipeError;
      repeat match goal with
             | |- context [if ?x =? 0 then _ else _] => destruct (x =? 0)
             end;
      exact HI ].

Lemma teardown_sets_lifecycle w w' :
  CloseHandlesAndDeleteLoop w = Ok () w' → lifecycle_ (runner w') = kHandlesClosed.
Proof.
  intros Hrun. unfold CloseHandlesAndDeleteLoop in Hrun.
  apply bind_inv in Hrun as (this & w1 & Hget & Hrun).
  apply bind_inv in Hrun as (? & w2 & _ & Hrun).
  apply bind_inv in Hrun as (? & w3 & Hset & Hrun).
  unfold modify_runner in Hset. simplify_eq.
  match type of Hrun with
  | ?m _ = _ =>
      assert (stable (λ w, lifecycle_ (runner w) = kHandlesClosed) m) as Hst
        by stable_with lifecycle_side
  end.
  by refine (Hst _ _ _ _ Hrun).
Qed.

(** X3. A runner runs once: when [Run] returns the runner is in
    [kHandlesClosed], whatever happened, and a second [Run] or a second
    teardown fails the assertion on the lifecycle. *)
Theorem run_is_one_shot `{Host} (options options' : JsValue) (w w' : World)
    (result : JsValue) :
  Run options w = Ok result w' →
  lifecycle_ (runner w') = kHandlesClosed
  ∧ Run options' w' = Abort
  ∧ CloseHandlesAndDeleteLoop w' = Abort.
Proof.
  intros Hrun.
  assert (lifecycle_ (runner w') = kHandlesClosed) as Hl.
  { unfold Run in Hrun.
    apply bind_inv in Hrun as (this & w1 & _ & Hrun).
    apply bind_inv in Hrun as (? & w2 & _ & Hrun).
    apply bind_inv in Hrun as (? & w3 & _ & Hrun).
    apply bind_inv in Hrun as ([] & w4 & Hclose & Hrun).
    apply teardown_sets_lifecycle in Hclose.
    apply bind_inv in Hrun as (this' & w5 & Hget & Hrun).
    unfold get_runner in Hget. simplify_eq.
    destruct (BuildResultObject (runner w5)); cbv in Hrun; [|done]. by simplify_eq. }
  split; [done|]. split.
  - unfold Run. run_monad. by rewrite Hl.
  - unfold CloseHandlesAndDeleteLoop. run_monad. by rewrite Hl.
Qed.

Lemma run_is_one_shot_witness :
  ∃ result w',
    @Run sample_host sample_echo_options (initial_world sample_echo_oracle) = Ok result w'
    ∧ lifecycle_ (runner w') = kHandlesClosed
    ∧ @Run sample_host sample_sleep_options w' = Abort.
Proof.
  pose (o := @Run sample_host sample_echo_options (initial_world sample_echo_oracle)).
  pose (result := match o with Ok r _ => r | Abort => JsNull end).
  pose (w' := match o with Ok _ w' => w' | Abort => initial_world sample_echo_oracle end).
  assert (Hrun : @Run sample_host sample_echo_options (initial_world sample_echo_oracle)
                 = Ok result w') by (vm_compute; reflexivity).
  exists result, w'. split; [exact Hrun|].
  destruct (@run_is_one_shot sample_host sample_echo_options sample_sleep_options _ _ _ Hrun)
    as (Hl & Hagain & _).
  split; [exact Hl | exact Hagain].
Defined.

(** ** Runs that end before the spawn *)

(** X4. When libuv cannot make a loop, [spawnSync] reports [UV_ENOMEM]
    with null status, signal and output, whatever the options are; it
    decodes nothing and calls libuv no further: there is no loop to run
    or to delete. *)
Theorem no_loop_no_spawn `{Host} (options : JsValue) (oracle : UvOracle) :
  uv_ret oracle uv_loop_new 0 < 0 →
  ∃ w',
    Spawn options oracle
    = Ok (JsObject [(error_sym, JsNumber UV_ENOMEM); (status_sym, JsNull);
                    (signal_sym, JsNull); (output_sym, JsNull)]) w'
    ∧ uv_log w' = [uv_loop_new]
    ∧ pipes_ (runner w') = None
    ∧ lifecycle_ (runner w') = kHandlesClosed.
Proof.
  intros Hneg. apply Z.ltb_lt in Hneg.
  unfold Spawn, Run, TryInitializeAndRunLoop, CloseHandlesAndDeleteLoop,
    SyncProcessRunner_delete.
  repeat progress
    (run_monad; cbn -[Z.ltb ParseOptions];
     rewrite ?(bool_decide_true (kUninitialized = kUninitialized)) by done;
     rewrite ?Hneg).
  eexists. split; [reflexivity|]. done.
Qed.

Lemma no_loop_no_spawn_witness :
  ∃ w',
    @Spawn sample_host sample_echo_options no_loop_oracle
    = Ok (JsObject [(error_sym, JsNumber UV_ENOMEM); (status_sym, JsNull);
                    (signal_sym, JsNull); (output_sym, JsNull)]) w'
    ∧ uv_log w' = [uv_loop_new]
    ∧ pipes_ (runner w') = None
    ∧ lifecycle_ (runner w') = kHandlesClosed.
Proof.
  apply (@no_loop_no_spawn sample_host sample_echo_options no_loop_oracle).
  vm_compute. reflexivity.
Defined.

(** ** The decoder: what it accepts, and what it stores *)

Lemma wp_block (block : M (option Z)) (rest : M Z) (Q : Z → World → Prop)
    (R : option Z → World → Prop) w :
  wp block R w →
  (∀ r w', R (Some r) w' → Q r w') →
  (∀ w', R None w' → wp rest Q w') →
  wp (returned ← block; match returned with Some r => mret r | None => rest end) Q w.
Proof.
  intros Hblock Hret Hrest. apply wp_bind. eapply wp_mono; [exact Hblock|].
  intros [r|] w' HR; [apply wp_ret; by apply Hret | by apply Hrest].
Qed.

Lemma wp_seq {A B} (m : M A) (k : A → M B) (Q : B → World → Prop)
    (R : A → World → Prop) w :
  wp m R w → (∀ a w', R a w' → wp (k a) Q w') → wp (m ≫= k) Q w.
Proof. intros Hm Hk. apply wp_bind. by eapply wp_mono. Qed.

Lemma preserves_wp {T A} (f : SyncProcessRunner → T) (m : M A) w :
  preserves f m → wp m (λ _ w', f (runner w') = f (runner w)) w.
Proof. intros Hm. apply wp_intro. intros a w'. apply Hm. Qed.

(** Symbolic execution that follows every branch. *)
Ltac wp_branch :=
  repeat
    (cbn [runner uv_log uv_oracle];
     first
       [ wp_step
       | lazymatch goal with
         | |- wp (modify_options _) _ _ => unfold modify_options
         | |- wp (or_flag _) _ _ => unfold or_flag, modify_options
         | |- wp (if ?c then _ else _) _ _ => destruct c eqn:?
         | |- wp (match ?x with _ => _ end) _ _ => destruct x eqn:?
         end ]).

Lemma is_negative_nonneg c : 0 ≤ is_negative c ≤ 1.
Proof. unfold is_negative. case_match; lia. Qed.

(** *** The range checks *)

Lemma land_lnot_ones z bits :
  0 ≤ bits → 0 ≤ z → Z.land z (Z.lnot (Z.ones bits)) = 0 ↔ z < 2 ^ bits.
Proof.
  intros Hbits Hz. rewrite <- Z.ldiff_land, Z.ldiff_ones_r by done.
  rewrite Z.shiftl_mul_pow2, Z.shiftr_div_pow2 by done.
  assert (0 < 2 ^ bits) as Hpos by (apply Z.pow_pos_nonneg; lia).
  split.
  - intros Hmul. apply Z.mul_eq_0_l in Hmul; [|lia].
    apply Z.div_small_iff in Hmul; lia.
  - intros Hlt. rewrite Z.div_small by lia. done.
Qed.

Lemma to_int_small z : - 2 ^ 31 ≤ z < 2 ^ 31 → to_int z = z.
Proof.
  intros Hz. unfold to_int, wrap_signed.
  change (2 ^ (32 - 1)) with 2147483648. change (2 ^ 32) with 4294967296.
  rewrite Z.mod_small by lia. lia.
Qed.

Lemma to_unsigned_int_to_int z : 0 ≤ z < 2 ^ 32 → to_unsigned_int (to_int z) = z.
Proof.
  intros Hz. unfold to_unsigned_int, to_int, wrap_signed, wrap_unsigned.
  change (2 ^ (32 - 1)) with 2147483648. change (2 ^ 32) with 4294967296 in *.
  destruct (decide (z < 2147483648)).
  - rewrite (Z.mod_small (z + 2147483648)) by lia. rewrite Z.mod_small; lia.
  - replace (z + 2147483648) with (z - 2147483648 + 1 * 4294967296) by lia.
    rewrite Z.mod_add by lia. rewrite (Z.mod_small (z - 2147483648)) by lia.
    replace (z - 2147483648 - 2147483648) with (z + (-1) * 4294967296) by lia.
    rewrite Z.mod_add by lia. rewrite Z.mod_small; lia.
Qed.

(** X5. [CheckRange<t>] for an unsigned type of [bits] bits accepts the
    integers from 0 to 2^bits - 1 and nothing else; for a signed type it
    accepts every int32, whatever the width of the type. A [uid] or [gid]
    that passed the check is stored as the number it is, also above 2^31,
    where [Int32Value] is negative. *)
Theorem CheckRange_accepts `{Host} (bits : Z) (v : JsValue) :
  0 ≤ bits ≤ 32 →
  (CheckRange false bits v = true ↔ ∃ z, v = JsNumber z ∧ 0 ≤ z < 2 ^ bits)
  ∧ CheckRange true bits v = IsInt32 v
  ∧ (CheckRange_uv_uid_t v = true →
     ∃ z, v = JsNumber z ∧ 0 ≤ z < 2 ^ 32
          ∧ to_unsigned_int (Int32Value v) = z ∧ Uint32Value v = z).
Proof.
  intros Hbits.
  assert (2 ^ bits ≤ 2 ^ 32) as Hpow by (apply Z.pow_le_mono_r; lia).
  assert (∀ b, CheckRange false b v = true → 0 ≤ b →
               ∃ z, v = JsNumber z ∧ 0 ≤ z < 2 ^ 32 ∧ z < 2 ^ b) as Hfwd.
  { intros b Hc Hb. unfold CheckRange in Hc. cbn [negb] in Hc.
    destruct v as [| | |z| | | | |]; try discriminate Hc.
    cbn [IsUint32 Uint32Value] in Hc.
    destruct (bool_decide (0 ≤ z < 2 ^ 32)) eqn:Hu; [|discriminate Hc].
    apply bool_decide_eq_true in Hu. cbn [negb] in Hc.
    rewrite to_unsigned_int_small in Hc by (change (2 ^ 32) with 4294967296 in Hu; lia).
    destruct (Z.land z (Z.lnot (Z.ones b)) =? 0) eqn:Hl; [|discriminate Hc].
    apply Z.eqb_eq, land_lnot_ones in Hl; [|lia..]. eauto. }
  split_and!.
  - split.
    + intros Hc. destruct (Hfwd bits Hc) as (z & -> & ? & ?); [lia|]. exists z. split; [done | lia].
    + intros (z & -> & Hz). unfold CheckRange. cbn [negb IsUint32 Uint32Value].
      rewrite bool_decide_true by lia. cbn [negb].
      rewrite to_unsigned_int_small by (change 4294967296 with (2 ^ 32); lia).
      assert (Z.land z (Z.lnot (Z.ones bits)) = 0) as -> by (apply land_lnot_ones; lia).
      done.
  - unfold CheckRange. cbn [negb]. change (Z.lnot (-1)) with 0. rewrite Z.land_0_r.
    by destruct (IsInt32 v).
  - intros Hc. destruct (Hfwd 32 Hc) as (z & -> & Hz & _); [lia|]. exists z.
    split_and!; try done; try lia.
    + cbn [Int32Value]. by apply to_unsigned_int_to_int.
    + cbn [Uint32Value]. apply to_unsigned_int_small.
      change 4294967296 with (2 ^ 32). lia.
Qed.

Lemma CheckRange_accepts_witness :
  (@CheckRange sample_host false 16 (JsNumber 65535) = true
   ↔ ∃ z, JsNumber 65535 = JsNumber z ∧ 0 ≤ z < 2 ^ 16)
  ∧ @CheckRange sample_host true 16 (JsNumber 65535) = IsInt32 (JsNumber 65535).
Proof.
  destruct (@CheckRange_accepts sample_host 16 (JsNumber 65535)) as (H1 & H2 & _);
    [lia|].
  split; [exact H1 | exact H2].
Defined.

(** *** [ParseOptions], block by block *)

Ltac at_block :=
  lazymatch goal with |- wp (@mbind _ _ (option Z) _ _ _) _ _ => idtac end.

(** Symbolic execution up to the next block of the form
    [returned ← block; match returned with ... end]. *)
Ltac wp_upto_block :=
  repeat
    (tryif at_block then fail
     else
       (cbn [runner uv_log uv_oracle];
        first
          [ wp_step
          | lazymatch goal with
            | |- wp (modify_options _) _ _ => unfold modify_options
            | |- wp (or_flag _) _ _ => unfold or_flag, modify_options
            | |- wp (if ?c then _ else _) _ _ => destruct c eqn:?
            | |- wp (match ?x with _ => _ end) _ _ => destruct x eqn:?
            end ])).

Lemma wp_start {A} (P : SyncProcessRunner → Prop) (m : M A) (Q : A → World → Prop) w :
  P (runner w) → (∀ w', P (runner w') → wp m Q w') → wp m Q w.
Proof. intros HP Hm. by apply Hm. Qed.

Ltac early_return :=
  let Hz := fresh "Hz" in
  intros Hz;
  first
    [ discriminate Hz
    | match goal with
      | Hg : negb (is_negative ?c =? 0) = true |- _ => by rewrite Hz in Hg
      end ].

Ltac ret_nonzero :=
  lazymatch goal with
  | |- ?x ≠ 0 =>
      first
        [ unfold UV_EINVAL; lia
        | match goal with
          | Hg : negb (x =? 0) = true |- _ =>
              apply negb_true_iff, Z.eqb_neq in Hg; exact Hg
          end ]
  end.

Ltac keep := cbn [runner]; match goal with HF : _ |- _ => exact HF end.

(** A block that keeps [P] of the runner. *)
Ltac pass_block P :=
  apply (wp_block _ _ _ (block_post P));
  [ wp_branch; cbn [block_post]; first [ret_nonzero | keep]
  | let r := fresh "r" in
    let w' := fresh "w" in
    let Hr := fresh "Hr" in
    let Hz := fresh "Hz" in
    intros r w' Hr Hz; by destruct Hr
  | let w' := fresh "w" in
    let HF := fresh "HF" in
    intros w' HF; cbn [block_post] in HF ].

(** A block that takes the runner to [P]. *)
Ltac key_block P :=
  apply (wp_block _ _ _ (block_post P));
  [ wp_branch; cbn [block_post runner]; try ret_nonzero
  | let r := fresh "r" in
    let w' := fresh "w" in
    let Hr := fresh "Hr" in
    let Hz := fresh "Hz" in
    intros r w' Hr Hz; by destruct Hr
  | let w' := fresh "w" in
    let HF := fresh "HF" in
    intros w' HF; cbn [block_post] in HF ].

Ltac pass_seq P :=
  apply (wp_seq _ _ _ (λ _ w', P (runner w')));
  [ wp_branch; keep
  | let w' := fresh "w" in
    let HF := fresh "HF" in
    intros _ w' HF ].

Ltac decoder_start w :=
  let Hrun := fresh "Hrun" in
  intros Hrun;
  match type of Hrun with
  | _ = Ok ?r ?w' => pattern r, w'; eapply wp_elim; [|exact Hrun]; clear Hrun
  end;
  unfold ParseOptions;
  destruct (IsObject _) eqn:?; cbn [negb]; [|by apply wp_ret];
  cbv zeta; wp_upto_block; [early_return..|].

(** The last statements of [ParseOptions], for a field [f] that
    [ParseStdioOptions] does not assign. *)
Ltac decoder_finish f :=
  eapply wp_seq;
  [ apply (preserves_wp f), ParseStdioOptions_preserves; done
  | let c := fresh "c" in
    let w' := fresh "w" in
    let Hf := fresh "Hf" in
    intros c w' Hf; cbv zeta; wp_branch; [early_return|];
    intros _; cbn beta in Hf; rewrite Hf ].

Lemma IsSet_number z : IsSet (JsNumber z) = true.
Proof. done. Qed.

(** Use the equation recorded for the condition [c]. *)
Ltac known c :=
  match goal with
  | E : c = _ |- _ => rewrite ?E in *
  end.

Lemma ParseOptions_timeout `{Host} options w r w' :
  ParseOptions options w = Ok r w' → r = 0 →
  decoded_timeout (Get options timeout_sym) (timeout_ (runner w)) (timeout_ (runner w')).
Proof.
  decoder_start w.
  apply (wp_start (λ r, timeout_ r = timeout_ (runner w))); [reflexivity|].
  intros w0 HF.
  do 4 pass_block (λ r, timeout_ r = timeout_ (runner w)).
  do 2 pass_seq (λ r, timeout_ r = timeout_ (runner w)).
  key_block (λ r, decoded_timeout (Get options timeout_sym) (timeout_ (runner w))
                    (timeout_ r)).
  - unfold decoded_timeout. known (IsSet (Get options timeout_sym)).
    assert (∃ t, integer_part (Get options timeout_sym) = Some t
                 ∧ IntegerValue (Get options timeout_sym) = double_to_int64 (Some t))
      as (t & Hpart & Hint).
    { destruct (Get options timeout_sym) as [| | |num| | | | |d]; try discriminate.
      - by exists num.
      - destruct d as [k e| | |]; try discriminate; by eexists. }
    exists t. rewrite Hint in *. cbn [double_to_int64 timeout_ set_timeout_] in *.
    case_bool_decide as Hz; [|discriminate].
    match goal with E : (t <? 0) = false |- _ => apply Z.ltb_ge in E end.
    split; [by destruct (Get options timeout_sym)|]. split; [done|].
    split; [lia|]. unfold wrap_unsigned. apply Z.mod_small. lia.
  - unfold decoded_timeout. known (IsSet (Get options timeout_sym)). keep.
  - do 2 pass_block (λ r, decoded_timeout (Get options timeout_sym) (timeout_ (runner w))
                          (timeout_ r)).
    decoder_finish timeout_. done.
Qed.

Lemma CheckRange_32 `{Host} v :
  CheckRange false 32 v = true →
  ∃ z, v = JsNumber z ∧ 0 ≤ z < 2 ^ 32
       ∧ to_unsigned_int (Int32Value v) = z ∧ Uint32Value v = z.
Proof.
  intros Hc. unfold CheckRange in Hc. cbn [negb] in Hc.
  destruct v as [| | |z| | | | |]; try discriminate Hc.
  cbn [IsUint32] in Hc. case_bool_decide as Hz; [|discriminate Hc].
  exists z. split_and!; try done; try lia.
  - cbn [Int32Value]. by apply to_unsigned_int_to_int.
  - cbn [Uint32Value]. apply to_unsigned_int_small. change 4294967296 with (2 ^ 32). lia.
Qed.

Lemma ParseOptions_maxBuffer `{Host} options w r w' :
  ParseOptions options w = Ok r w' → r = 0 →
  decoded (Get options maxBuffer_sym) 0 (2 ^ 32)
    (max_buffer_ (runner w)) (max_buffer_ (runner w')).
Proof.
  decoder_start w.
  apply (wp_start (λ r, max_buffer_ r = max_buffer_ (runner w))); [reflexivity|].
  intros w0 HF.
  do 4 pass_block (λ r, max_buffer_ r = max_buffer_ (runner w)).
  do 2 pass_seq (λ r, max_buffer_ r = max_buffer_ (runner w)).
  pass_block (λ r, max_buffer_ r = max_buffer_ (runner w)).
  key_block (λ r, decoded (Get options maxBuffer_sym) 0 (2 ^ 32) (max_buffer_ (runner w))
                    (max_buffer_ r)).
  - unfold decoded. known (IsSet (Get options maxBuffer_sym)).
    match goal with
    | E : negb (CheckRange_uint32_t _) = false |- _ =>
        apply negb_false_iff, CheckRange_32 in E as (num & -> & Hnum & _ & Hstored)
    end.
    exists num. split_and!; try done; try lia.
  - unfold decoded. known (IsSet (Get options maxBuffer_sym)). keep.
  - pass_block (λ r, decoded (Get options maxBuffer_sym) 0 (2 ^ 32) (max_buffer_ (runner w))
                       (max_buffer_ r)).
    decoder_finish max_buffer_. done.
Qed.

Lemma ParseOptions_killSignal `{Host} options w r w' :
  ParseOptions options w = Ok r w' → r = 0 →
  decoded (Get options killSignal_sym) (- 2 ^ 31) (2 ^ 31)
    (kill_signal_ (runner w)) (kill_signal_ (runner w'))
  ∧ (IsSet (Get options killSignal_sym) = true → kill_signal_ (runner w') ≠ 0).
Proof.
  decoder_start w.
  apply (wp_start (λ r, kill_signal_ r = kill_signal_ (runner w))); [reflexivity|].
  intros w0 HF.
  do 4 pass_block (λ r, kill_signal_ r = kill_signal_ (runner w)).
  do 2 pass_seq (λ r, kill_signal_ r = kill_signal_ (runner w)).
  do 2 pass_block (λ r, kill_signal_ r = kill_signal_ (runner w)).
  key_block (λ r, decoded (Get options killSignal_sym) (- 2 ^ 31) (2 ^ 31)
                    (kill_signal_ (runner w)) (kill_signal_ r)
                  ∧ (IsSet (Get options killSignal_sym) = true → kill_signal_ r ≠ 0)).
  - unfold decoded. known (IsSet (Get options killSignal_sym)).
    destruct (Get options killSignal_sym) as [| | |num| | | | |]; try discriminate.
    cbn [IsInt32 Int32Value kill_signal_ set_kill_signal_] in *.
    match goal with
    | E : negb (bool_decide _) = false |- _ =>
        apply negb_false_iff, bool_decide_eq_true in E
    end.
    rewrite to_int_small in * by done.
    match goal with E : (num =? 0) = false |- _ => apply Z.eqb_neq in E end.
    split; [|done]. exists num. done.
  - unfold decoded. known (IsSet (Get options killSignal_sym)). split; [keep | done].
  - eapply wp_seq;
      [ apply (preserves_wp kill_signal_), ParseStdioOptions_preserves; done |].
    intros c wfin Hf. cbv zeta. wp_branch; [early_return|].
    intros _. cbn beta in Hf. by rewrite Hf.
Qed.

Lemma ParseStdioOptions_preserves_descriptor `{Host} {T} (g : ProcessOptions.t → T)
    js_value :
  (∀ v o, g (ProcessOptions.set_stdio v o) = g o) →
  (∀ v o, g (ProcessOptions.set_stdio_count v o) = g o) →
  preserves (λ r, g (uv_process_options_ r)) (ParseStdioOptions js_value).
Proof.
  intros H1 H2.
  unfold ParseStdioOptions, ParseStdioOption, AddStdioIgnore, AddStdioPipe,
    AddStdioInheritFD, put_pipe, set_container_flags, set_container_data.
  frame; apply preserves_modify; intros r; cbn; auto.
Qed.

(** The last statements of [ParseOptions], for a field [g] of the
    descriptor other than [stdio] and [stdio_count]. *)
Ltac decoder_finish_descriptor g :=
  eapply wp_seq;
  [ apply (preserves_wp (λ r, g (uv_process_options_ r))),
      ParseStdioOptions_preserves_descriptor; done
  | let c := fresh "c" in
    let w' := fresh "w" in
    let Hf := fresh "Hf" in
    intros c w' Hf; cbv zeta; wp_branch; [early_return|];
    intros _; cbn beta in Hf; rewrite Hf ].

Lemma ParseOptions_uid `{Host} options w r w' :
  ParseOptions options w = Ok r w' → r = 0 →
  decoded (Get options uid_sym) 0 (2 ^ 32)
    (ProcessOptions.uid (uv_process_options_ (runner w)))
    (ProcessOptions.uid (uv_process_options_ (runner w'))).
Proof.
  set (f := λ r, ProcessOptions.uid (uv_process_options_ r)).
  change (ParseOptions options w = Ok r w' → r = 0 →
          decoded (Get options uid_sym) 0 (2 ^ 32) (f (runner w)) (f (runner w'))).
  decoder_start w.
  apply (wp_start (λ r, f r = f (runner w))); [reflexivity|].
  intros w0 HF.
  do 2 pass_block (λ r, f r = f (runner w)).
  key_block (λ r, decoded (Get options uid_sym) 0 (2 ^ 32) (f (runner w)) (f r)).
  - unfold decoded. known (IsSet (Get options uid_sym)).
    match goal with
    | E : negb (CheckRange_uv_uid_t _) = false |- _ =>
        apply negb_false_iff, CheckRange_32 in E as (num & -> & Hnum & Hstored & _)
    end.
    exists num. split_and!; try done; try lia.
  - unfold decoded. known (IsSet (Get options uid_sym)). keep.
  - pass_block (λ r, decoded (Get options uid_sym) 0 (2 ^ 32) (f (runner w)) (f r)).
    do 2 pass_seq (λ r, decoded (Get options uid_sym) 0 (2 ^ 32) (f (runner w)) (f r)).
    do 3 pass_block (λ r, decoded (Get options uid_sym) 0 (2 ^ 32) (f (runner w)) (f r)).
    subst f. cbn beta in *. decoder_finish_descriptor ProcessOptions.uid. done.
Qed.

Lemma ParseOptions_gid `{Host} options w r w' :
  ParseOptions options w = Ok r w' → r = 0 →
  decoded (Get options gid_sym) 0 (2 ^ 32)
    (ProcessOptions.gid (uv_process_options_ (runner w)))
    (ProcessOptions.gid (uv_process_options_ (runner w'))).
Proof.
  set (f := λ r, ProcessOptions.gid (uv_process_options_ r)).
  change (ParseOptions options w = Ok r w' → r = 0 →
          decoded (Get options gid_sym) 0 (2 ^ 32) (f (runner w)) (f (runner w'))).
  decoder_start w.
  apply (wp_start (λ r, f r = f (runner w))); [reflexivity|].
  intros w0 HF.
  do 3 pass_block (λ r, f r = f (runner w)).
  key_block (λ r, decoded (Get options gid_sym) 0 (2 ^ 32) (f (runner w)) (f r)).
  - unfold decoded. known (IsSet (Get options gid_sym)).
    match goal with
    | E : negb (CheckRange_uv_gid_t _) = false |- _ =>
        apply negb_false_iff, CheckRange_32 in E as (num & -> & Hnum & Hstored & _)
    end.
    exists num. split_and!; try done; try lia.
  - unfold decoded. known (IsSet (Get options gid_sym)). keep.
  - do 2 pass_seq (λ r, decoded (Get options gid_sym) 0 (2 ^ 32) (f (runner w)) (f r)).
    do 3 pass_block (λ r, decoded (Get options gid_sym) 0 (2 ^ 32) (f (runner w)) (f r)).
    subst f. cbn beta in *. decoder_finish_descriptor ProcessOptions.gid. done.
Qed.

Ltac key_seq P :=
  apply (wp_seq _ _ _ (λ _ w', P (runner w')));
  [ wp_branch; cbn [runner]
  | let w' := fresh "w" in
    let HF := fresh "HF" in
    intros _ w' HF ].

Ltac flags_step :=
  cbn [ProcessOptions.flags uv_process_options_ set_uv_process_options_
       ProcessOptions.set_flags ProcessOptions.set_uid ProcessOptions.set_gid];
  match goal with HF : ProcessOptions.flags _ = _ |- _ => by rewrite HF end.

Lemma ParseOptions_flags `{Host} options w r w' :
  ParseOptions options w = Ok r w' → r = 0 →
  ProcessOptions.flags (uv_process_options_ (runner w'))
  = decoded_flags options (ProcessOptions.flags (uv_process_options_ (runner w))).
Proof.
  unfold decoded_flags.
  set (f0 := ProcessOptions.flags (uv_process_options_ (runner w))).
  set (f1 := if IsSet (Get options uid_sym) then Z.lor f0 UV_PROCESS_SETUID else f0).
  set (f2 := if IsSet (Get options gid_sym) then Z.lor f1 UV_PROCESS_SETGID else f1).
  set (f3 := if BooleanValue (Get options detached_sym)
             then Z.lor f2 UV_PROCESS_DETACHED else f2).
  set (f4 := if BooleanValue (Get options windowsVerbatimArguments_sym)
             then Z.lor f3 UV_PROCESS_WINDOWS_VERBATIM_ARGUMENTS else f3).
  cbv zeta.
  decoder_start w.
  apply (wp_start (λ r, ProcessOptions.flags (uv_process_options_ r) = f0));
    [reflexivity|].
  intros w0 HF.
  do 2 pass_block (λ r, ProcessOptions.flags (uv_process_options_ r) = f0).
  key_block (λ r, ProcessOptions.flags (uv_process_options_ r) = f1).
  1, 2: subst f1; known (IsSet (Get options uid_sym)); flags_step.
  key_block (λ r, ProcessOptions.flags (uv_process_options_ r) = f2).
  1, 2: subst f2; known (IsSet (Get options gid_sym)); flags_step.
  key_seq (λ r, ProcessOptions.flags (uv_process_options_ r) = f3).
  1, 2: subst f3; known (BooleanValue (Get options detached_sym)); flags_step.
  key_seq (λ r, ProcessOptions.flags (uv_process_options_ r) = f4).
  1, 2: subst f4; known (BooleanValue (Get options windowsVerbatimArguments_sym));
    flags_step.
  do 3 pass_block (λ r, ProcessOptions.flags (uv_process_options_ r) = f4).
  decoder_finish_descriptor ProcessOptions.flags. done.
Qed.

Lemma ParseOptions_arrays `{Host} options w r w' :
  ParseOptions options w = Ok r w' → r = 0 →
  IsObject options = true
  ∧ IsArray (Get options args_sym) = true
  ∧ IsArray (Get options stdio_sym) = true.
Proof.
  decoder_start w.
  assert (IsArray (Get options args_sym) = true) as Hargs.
  { match goal with
    | E : CopyJsStringArray _ _ = (?c, _), Hc : negb (is_negative ?c =? 0) = false |- _ =>
        destruct (Get options args_sym); cbn in E; simplify_eq; done
    end. }
  apply (wp_start (λ r, True)); [done|]. intros w0 HF.
  do 4 pass_block (λ r : SyncProcessRunner, True).
  do 2 pass_seq (λ r : SyncProcessRunner, True).
  do 3 pass_block (λ r : SyncProcessRunner, True).
  destruct (IsArray (Get options stdio_sym)) eqn:Hstdio.
  - apply wp_bind, wp_intro. intros c wfin _. cbv zeta. wp_branch; [early_return|done].
  - unfold wp, ParseStdioOptions. rewrite Hstdio. cbn [negb]. run_monad. done.
Qed.

(** X6. Options that [ParseOptions] accepts with code 0 are an object
    whose [args] and [stdio] are arrays.  A [timeout] that is set is a
    number, which need not be an integer: it is finite, its integer part
    lies from 0 to 2^63 - 1, and the integer part is what is stored, so
    1500.5 is stored as 1500 and -0.5 as 0.  The other numeric keys that
    are set hold an integer in the range of their field, which is stored
    as it is: [maxBuffer], [uid] and [gid] from 0 to 2^32 - 1,
    [killSignal] an int32 other than 0.  A key that is undefined or null
    leaves its field alone.  The flags of the descriptor get one bit each
    for [uid], [gid], [detached] and [windowsVerbatimArguments]. *)
Theorem ParseOptions_sound `{Host} (options : JsValue) (w w' : World) :
  ParseOptions options w = Ok 0 w' →
  let old := runner w in
  let new := runner w' in
  IsObject options = true
  ∧ IsArray (Get options args_sym) = true
  ∧ IsArray (Get options stdio_sym) = true
  ∧ decoded_timeout (Get options timeout_sym) (timeout_ old) (timeout_ new)
  ∧ decoded (Get options maxBuffer_sym) 0 (2 ^ 32) (max_buffer_ old) (max_buffer_ new)
  ∧ decoded (Get options killSignal_sym) (- 2 ^ 31) (2 ^ 31)
      (kill_signal_ old) (kill_signal_ new)
  ∧ (IsSet (Get options killSignal_sym) = true → kill_signal_ new ≠ 0)
  ∧ decoded (Get options uid_sym) 0 (2 ^ 32)
      (ProcessOptions.uid (uv_process_options_ old))
      (ProcessOptions.uid (uv_process_options_ new))
  ∧ decoded (Get options gid_sym) 0 (2 ^ 32)
      (ProcessOptions.gid (uv_process_options_ old))
      (ProcessOptions.gid (uv_process_options_ new))
  ∧ ProcessOptions.flags (uv_process_options_ new)
    = decoded_flags options (ProcessOptions.flags (uv_process_options_ old)).
Proof.
  intros Hrun old new.
  destruct (ParseOptions_arrays _ _ _ _ Hrun eq_refl) as (? & ? & ?).
  destruct (ParseOptions_killSignal _ _ _ _ Hrun eq_refl) as (? & ?).
  split_and!; try done.
  - exact (ParseOptions_timeout _ _ _ _ Hrun eq_refl).
  - exact (ParseOptions_maxBuffer _ _ _ _ Hrun eq_refl).
  - exact (ParseOptions_uid _ _ _ _ Hrun eq_refl).
  - exact (ParseOptions_gid _ _ _ _ Hrun eq_refl).
  - exact (ParseOptions_flags _ _ _ _ Hrun eq_refl).
Qed.

Lemma ParseOptions_sound_witness :
  ∃ w',
    @ParseOptions sample_host sample_numeric_options (initial_world (quiet_oracle (λ _, [])))
    = Ok 0 w'
    ∧ Get sample_numeric_options timeout_sym = JsDouble (Fraction 1500 1)
    ∧ timeout_ (runner w') = 1500
    ∧ decoded (JsNumber 4294967294) 0 (2 ^ 32) 0
        (ProcessOptions.uid (uv_process_options_ (runner w')))
    ∧ ProcessOptions.flags (uv_process_options_ (runner w')) = 11.
Proof.
  pose (w0 := initial_world (quiet_oracle (λ _, []))).
  pose (w' := match @ParseOptions sample_host sample_numeric_options w0 with
              | Ok _ w' => w' | Abort => w0 end).
  assert (Hrun : @ParseOptions sample_host sample_numeric_options w0 = Ok 0 w')
    by (vm_compute; reflexivity).
  exists w'. split; [exact Hrun|].
  destruct (@ParseOptions_sound sample_host sample_numeric_options w0 w' Hrun)
    as (_ & _ & _ & Ht & _ & _ & _ & Hu & _ & Hf).
  split; [reflexivity|].
  split; [|split; [exact Hu | exact Hf]].
  destruct Ht as (t & _ & Hpart & _ & ->).
  change (Some (Z.quot 3001 2) = Some t) in Hpart.
  by injection Hpart as <-.
Defined.

(** *** Options that are turned down *)

Lemma wp_total_ret {A} (a : A) (Q : A → World → Prop) w : Q a w → wp_total (mret a) Q w.
Proof. done. Qed.

Lemma wp_total_bind {A B} (m : M A) (k : A → M B) (Q : B → World → Prop) w :
  wp_total m (λ a w', wp_total (k a) Q w') w → wp_total (m ≫= k) Q w.
Proof.
  unfold wp_total. change ((m ≫= k) w) with (M_bind _ _ k m w). unfold M_bind.
  by destruct (m w).
Qed.

Lemma wp_total_mono {A} (m : M A) (Q Q' : A → World → Prop) w :
  wp_total m Q w → (∀ a w', Q a w' → Q' a w') → wp_total m Q' w.
Proof. unfold wp_total. destruct (m w); [auto | done]. Qed.

Lemma wp_total_elim {A} (m : M A) (Q : A → World → Prop) w :
  wp_total m Q w → ∃ a w', m w = Ok a w' ∧ Q a w'.
Proof. unfold wp_total. destruct (m w) as [a w'|]; [eauto | done]. Qed.

Lemma wp_total_modify g (Q : unit → World → Prop) w :
  Q () (mkWorld (g (runner w)) (uv_log w) (uv_oracle w)) → wp_total (modify_runner g) Q w.
Proof. done. Qed.

Lemma wp_total_get_runner (Q : SyncProcessRunner → World → Prop) w :
  Q (runner w) w → wp_total get_runner Q w.
Proof. done. Qed.

Lemma wp_total_block (block : M (option Z)) (rest : M Z) (Q : Z → World → Prop)
    (R : option Z → World → Prop) w :
  wp_total block R w →
  (∀ r w', R (Some r) w' → Q r w') →
  (∀ w', R None w' → wp_total rest Q w') →
  wp_total (returned ← block; match returned with Some r => mret r | None => rest end) Q w.
Proof.
  intros Hblock Hret Hrest. apply wp_total_bind. eapply wp_total_mono; [exact Hblock|].
  intros [r|] w' HR; [apply wp_total_ret; by apply Hret | by apply Hrest].
Qed.

Lemma wp_total_seq {A B} (m : M A) (k : A → M B) (Q : B → World → Prop)
    (R : A → World → Prop) w :
  wp_total m R w → (∀ a w', R a w' → wp_total (k a) Q w') → wp_total (m ≫= k) Q w.
Proof. intros Hm Hk. apply wp_total_bind. by eapply wp_total_mono. Qed.

Ltac wp_total_branch :=
  repeat
    (cbn [runner uv_log uv_oracle];
     lazymatch goal with
     | |- wp_total (mret _) _ _ => apply wp_total_ret
     | |- wp_total (mbind _ _) _ _ => apply wp_total_bind
     | |- wp_total (modify_runner _) _ _ => apply wp_total_modify
     | |- wp_total get_runner _ _ => apply wp_total_get_runner
     | |- wp_total (modify_options _) _ _ => unfold modify_options
     | |- wp_total (or_flag _) _ _ => unfold or_flag, modify_options
     | |- wp_total (let _ := _ in _) _ _ => cbv zeta
     | |- wp_total (if ?c then _ else _) _ _ => destruct c eqn:?
     | |- wp_total (match ?x with _ => _ end) _ _ => destruct x eqn:?
     end).

Lemma CopyJsStringArray_code `{Host} v target :
  fst (CopyJsStringArray v target) = if IsArray v then 0 else UV_EINVAL.
Proof. by destruct v. Qed.

Lemma CopyJsString_code `{Host} v target : fst (CopyJsString v target) = 0.
Proof. done. Qed.

Ltac at_block_total :=
  lazymatch goal with |- wp_total (@mbind _ _ (option Z) _ _ _) _ _ => idtac end.

Ltac wp_total_upto_block :=
  repeat
    (tryif at_block_total then fail
     else
       (cbn [runner uv_log uv_oracle];
        lazymatch goal with
        | |- wp_total (mret _) _ _ => apply wp_total_ret
        | |- wp_total (mbind _ _) _ _ => apply wp_total_bind
        | |- wp_total (modify_runner _) _ _ => apply wp_total_modify
        | |- wp_total get_runner _ _ => apply wp_total_get_runner
        | |- wp_total (let _ := _ in _) _ _ => cbv zeta
        end)).

Ltac same_tac :=
  match goal with
  | HF : same_but_decoded _ _ |- _ =>
      let Hu := fresh in
      let Hl := fresh in
      let Ho := fresh in
      destruct HF as (Hu & Hl & Ho); split_and!; [exact Hu | exact Hl | exact Ho]
  end.

Ltac by_bools :=
  cbn [kill_signal_ set_kill_signal_] in *;
  rewrite ?Z.leb_antisym;
  repeat match goal with
         | E : negb _ = true |- _ => apply negb_true_iff in E
         | E : negb _ = false |- _ => apply negb_false_iff in E
         end;
  repeat match goal with
         | E : ?c = _ |- context [?c] => rewrite E
         end;
  done.

(** A block of the decoder that returns [UV_EINVAL] or finds [valid]. *)
Ltac check_block w valid :=
  apply (wp_total_block _ _ _ (checked_post (same_but_decoded w) valid));
  [ wp_total_branch; unfold checked_post;
    (split; [same_tac | first [by left | right; split; [done|]; by_bools]])
  | let r := fresh "r" in
    let w' := fresh "w" in
    let HF := fresh "HF" in
    intros r w' [HF [[= ->]|[[=] _]]]; by split
  | let w' := fresh "w" in
    let HF := fresh "HF" in
    let HV := fresh "HV" in
    intros w' [HF [[=]|[_ HV]]] ].

Ltac same_seq w :=
  apply (wp_total_seq _ _ _ (λ _ w', same_but_decoded w w'));
  [ wp_total_branch; same_tac
  | let w' := fresh "w" in
    let HF := fresh "HF" in
    intros _ w' HF ].

Lemma ParseOptions_rejects_numeric `{Host} options w :
  IsObject options = true →
  IsArray (Get options args_sym) = true →
  negb (IsSet (Get options envPairs_sym)) || IsArray (Get options envPairs_sym) = true →
  numeric_keys_valid options = false →
  wp_total (ParseOptions options) (λ r w', r = UV_EINVAL ∧ same_but_decoded w w') w.
Proof.
  intros Hobj Hargs Henv Hnum.
  unfold ParseOptions. rewrite Hobj. cbn [negb]. cbv zeta.
  unfold CopyJsString. cbn beta iota zeta.
  destruct (Get options args_sym) as [| | | | | |elems| |] eqn:Eargs; try discriminate Hargs.
  cbn [CopyJsStringArray]. change (is_negative 0) with 0. cbn [Z.eqb negb].
  wp_total_upto_block.
  match goal with
  | |- wp_total _ _ ?W =>
      assert (same_but_decoded w W) as HF by done; generalize dependent W
  end.
  intros w0 HF.
  check_block w true.
  destruct (IsSet (Get options envPairs_sym)) eqn:Eset;
    [ cbn [negb orb] in Henv;
      destruct (Get options envPairs_sym) eqn:Eenv; try discriminate Henv;
      cbn [CopyJsStringArray]; change (is_negative 0) with 0; cbn [Z.eqb negb]
    | ];
    check_block w true.
  all: check_block w (negb (IsSet (Get options uid_sym))
                      || CheckRange_uv_uid_t (Get options uid_sym)).
  all: check_block w (negb (IsSet (Get options gid_sym))
                      || CheckRange_uv_gid_t (Get options gid_sym)).
  all: do 2 same_seq w.
  all: check_block w (negb (IsSet (Get options timeout_sym))
                      || (IsNumber (Get options timeout_sym)
                          && (0 <=? IntegerValue (Get options timeout_sym)))).
  all: check_block w (negb (IsSet (Get options maxBuffer_sym))
                      || CheckRange_uint32_t (Get options maxBuffer_sym)).
  all: check_block w (negb (IsSet (Get options killSignal_sym))
                      || (IsInt32 (Get options killSignal_sym)
                          && negb (Int32Value (Get options killSignal_sym) =? 0))).
  all: exfalso; unfold numeric_keys_valid in Hnum; cbv zeta beta in Hnum.
  all: repeat match goal with HV : true = true |- _ => clear HV end.
  all: repeat match goal with HV : _ = true |- _ => rewrite HV in Hnum; clear HV end.
  all: discriminate Hnum.
Qed.

Lemma ParseOptions_rejects `{Host} options w :
  rejected options = true →
  ∃ w', ParseOptions options w = Ok UV_EINVAL w' ∧ same_but_decoded w w'.
Proof.
  intros Hrej. unfold rejected in Hrej.
  destruct (IsObject options) eqn:Hobj.
  - cbn [negb orb] in Hrej.
    apply andb_prop in Hrej as [Hrej Hnum]. apply andb_prop in Hrej as [Hargs Henv].
    apply negb_true_iff in Hnum.
    destruct (wp_total_elim _ _ _ (ParseOptions_rejects_numeric options w Hobj Hargs Henv Hnum))
      as (r & w' & Hrun & -> & Hsame).
    by exists w'.
  - exists w. unfold ParseOptions. rewrite Hobj. done.
Qed.

Lemma BuildResultObject_not_started `{Host} this :
  exit_status_ this < 0 → term_signal_ this ≤ 0 → GetError this ≠ 0 →
  BuildResultObject this
  = Some (JsObject [(error_sym, JsNumber (GetError this)); (status_sym, JsNull);
                    (signal_sym, JsNull); (output_sym, JsNull)]).
Proof.
  intros Hexit Hterm Herr. unfold BuildResultObject.
  apply Z.eqb_neq in Herr. rewrite Herr. cbn [negb].
  assert ((0 <=? exit_status_ this) = false) as -> by (apply Z.leb_gt; lia).
  assert ((0 <? term_signal_ this) = false) as -> by (apply Z.ltb_ge; lia).
  reflexivity.
Qed.

(** X7. Options that are no object, or in which a numeric key that is set
    fails its check while [args] and [envPairs] can be copied, are turned
    down before anything is started.  The checks: [uid], [gid] and
    [maxBuffer] are integers from 0 to 2^32 - 1; [killSignal] is an int32
    other than 0; [timeout] is a number whose conversion to [int64_t] is
    not negative, so a timeout of -1.5 is turned down and one of -0.5,
    which is cut to 0, is not.  When libuv makes the loop, and the run of
    the loop in the teardown succeeds and delivers no callback,
    [spawnSync] then reports [UV_EINVAL] with null status, signal and
    output, makes no pipe, and calls libuv only to make, run and delete
    the loop. *)
Theorem rejected_options_no_spawn `{Host} (options : JsValue) (oracle : UvOracle) :
  rejected options = true →
  0 ≤ uv_ret oracle uv_loop_new 0 →
  0 ≤ uv_ret oracle uv_run 1 →
  uv_events oracle 1 = [] →
  ∃ w',
    Spawn options oracle
    = Ok (JsObject [(error_sym, JsNumber UV_EINVAL); (status_sym, JsNull);
                    (signal_sym, JsNull); (output_sym, JsNull)]) w'
    ∧ uv_log w' = [uv_loop_new; uv_run; uv_loop_delete]
    ∧ pipes_ (runner w') = None.
Proof.
  intros Hrej Hloop Hrun Hev.
  apply Z.ltb_ge in Hloop. apply Z.ltb_ge in Hrun.
  set (w0 := mkWorld SyncProcessRunner_new [] oracle).
  set (w1 := mkWorld (set_uv_loop_ true (set_lifecycle_ kInitialized SyncProcessRunner_new))
               [uv_loop_new] oracle).
  destruct (ParseOptions_rejects options w1 Hrej) as (w2 & Hparse & Hu & Hlog & Horacle).
  unfold undecoded in Hu. cbn in Hu.
  injection Hu as Hpipes Hcont Hcount Hlife Htimer Hl Hkilled Herr Hperr Hexit Hterm.
  set (w3 := mkWorld (set_error_ UV_EINVAL (runner w2)) [uv_loop_new] oracle).
  assert (TryInitializeAndRunLoop options w0 = Ok () w3) as Htry.
  { unfold TryInitializeAndRunLoop.
    repeat progress
      (run_monad; cbn -[Z.ltb ParseOptions];
       rewrite ?(bool_decide_true (kUninitialized = kUninitialized)) by done;
       rewrite ?Hloop).
    cbn [negb]. fold w1. rewrite Hparse. change (UV_EINVAL <? 0) with true. cbn iota beta.
    unfold SetError. rewrite Herr. cbn [Z.eqb]. unfold w3. by rewrite Hlog, Horacle. }
  set (w4 := mkWorld (set_lifecycle_ kHandlesClosed (runner w3))
               [uv_loop_new; uv_run; uv_loop_delete] oracle).
  assert (CloseHandlesAndDeleteLoop w3 = Ok () w4) as Hclose.
  { unfold CloseHandlesAndDeleteLoop, uv_run_default, uv_scripted_events, w4, w3.
    repeat progress
      (run_monad;
       cbn [lifecycle_ pipes_ kill_timer_initialized_ uv_loop_ set_error_ set_lifecycle_
            length app dispatch_all];
       rewrite ?Hlife, ?Hpipes, ?Htimer, ?Hl, ?Hev, ?Hrun;
       change (Lifecycle_rank kInitialized <? Lifecycle_rank kHandlesClosed) with true;
       cbn beta iota).
    reflexivity. }
  exists w4. split; [|done].
  unfold Spawn, Run. fold w0.
  repeat progress
    (run_monad; cbn [w0 lifecycle_ SyncProcessRunner_new];
     rewrite ?(bool_decide_true (kUninitialized = kUninitialized)) by done).
  rewrite Htry. rewrite Hclose.
  rewrite BuildResultObject_not_started.
  - unfold SyncProcessRunner_delete, w4, w3. run_monad.
    cbn [runner lifecycle_ set_lifecycle_ pipes_ set_error_].
    rewrite (bool_decide_true (kHandlesClosed = kHandlesClosed)) by done.
    rewrite Hpipes. reflexivity.
  - unfold w4, w3. cbn. rewrite Hexit. lia.
  - unfold w4, w3. cbn. rewrite Hterm. lia.
  - unfold w4, w3. cbn. done.
Qed.

Lemma rejected_options_no_spawn_witness :
  ∃ w',
    @Spawn sample_host sample_zero_signal_options (quiet_oracle (λ _, []))
    = Ok (JsObject [(error_sym, JsNumber UV_EINVAL); (status_sym, JsNull);
                    (signal_sym, JsNull); (output_sym, JsNull)]) w'
    ∧ uv_log w' = [uv_loop_new; uv_run; uv_loop_delete]
    ∧ pipes_ (runner w') = None.
Proof.
  apply (@rejected_options_no_spawn sample_host sample_zero_signal_options
           (quiet_oracle (λ _, []))).
  - vm_compute. reflexivity.
  - vm_compute. discriminate.
  - vm_compute. discriminate.
  - reflexivity.
Defined.

(** ** The callbacks of the runner *)

(** X8. When the kill timer fires on a runner without a primary error,
    the runner reports [UV_ETIMEDOUT], also when the delivery of the
    signal fails: the timeout is recorded before the kill, so the error of
    the kill cannot take its place.  The child is killed with the calls of
    a first [Kill]; a runner that was killed before gets the error and no
    call.  A timer callback with a status other than 0 ends the process. *)
Theorem timeout_is_reported (w : World) :
  let this := runner w in
  let r := uv_ret (uv_oracle w) (uv_process_kill (kill_signal_ this)) (length (uv_log w)) in
  error_ this = 0 →
  timer_consistent this →
  kill_contract (uv_oracle w) →
  (∃ w',
     OnKillTimerTimeout 0 w = Ok () w'
     ∧ error_ (runner w') = UV_ETIMEDOUT
     ∧ GetError (runner w') = UV_ETIMEDOUT
     ∧ killed_ (runner w') = true
     ∧ uv_log w'
       = uv_log w ++ (if killed_ this then [] else kill_calls this (kill_failed r)))
  ∧ ∀ status, status ≠ 0 → OnKillTimerTimeout status w = Abort.
Proof.
  intros this r Herr Htimer [Hretry Hstop]. subst this r. split.
  - unfold OnKillTimerTimeout. run_monad. cbn [Z.eqb].
    set (w1 := mkWorld (SetError UV_ETIMEDOUT (runner w)) (uv_log w) (uv_oracle w)).
    destruct (SetError_frame UV_ETIMEDOUT (runner w)) as (Hf1 & Hf2 & Hf3 & Hf4 & _).
    assert (error_ (SetError UV_ETIMEDOUT (runner w)) = UV_ETIMEDOUT) as Herr1.
    { rewrite error_SetError. by rewrite Herr. }
    destruct (killed_ (runner w)) eqn:Hk.
    + rewrite (Kill_killed w1) by exact Hf3.
      exists w1. split; [done|]. unfold w1. cbn [runner uv_log].
      split_and!; try done.
      * unfold GetError. by rewrite Herr1.
      * by rewrite app_nil_r.
    + pose proof (Kill_first w1) as Hkill.
      unfold w1 in Hkill. cbn [runner uv_log uv_oracle] in Hkill.
      rewrite Hf1, Hf2, Hf3, Hf4 in Hkill.
      unfold w1. rewrite Hkill; [|done|exact Htimer|intros Hf; apply (Hretry _ _ Hf)|done].
      eexists. split; [reflexivity|]. cbn [runner uv_log].
      set (r := uv_ret (uv_oracle w) (uv_process_kill (kill_signal_ (runner w)))
                  (length (uv_log w))).
      assert (error_ ((if kill_failed r then SetError r else id)
                        (set_killed_ true (SetError UV_ETIMEDOUT (runner w))))
              = UV_ETIMEDOUT) as Herr2.
      { destruct (kill_failed r); cbn [id]; [|exact Herr1].
        rewrite error_SetError. cbn [error_ set_killed_]. by rewrite Herr1. }
      split_and!; try done.
      * unfold GetError. by rewrite Herr2.
      * destruct (kill_failed r); cbn [id]; [|done].
        by destruct (SetError_frame r (set_killed_ true (SetError UV_ETIMEDOUT (runner w))))
          as (_ & _ & -> & _).
      * unfold kill_calls. by rewrite Hf4, Hf1.
  - intros status Hne. unfold OnKillTimerTimeout. run_monad.
    apply Z.eqb_neq in Hne. by rewrite Hne.
Qed.

Lemma timeout_is_reported_witness :
  ∃ w',
    OnKillTimerTimeout 0 sample_timed = Ok () w'
    ∧ error_ (runner w') = UV_ETIMEDOUT
    ∧ GetError (runner w') = UV_ETIMEDOUT
    ∧ killed_ (runner w') = true
    ∧ uv_log w' = [uv_process_kill SIGTERM; uv_process_kill SIGTERM; uv_timer_stop].
Proof.
  apply (proj1 (timeout_is_reported sample_timed eq_refl eq_refl
                  (conj (λ sig n Hf,
                           match n with
                           | O => or_introl (Z.le_refl 0)
                           | S _ => or_introl (Z.le_refl 0)
                           end)
                        (λ n, eq_refl)))).
Defined.

Lemma Get_status_signal_result `{Host} (this : SyncProcessRunner) result :
  BuildResultObject this = Some result →
  Get result status_sym
  = (if 0 <=? exit_status_ this
     then JsNumber (int64_to_double (exit_status_ this)) else JsNull)
  ∧ Get result signal_sym
    = (if 0 <? term_signal_ this
       then JsString (signo_string (term_signal_ this)) else JsNull).
Proof.
  unfold BuildResultObject.
  destruct (GetError this =? 0), (0 <=? exit_status_ this), (0 <? term_signal_ this);
    cbn [negb]; try destruct (BuildOutputArray this); cbn [mbind option_bind];
    intros [= <-]; split; reflexivity.
Qed.

(** X9. The exit callback with a status that is not negative stores the
    status and the signal, leaves the errors alone and stops the kill
    timer when there is one; the result then carries that status, and the
    name of the signal when the signal is positive.  With a negative
    status it records the status as the primary error and nothing else:
    the exit status stays as it was and the timer is not stopped. *)
Theorem exit_is_reported `{Host} (w : World) (exit_status term_signal : Z) :
  let this := runner w in
  timer_consistent this →
  (∀ n, uv_ret (uv_oracle w) uv_timer_stop n = 0) →
  (0 ≤ exit_status →
   ∃ w',
     OnExit exit_status term_signal w = Ok () w'
     ∧ exit_status_ (runner w') = exit_status
     ∧ term_signal_ (runner w') = term_signal
     ∧ error_ (runner w') = error_ this
     ∧ pipe_error_ (runner w') = pipe_error_ this
     ∧ uv_log w' = uv_log w ++ (if kill_timer_initialized_ this then [uv_timer_stop] else [])
     ∧ ∀ result,
         exit_status ≤ 2 ^ 53 →
         BuildResultObject (runner w') = Some result →
         Get result status_sym = JsNumber exit_status
         ∧ Get result signal_sym
           = (if 0 <? term_signal then JsString (signo_string term_signal) else JsNull))
  ∧ (exit_status < 0 →
     OnExit exit_status term_signal w
     = Ok () (mkWorld (SetError (to_int exit_status) this) (uv_log w) (uv_oracle w))
     ∧ exit_status_ (SetError (to_int exit_status) this) = exit_status_ this).
Proof.
  intros this Htimer Hstop. subst this. split.
  - intros Hpos. unfold OnExit.
    assert ((exit_status <? 0) = false) as -> by (apply Z.ltb_ge; lia).
    run_monad.
    set (w1 := mkWorld (set_term_signal_ term_signal
                          (set_exit_status_ exit_status (runner w)))
                 (uv_log w) (uv_oracle w)).
    assert (∃ w', StopKillTimer w1 = Ok () w'
                  ∧ runner w' = runner w1
                  ∧ uv_log w'
                    = uv_log w ++ (if kill_timer_initialized_ (runner w)
                                   then [uv_timer_stop] else [])) as (w' & Hrun & Hr & Hl).
    { destruct (kill_timer_initialized_ (runner w)) eqn:Hk.
      - rewrite (StopKillTimer_timer w1); [by eexists | exact Htimer | exact Hk | apply Hstop].
      - rewrite (StopKillTimer_no_timer w1); [|exact Htimer | exact Hk].
        exists w1. by rewrite app_nil_r. }
    exists w'. split; [exact Hrun|]. rewrite Hr. unfold w1. cbn [runner].
    split_and!; try done.
    intros result Hle Hbuild.
    apply Get_status_signal_result in Hbuild as [Hs Ht].
    cbn [runner exit_status_ term_signal_ set_term_signal_ set_exit_status_] in Hs, Ht.
    assert ((0 <=? exit_status) = true) as Hle0 by (apply Z.leb_le; lia).
    rewrite Hle0, int64_to_double_exact in Hs by lia. done.
  - intros Hneg. unfold OnExit.
    assert ((exit_status <? 0) = true) as -> by (apply Z.ltb_lt; lia).
    split; [done|]. unfold SetError. by case_match.
Qed.

Lemma exit_is_reported_witness :
  ∃ w',
    OnExit 3 0 sample_timed = Ok () w'
    ∧ exit_status_ (runner w') = 3
    ∧ term_signal_ (runner w') = 0
    ∧ uv_log w' = [uv_timer_stop].
Proof.
  destruct (proj1 (@exit_is_reported sample_host sample_timed 3 0 eq_refl (λ n, eq_refl)))
    as (w' & Hrun & Hs & Ht & _ & _ & Hl & _); [lia|].
  exists w'. split; [exact Hrun|]. split; [exact Hs|]. split; [exact Ht | exact Hl].
Defined.

(** ** The lifecycle of a pipe *)

(** X10. [Close] is for a pipe that is initialized or started: it asks
    libuv once to close the handle and moves the pipe to [kClosing].  In
    any other state, the state after a [Close] included, [Close] fails its
    assertion, and so does [Start] after a [Close]: a handle is closed at
    most once.  The close callback then moves the pipe to [kClosed], the
    state the destructor asks for. *)
Theorem pipe_is_closed_once (w : World) (i : nat) (p : StdioPipe.t) :
  let open :=
    bool_decide (StdioPipe.lifecycle_ p = StdioPipe.kInitialized)
    || bool_decide (StdioPipe.lifecycle_ p = StdioPipe.kStarted) in
  pipe_of w i = Some p →
  (open = false → SyncProcessStdioPipe_Close i w = Abort)
  ∧ (open = true →
     ∃ w' w'',
       SyncProcessStdioPipe_Close i w = Ok () w'
       ∧ pipe_of w' i = Some (StdioPipe.set_lifecycle_ StdioPipe.kClosing p)
       ∧ uv_log w' = uv_log w ++ [uv_close_pipe (StdioPipe.self p)]
       ∧ SyncProcessStdioPipe_Close i w' = Abort
       ∧ SyncProcessStdioPipe_Start i w' = Abort
       ∧ SyncProcessStdioPipe_OnClose i w' = Ok () w''
       ∧ pipe_of w'' i = Some (StdioPipe.set_lifecycle_ StdioPipe.kClosed p)
       ∧ uv_log w'' = uv_log w'
       ∧ pipe_destructible (Some (StdioPipe.set_lifecycle_ StdioPipe.kClosed p)) = true).
Proof.
  intros open Hpipe. subst open. split.
  - intros Hopen. unfold SyncProcessStdioPipe_Close.
    rewrite (bind_ok _ _ _ _ _ (get_pipe_ok _ _ _ Hpipe)). rewrite Hopen. done.
  - intros Hopen.
    set (p1 := StdioPipe.set_lifecycle_ StdioPipe.kClosing p).
    set (w0 := mkWorld (runner w) (uv_log w ++ [uv_close_pipe (StdioPipe.self p)])
                 (uv_oracle w)).
    set (w1 := put_pipe_world i p1 w0).
    assert (pipe_of w0 i = Some p) as Hpipe0 by exact Hpipe.
    assert (pipe_of w1 i = Some p1) as Hpipe1 by exact (pipe_of_put _ _ _ _ Hpipe0).
    exists w1, (put_pipe_world i (StdioPipe.set_lifecycle_ StdioPipe.kClosed p1) w1).
    split_and!.
    + unfold SyncProcessStdioPipe_Close.
      rewrite (bind_ok _ _ _ _ _ (get_pipe_ok _ _ _ Hpipe)). rewrite Hopen.
      run_monad. unfold StdioPipe.uv_pipe.
      assert ((StdioPipe.Lifecycle_rank (StdioPipe.lifecycle_ p)
               <? StdioPipe.Lifecycle_rank StdioPipe.kClosing) = true) as ->.
      { destruct (StdioPipe.lifecycle_ p); try done. }
      run_monad. fold w0. by rewrite put_pipe_ok.
    + exact Hpipe1.
    + done.
    + unfold SyncProcessStdioPipe_Close.
      rewrite (bind_ok _ _ _ _ _ (get_pipe_ok _ _ _ Hpipe1)). done.
    + unfold SyncProcessStdioPipe_Start.
      rewrite (bind_ok _ _ _ _ _ (get_pipe_ok _ _ _ Hpipe1)). done.
    + unfold SyncProcessStdioPipe_OnClose.
      rewrite (bind_ok _ _ _ _ _ (get_pipe_ok _ _ _ Hpipe1)). by rewrite put_pipe_ok.
    + by rewrite (pipe_of_put _ _ _ _ Hpipe1).
    + done.
    + done.
Qed.

Lemma pipe_is_closed_once_witness :
  ∃ w' w'',
    SyncProcessStdioPipe_Close 1 sample_running = Ok () w'
    ∧ uv_log w' = [uv_close_pipe 1]
    ∧ SyncProcessStdioPipe_Close 1 w' = Abort
    ∧ SyncProcessStdioPipe_OnClose 1 w' = Ok () w''.
Proof.
  destruct (proj2 (pipe_is_closed_once sample_running 1 sample_stdout_pipe eq_refl) eq_refl)
    as (w' & w'' & Hclose & _ & Hlog & Hagain & _ & Hcb & _).
  exists w', w''. split; [exact Hclose|]. split; [exact Hlog|]. split; [exact Hagain|].
  exact Hcb.
Defined.

(** ** A capture buffer *)

(** X11. A capture buffer with room hands out the free part of its array,
    from [used()] on and [available()] bytes long, and takes back exactly
    that region: a read of [nread] bytes into it moves [used()] up by
    [nread] and shrinks [available()] as much, leaving the bytes stored
    before in place.  After a read of at least one byte the same region
    handed back a second time fails the assertion; after a read of no
    byte the region is still the free part, and the buffer takes it
    again.  A full buffer hands out no memory at all. *)
Theorem buffer_hands_out_each_region_once (self : nat) (b : OutputBuffer.t)
    (suggested_size nread again : Z) :
  let buf := OutputBuffer.OnAlloc self b suggested_size in
  0 ≤ OutputBuffer.used b ≤ OutputBuffer.kBufferSize →
  (OutputBuffer.used b = OutputBuffer.kBufferSize → buf = uv_buf_init NullPtr 0
     ∧ OutputBuffer.OnRead self b buf nread = None)
  ∧ (OutputBuffer.used b < OutputBuffer.kBufferSize →
     0 ≤ nread ≤ OutputBuffer.available b →
     buf = uv_buf_init (ChunkPtr self (OutputBuffer.used b))
             (OutputBuffer.kBufferSize - OutputBuffer.used b)
     ∧ ∃ b',
         OutputBuffer.OnRead self b buf nread = Some b'
         ∧ OutputBuffer.used b' = OutputBuffer.used b + nread
         ∧ OutputBuffer.available b' = OutputBuffer.available b - nread
         ∧ OutputBuffer.data_ b' = OutputBuffer.data_ b
         ∧ OutputBuffer.next b' = OutputBuffer.next b
         ∧ (0 < nread → OutputBuffer.OnRead self b' buf again = None)
         ∧ (nread = 0 →
            OutputBuffer.OnAlloc self b' suggested_size = buf
            ∧ ∃ b'', OutputBuffer.OnRead self b' buf again = Some b'')).
Proof.
  intros buf Hused. subst buf. unfold OutputBuffer.OnAlloc. split.
  - intros Hfull. rewrite Hfull, Z.eqb_refl. split; [done|].
    unfold OutputBuffer.OnRead. cbn [base]. by rewrite bool_decide_false.
  - intros Hroom Hn.
    assert ((OutputBuffer.used b =? OutputBuffer.kBufferSize) = false) as Hnotfull
      by (apply Z.eqb_neq; lia).
    rewrite Hnotfull.
    rewrite available_spec in * by done.
    split; [done|].
    unfold OutputBuffer.OnRead. cbn [base]. rewrite bool_decide_true by done.
    unfold OutputBuffer.kBufferSize, OutputBuffer.used in *.
    assert (to_unsigned_int (OutputBuffer.used_ b + to_unsigned_int nread)
            = OutputBuffer.used_ b + nread) as Hnew.
    { rewrite (to_unsigned_int_small nread) by lia. apply to_unsigned_int_small. lia. }
    eexists. split; [reflexivity|]. cbn [OutputBuffer.used_ OutputBuffer.data_].
    split_and!; try done.
    + unfold OutputBuffer.available, OutputBuffer.used, OutputBuffer.kBufferSize.
      cbn [OutputBuffer.used_]. rewrite Hnew.
      rewrite to_size_t_small, to_unsigned_int_small by lia. lia.
    + intros Hpos. rewrite Hnew. rewrite bool_decide_false; [done|]. intros [= Heq]. lia.
    + intros ->. rewrite Hnew, Z.add_0_r. rewrite Hnotfull.
      unfold OutputBuffer.available, OutputBuffer.used, OutputBuffer.kBufferSize.
      cbn [OutputBuffer.used_].
      rewrite to_size_t_small, to_unsigned_int_small by lia.
      split; [done|]. rewrite bool_decide_true by done. eauto.
Qed.

Lemma buffer_hands_out_each_region_once_witness :
  ∃ b',
    OutputBuffer.OnRead 0 OutputBuffer.new (OutputBuffer.OnAlloc 0 OutputBuffer.new 65536) 100
    = Some b'
    ∧ OutputBuffer.used b' = 100
    ∧ OutputBuffer.available b' = 65436
    ∧ OutputBuffer.OnRead 0 b' (OutputBuffer.OnAlloc 0 OutputBuffer.new 65536) 5 = None.
Proof.
  destruct (proj2 (buffer_hands_out_each_region_once 0 OutputBuffer.new 65536 100 5
                     ltac:(vm_compute; split; discriminate)))
    as (_ & b' & Hread & Hu & Ha & _ & _ & Hagain & _).
  - vm_compute. reflexivity.
  - vm_compute. split; discriminate.
  - exists b'. split; [exact Hread|]. split; [exact Hu|]. split; [exact Ha|].
    apply Hagain. reflexivity.
Defined.

(** ** The stdio plan *)

Lemma StrictEquals_one v s s' : StrictEquals v s = true → s ≠ s' → StrictEquals v s' = false.
Proof.
  destruct v; try done. cbn. intros Hs%bool_decide_eq_true Hne. subst.
  by apply bool_decide_eq_false.
Qed.

Lemma containers_set_flags i f r cs :
  uv_stdio_containers_ r = Some cs →
  uv_stdio_containers_ (set_container_flags i f r)
  = Some (<[i := Some (StdioContainer.mk f
                         (default StdioContainer.NoData
                            (StdioContainer.data <$> mjoin (cs !! i))))]> cs).
Proof. intros Hcs. unfold set_container_flags. cbn. by rewrite Hcs. Qed.

Lemma containers_set_data i d r cs :
  uv_stdio_containers_ r = Some cs →
  uv_stdio_containers_ (set_container_data i d r)
  = Some (<[i := Some (StdioContainer.mk
                         (default 0 (StdioContainer.flags <$> mjoin (cs !! i))) d)]> cs).
Proof. intros Hcs. unfold set_container_data. cbn. by rewrite Hcs. Qed.

Lemma ParseStdioOption_spec `{Host} (i : nat) (e : JsValue) (w : World) ps cs :
  pipes_ (runner w) = Some ps →
  uv_stdio_containers_ (runner w) = Some cs →
  (i < length cs)%nat →
  cs !! i = Some None →
  wp (ParseStdioOption i e)
     (λ r w',
        (r = 0
         ∧ ∃ slot c,
             decoded_stdio_entry i e = Some (slot, c)
             ∧ pipes_ (runner w') = Some (<[i := slot]> ps)
             ∧ uv_stdio_containers_ (runner w') = Some (<[i := Some c]> cs)
             ∧ uv_log w'
               = uv_log w ++ (if StrictEquals (Get e type_sym) pipe_sym
                              then [uv_pipe_init i] else []))
        ∨ (r < 0
           ∧ pipes_ (runner w') = Some ps
           ∧ uv_stdio_containers_ (runner w') = Some cs)) w.
Proof.
  intros Hps Hcs Hi Hfree.
  unfold ParseStdioOption, decoded_stdio_entry. cbv zeta.
  destruct (StrictEquals (Get e type_sym) ignore_sym) eqn:Hignore.
  { rewrite (StrictEquals_one _ _ pipe_sym Hignore) by done.
    unfold AddStdioIgnore, assert_free_slot, pipes_at. wp_branch.
    left. split; [done|]. eexists _, _. split; [reflexivity|].
    rewrite Hps in *. cbn [mbind option_bind] in *. destruct a; [done|].
    cbn [runner uv_log]. rewrite (containers_set_flags _ _ _ _ Hcs), Hfree.
    split_and!; try done.
    - unfold set_container_flags. cbn. rewrite Hps. by rewrite list_insert_id.
    - by rewrite app_nil_r. }
  destruct (StrictEquals (Get e type_sym) pipe_sym) eqn:Hpipe.
  { unfold AddStdioPipe, assert_free_slot, pipes_at, SyncProcessStdioPipe_Initialize,
      put_pipe, StdioPipe.new.
    wp_branch. all: try discriminate.
    all: try match goal with
         | Hneg : (uv_ret _ _ _ <? 0) = true |- _ =>
             right; apply Z.ltb_lt in Hneg; split; [exact Hneg|]; by split
         end.
    all: left.
    all: rewrite Hps in *; cbn [mbind option_bind] in *.
    all: match goal with Ha : match ?a with Some _ => false | None => true end = true |- _ =>
           destruct a; [discriminate Ha|] end.
    all: match goal with
         | Hnew : (if ?c then Some ?p else None) = Some ?a0 |- _ =>
             destruct c eqn:Hrw; [|discriminate Hnew]; injection Hnew as <-
         end.
    all: repeat match goal with
         | Hh : StdioPipe.uv_pipe _ = Some ?a1 |- _ =>
             cbv in Hh; injection Hh as <-
         end.
    all: repeat match goal with
         | E : negb _ = true |- _ => apply negb_true_iff in E
         | E : negb _ = false |- _ => apply negb_false_iff in E
         end.
    all: repeat match goal with
         | E : ?c = _ |- context [?c] => rewrite E
         end.
    all: cbn [andb runner uv_log].
    all: split; [done|]; eexists _, _; split; [reflexivity|].
    all: lazymatch goal with
         | |- context [set_container_flags _ _ ?r] =>
             rewrite (containers_set_data _ _ _ _ (containers_set_flags _ _ r _ Hcs))
         end.
    all: rewrite list_lookup_insert_eq by done; cbn [mjoin fmap option_fmap option_map
           option_join default StdioContainer.flags].
    all: rewrite list_insert_insert_eq.
    all: unfold set_container_data, set_container_flags; cbn; rewrite ?Hps.
    all: split_and!; try done. }
  destruct (StrictEquals (Get e type_sym) inherit_sym) eqn:Hinherit; [|apply wp_abort].
  unfold AddStdioInheritFD, assert_free_slot, pipes_at. wp_branch.
  left. split; [done|]. eexists _, _. split; [reflexivity|].
  rewrite Hps in *. cbn [mbind option_bind] in *. destruct a; [done|].
  cbn [runner uv_log].
  rewrite (containers_set_data _ _ _ _ (containers_set_flags _ _ _ _ Hcs)).
  rewrite list_lookup_insert_eq by done.
  cbn [mjoin fmap option_fmap option_map option_join default StdioContainer.flags].
  rewrite list_insert_insert_eq.
  unfold set_container_data, set_container_flags; cbn; rewrite ?Hps.
  split_and!; try done.
  - by rewrite list_insert_id.
  - by rewrite app_nil_r.
Qed.

Lemma pipe_init_calls_app first l1 l2 :
  pipe_init_calls first (l1 ++ l2)
  = pipe_init_calls first l1 ++ pipe_init_calls (first + length l1) l2.
Proof.
  revert first. induction l1 as [|e l1 IH]; intros first; cbn [pipe_init_calls app length].
  - by rewrite Nat.add_0_r.
  - rewrite IH, <- app_assoc. by replace (S first + length l1)%nat with (first + S (length l1))%nat by lia.
Qed.

Lemma ParseStdioOption_preserves_count `{Host} i e :
  preserves stdio_count_ (ParseStdioOption i e).
Proof.
  unfold ParseStdioOption, AddStdioIgnore, AddStdioPipe, AddStdioInheritFD, put_pipe,
    set_container_flags, set_container_data.
  frame.
Qed.

Lemma stdio_loop `{Host} (elems : list JsValue) (log : list UvCall) (w : World) :
  stdio_count_ (runner w) = Z.of_nat (length elems) →
  stdio_decoded_upto elems log 0 w →
  wp (for_loop (length elems) 0 (λ i,
        let js_stdio_option := Array_Get (JsArray elems) i in
        if negb (IsObject js_stdio_option) then mret (Some UV_EINVAL) else
        r ← ParseStdioOption i js_stdio_option;
        if r <? 0 then mret (Some r) else mret None))
     (λ ret w',
        stdio_count_ (runner w') = Z.of_nat (length elems)
        ∧ match ret with
          | Some r =>
              r < 0
              ∧ ∃ ps cs, pipes_ (runner w') = Some ps
                         ∧ uv_stdio_containers_ (runner w') = Some cs
                         ∧ length ps = length elems ∧ length cs = length elems
          | None =>
              stdio_decoded_upto elems log (length elems) w'
              ∧ ∀ j e, elems !! j = Some e → IsObject e = true
          end) w.
Proof.
  intros Hcount Hinit.
  apply (wp_for_loop
           (λ k w', stdio_count_ (runner w') = Z.of_nat (length elems)
                    ∧ stdio_decoded_upto elems log k w'
                    ∧ ∀ j e, (j < k)%nat → elems !! j = Some e → IsObject e = true)).
  - split_and!; [done..|]. intros; lia.
  - intros j w1 Hj (Hc & (ps & cs & Hps & Hcs & Hlps & Hlcs & Hdone & Htodo & Hlog) & Hobj).
    cbv zeta. cbn [Array_Get].
    destruct (elems !! j) as [e|] eqn:He;
      [|apply lookup_ge_None in He; lia].
    change (default JsUndefined (Some e)) with e.
    destruct (IsObject e) eqn:Hisobj; cbn [negb].
    2:{ apply wp_ret; cbn beta iota. split; [done|]. split; [done|]. by exists ps, cs. }
    destruct (Htodo j ltac:(lia)) as [Hpj Hcj].
    eapply wp_seq.
    { apply wp_conj;
        [ apply (ParseStdioOption_spec j e w1 ps cs Hps Hcs); [lia | done]
        | apply (preserves_wp stdio_count_), ParseStdioOption_preserves_count ]. }
    intros r w2 Hboth. cbn beta in Hboth. destruct Hboth as [Hspec Hc2]. rewrite Hc in Hc2.
    destruct Hspec as [(-> & slot & c & Hplan & Hps2 & Hcs2 & Hlog2)|(Hneg & Hps2 & Hcs2)].
    + cbn [Z.ltb Z.compare]. apply wp_ret; cbn beta iota. split; [done|]. split.
      * exists (<[j:=slot]> ps), (<[j:=Some c]> cs).
        split_and!; try done.
        -- by rewrite length_insert.
        -- by rewrite length_insert.
        -- intros j' e' Hj' He'. destruct (decide (j' = j)) as [->|Hne].
           ++ rewrite He in He'. injection He' as <-. exists slot, c.
              rewrite !list_lookup_insert_eq by lia. done.
           ++ rewrite !list_lookup_insert_ne by done. apply Hdone; [lia | done].
        -- intros j' Hj'. rewrite !list_lookup_insert_ne by lia. apply Htodo. lia.
        -- rewrite Hlog2, Hlog. rewrite (take_S_r _ _ _ He), pipe_init_calls_app.
           rewrite length_take_le by lia. cbn [pipe_init_calls Nat.add].
           by rewrite app_nil_r, app_assoc.
      * intros j' e' Hj' He'. destruct (decide (j' = j)) as [->|Hne].
        -- rewrite He in He'. by injection He' as <-.
        -- apply (Hobj j'); [lia | done].
    + apply Z.ltb_lt in Hneg as Hneg'. rewrite Hneg'. apply wp_ret.
      split; [done|]. split; [done|]. by exists ps, cs.
  - cbn [Nat.add]. intros w1 (Hc & Hall & Hobj). split; [done|]. split; [done|].
    intros j e He. apply (Hobj j); [|done]. by apply lookup_lt_Some in He.
Qed.

(** X12. [ParseStdioOptions] on an array of fewer than 2^32 entries
    leaves [pipes_] and [uv_stdio_containers_] with one slot for each entry
    and [stdio_count_] at their number, and returns 0 or a negative code.
    When it returns 0 every entry is an object of a known type, slot [j]
    holds what entry [j] asks for (no pipe and [UV_IGNORE]; no pipe,
    [UV_INHERIT_FD] and the descriptor; an initialized pipe for fd [j] with
    the flags of its directions and its input, and the stream of that
    pipe), the descriptor for [uv_spawn] points to the containers, and
    libuv was asked to initialize one handle for each pipe, in the order
    of the entries. *)
Theorem stdio_plan `{Host} (entries : list JsValue) (w w' : World) (r : Z) :
  ParseStdioOptions (JsArray entries) w = Ok r w' →
  Z.of_nat (length entries) < 2 ^ 32 →
  ∃ ps cs,
    stdio_count_ (runner w') = Z.of_nat (length entries)
    ∧ pipes_ (runner w') = Some ps
    ∧ uv_stdio_containers_ (runner w') = Some cs
    ∧ length ps = length entries
    ∧ length cs = length entries
    ∧ r ≤ 0
    ∧ (r = 0 →
       ProcessOptions.stdio (uv_process_options_ (runner w')) = Some cs
       ∧ ProcessOptions.stdio_count (uv_process_options_ (runner w'))
         = Z.of_nat (length entries)
       ∧ uv_log w' = uv_log w ++ pipe_init_calls 0 entries
       ∧ ∀ j e, entries !! j = Some e →
           IsObject e = true
           ∧ ∃ slot c, decoded_stdio_entry j e = Some (slot, c)
                       ∧ ps !! j = Some slot ∧ cs !! j = Some (Some c)).
Proof.
  intros Hrun Hlen. pattern r, w'. eapply wp_elim; [|exact Hrun]. clear Hrun r w'.
  unfold ParseStdioOptions. cbn [IsArray negb Array_Length]. cbv zeta.
  rewrite to_unsigned_int_small by (change 4294967296 with (2 ^ 32); lia).
  rewrite Nat2Z.id. wp_steps.
  eapply wp_mono.
  { apply (stdio_loop entries (uv_log w)); [done|].
    exists (replicate (length entries) None), (replicate (length entries) None).
    cbn [runner uv_log]. split_and!; try done.
    - by rewrite length_replicate.
    - by rewrite length_replicate.
    - intros; lia.
    - intros j Hj. by rewrite !lookup_replicate_2 by lia.
    - by rewrite take_0, app_nil_r. }
  intros [r|] w1 Hpost; cbn beta iota in Hpost.
  - destruct Hpost as (Hc & Hneg & ps & cs & Hps & Hcs & Hlps & Hlcs).
    apply wp_ret. exists ps, cs. split_and!; try done; lia.
  - destruct Hpost as (Hc & (ps & cs & Hps & Hcs & Hlps & Hlcs & Hdone & _ & Hlog) & Hobj).
    wp_steps. exists ps, cs. cbn. split_and!; try done. intros _.
    rewrite Hcs, Hc. split_and!; try done.
    + by rewrite Hlog, firstn_all.
    + intros j e He. split; [by apply (Hobj j)|].
      apply Hdone; [|done]. by apply lookup_lt_Some in He.
Qed.

Lemma stdio_plan_witness :
  ∃ w' ps cs,
    @ParseStdioOptions sample_host (JsArray sample_stdio_entries)
      (initial_world (quiet_oracle (λ _, []))) = Ok 0 w'
    ∧ pipes_ (runner w') = Some ps
    ∧ uv_stdio_containers_ (runner w') = Some cs
    ∧ length ps = 3%nat
    ∧ uv_log w' = [uv_pipe_init 1].
Proof.
  pose (w0 := initial_world (quiet_oracle (λ _, []))).
  pose (w' := match @ParseStdioOptions sample_host (JsArray sample_stdio_entries) w0 with
              | Ok _ w' => w' | Abort => w0 end).
  assert (Hrun : @ParseStdioOptions sample_host (JsArray sample_stdio_entries) w0 = Ok 0 w')
    by (vm_compute; reflexivity).
  destruct (@stdio_plan sample_host sample_stdio_entries w0 w' 0 Hrun)
    as (ps & cs & _ & Hps & Hcs & Hlen & _ & _ & Hplan); [vm_compute; reflexivity|].
  destruct (Hplan eq_refl) as (_ & _ & Hlog & _).
  exists w', ps, cs. split; [exact Hrun|]. split; [exact Hps|]. split; [exact Hcs|].
  split; [exact Hlen | exact Hlog].
Defined.

(** ** The teardown *)

Lemma same_but_pipes_refl w : same_but_pipes w w.
Proof. done. Qed.

Lemma same_but_pipes_trans w1 w2 w3 :
  same_but_pipes w1 w2 → same_but_pipes w2 w3 → same_but_pipes w1 w3.
Proof. intros [H1 O1] [H2 O2]. split; [intros v; by rewrite H2 | congruence]. Qed.

Lemma same_but_pipes_put w i p : same_but_pipes w (put_pipe_world i p w).
Proof. done. Qed.

Lemma Close_total i p w :
  pipe_of w i = Some p → pipe_open p = true →
  SyncProcessStdioPipe_Close i w
  = Ok () (put_pipe_world i (StdioPipe.set_lifecycle_ StdioPipe.kClosing p)
             (mkWorld (runner w) (uv_log w ++ [uv_close_pipe (StdioPipe.self p)])
                (uv_oracle w))).
Proof.
  intros Hpipe Hopen. unfold SyncProcessStdioPipe_Close.
  rewrite (bind_ok _ _ _ _ _ (get_pipe_ok _ _ _ Hpipe)).
  unfold pipe_open in Hopen. rewrite Hopen.
  run_monad. unfold StdioPipe.uv_pipe.
  assert ((StdioPipe.Lifecycle_rank (StdioPipe.lifecycle_ p)
           <? StdioPipe.Lifecycle_rank StdioPipe.kClosing) = true) as ->.
  { by destruct (StdioPipe.lifecycle_ p). }
  run_monad. by rewrite put_pipe_ok.
Qed.

Lemma close_loop_total count :
  ∀ i w ps,
    pipes_ (runner w) = Some ps →
    (i + count = length ps)%nat →
    (∀ j p, (i ≤ j)%nat → ps !! j = Some (Some p) → pipe_open p = true) →
    ∃ w',
      for_loop count i (λ i,
        h ← pipes_at i;
        match h with
        | Some _ => SyncProcessStdioPipe_Close i;; mret None
        | None => mret None
        end) w = Ok None w'
      ∧ pipes_ (runner w')
        = Some (take i ps ++ (with_lifecycle StdioPipe.kClosing <$> drop i ps))
      ∧ same_but_pipes w w'
      ∧ uv_log w' = uv_log w ++ close_calls (drop i ps).
Proof.
  induction count as [|count IH]; intros i w ps Hps Hlen Hopen; cbn [for_loop].
  - exists w. rewrite drop_ge by lia. rewrite take_ge by lia.
    cbn [fmap list_fmap close_calls]. rewrite !app_nil_r. done.
  - destruct (ps !! i) as [h|] eqn:Hi; [|apply lookup_ge_None in Hi; lia].
    assert (pipes_at i w = Ok h w) as Hat.
    { unfold pipes_at. run_monad. rewrite Hps. cbn [mbind option_bind]. by rewrite Hi. }
    destruct h as [p|].
    + assert (pipe_of w i = Some p) as Hpipe.
      { unfold pipe_of. rewrite Hps. cbn [mbind option_bind]. by rewrite Hi. }
      pose proof (Close_total i p w Hpipe (Hopen i p ltac:(lia) Hi)) as Hclose.
      set (w1 := put_pipe_world i (StdioPipe.set_lifecycle_ StdioPipe.kClosing p)
                   (mkWorld (runner w) (uv_log w ++ [uv_close_pipe (StdioPipe.self p)])
                      (uv_oracle w))) in *.
      set (ps1 := <[i := Some (StdioPipe.set_lifecycle_ StdioPipe.kClosing p)]> ps).
      assert (pipes_ (runner w1) = Some ps1) as Hps1.
      { unfold w1, put_pipe_world. cbn. by rewrite Hps. }
      destruct (IH (S i) w1 ps1 Hps1) as (w' & Hloop & Hps' & Hsame & Hlog).
      { unfold ps1. rewrite length_insert. lia. }
      { intros j p' Hj Hj'. unfold ps1 in Hj'. rewrite list_lookup_insert_ne in Hj' by lia.
        apply (Hopen j p'); [lia | done]. }
      exists w'. split_and!.
      * assert ((h ← pipes_at i;
                 match h with
                 | Some _ => SyncProcessStdioPipe_Close i;; mret None
                 | None => mret None
                 end) w = Ok (None : option Z) w1) as Hbody.
        { rewrite (bind_ok _ _ _ _ _ Hat). by rewrite (bind_ok _ _ _ _ _ Hclose). }
        cbn beta. rewrite (bind_ok _ _ _ _ _ Hbody). exact Hloop.
      * rewrite Hps'. f_equal. unfold ps1.
        rewrite (take_S_r _ _ (Some (StdioPipe.set_lifecycle_ StdioPipe.kClosing p)))
          by (apply list_lookup_insert_eq; by apply lookup_lt_Some in Hi).
        rewrite take_insert_ge by lia. rewrite drop_insert_lt by lia.
        rewrite (drop_S _ _ _ Hi). cbn [fmap list_fmap with_lifecycle option_fmap option_map].
        by rewrite <- app_assoc.
      * eapply same_but_pipes_trans; [|exact Hsame]. done.
      * rewrite Hlog. unfold w1. cbn [uv_log put_pipe_world]. unfold ps1.
        rewrite drop_insert_lt by lia. rewrite (drop_S _ _ _ Hi). cbn [close_calls].
        by rewrite <- app_assoc.
    + destruct (IH (S i) w ps Hps) as (w' & Hloop & Hps' & Hsame & Hlog); [lia| |].
      { intros j p' Hj. apply Hopen. lia. }
      exists w'. split_and!.
      * assert ((h ← pipes_at i;
                 match h with
                 | Some _ => SyncProcessStdioPipe_Close i;; mret None
                 | None => mret None
                 end) w = Ok (None : option Z) w) as Hbody.
        { by rewrite (bind_ok _ _ _ _ _ Hat). }
        cbn beta. rewrite (bind_ok _ _ _ _ _ Hbody). exact Hloop.
      * rewrite Hps'. f_equal. rewrite (take_S_r _ _ _ Hi), (drop_S _ _ _ Hi).
        cbn [fmap list_fmap with_lifecycle option_fmap option_map].
        by rewrite <- app_assoc.
      * done.
      * rewrite Hlog. by rewrite (drop_S _ _ _ Hi).
Qed.

Lemma close_callbacks_total (ps0 : list (option StdioPipe.t)) :
  ∀ es w qs,
    pipes_ (runner w) = Some qs →
    (∀ j, qs !! j = (with_lifecycle StdioPipe.kClosing <$> ps0 !! j)
          ∨ qs !! j = (with_lifecycle StdioPipe.kClosed <$> ps0 !! j)) →
    Forall (close_event_for ps0) es →
    ∃ w' qs',
      dispatch_all es w = Ok () w'
      ∧ pipes_ (runner w') = Some qs'
      ∧ same_but_pipes w w'
      ∧ uv_log w' = uv_log w
      ∧ (∀ j, qs' !! j = (with_lifecycle StdioPipe.kClosing <$> ps0 !! j)
              ∨ qs' !! j = (with_lifecycle StdioPipe.kClosed <$> ps0 !! j))
      ∧ (∀ j, EvClose j ∈ es
              ∨ qs !! j = (with_lifecycle StdioPipe.kClosed <$> ps0 !! j) →
              qs' !! j = (with_lifecycle StdioPipe.kClosed <$> ps0 !! j)).
Proof.
  induction es as [|e es IH]; intros w qs Hqs Hshape Hes; cbn [dispatch_all].
  - exists w, qs. split_and!; try done.
    intros j [Hin|Hj]; [by apply elem_of_nil in Hin | done].
  - apply Forall_cons in Hes as [He Hes].
    destruct e; try done; cbn [dispatch close_event_for] in *.
    + destruct He as [p0 Hp0].
      assert (∃ q, qs !! pipe = Some (Some q)
                   ∧ StdioPipe.set_lifecycle_ StdioPipe.kClosed q
                     = StdioPipe.set_lifecycle_ StdioPipe.kClosed p0) as (q & Hq & Hclosed).
      { destruct (Hshape pipe) as [Hj|Hj]; rewrite Hp0 in Hj; cbn in Hj; eauto. }
      assert (pipe_of w pipe = Some q) as Hpipe.
      { unfold pipe_of. rewrite Hqs. cbn [mbind option_bind]. by rewrite Hq. }
      set (w1 := put_pipe_world pipe (StdioPipe.set_lifecycle_ StdioPipe.kClosed q) w).
      assert (SyncProcessStdioPipe_OnClose pipe w = Ok () w1) as Hcb.
      { unfold SyncProcessStdioPipe_OnClose.
        rewrite (bind_ok _ _ _ _ _ (get_pipe_ok _ _ _ Hpipe)). by rewrite put_pipe_ok. }
      set (qs1 := <[pipe := Some (StdioPipe.set_lifecycle_ StdioPipe.kClosed p0)]> qs).
      assert (pipes_ (runner w1) = Some qs1) as Hqs1.
      { unfold w1, put_pipe_world, qs1. cbn. rewrite Hqs, Hclosed. done. }
      assert (qs1 !! pipe = (with_lifecycle StdioPipe.kClosed <$> ps0 !! pipe)) as Hdone.
      { unfold qs1. rewrite list_lookup_insert_eq by (by apply lookup_lt_Some in Hq).
        by rewrite Hp0. }
      destruct (IH w1 qs1 Hqs1) as (w' & qs' & Hrun & Hqs' & Hsame & Hlog & Hshape' & Hfin);
        [|done|].
      { intros j. destruct (decide (j = pipe)) as [->|Hne]; [by right|].
        unfold qs1. rewrite list_lookup_insert_ne by done. apply Hshape. }
      exists w', qs'. split_and!; try done.
      * by rewrite (bind_ok _ _ _ _ _ Hcb).
      * intros j [Hin|Hj].
        -- apply elem_of_cons in Hin as [[= ->]|Hin]; apply Hfin; [by right | by left].
        -- apply Hfin. right. destruct (decide (j = pipe)) as [->|Hne]; [done|].
           unfold qs1. by rewrite list_lookup_insert_ne.
    + destruct (IH w qs Hqs Hshape Hes) as (w' & qs' & Hrun & Hqs' & Hsame & Hlog & Hshape' & Hfin).
      exists w', qs'. split_and!; try done.
      intros j [Hin|Hj]; apply Hfin; [|by right].
      apply elem_of_cons in Hin as [[=]|Hin]. by left.
Qed.

Lemma wp_total_intro {A} (m : M A) (Q : A → World → Prop) w a w' :
  m w = Ok a w' → Q a w' → wp_total m Q w.
Proof. unfold wp_total. by intros ->. Qed.

Lemma wp_total_uv c (Q : Z → World → Prop) w :
  Q (uv_ret (uv_oracle w) c (length (uv_log w)))
    (mkWorld (runner w) (uv_log w ++ [c]) (uv_oracle w)) →
  wp_total (uv c) Q w.
Proof. done. Qed.

Lemma wp_total_assert b (Q : unit → World → Prop) w :
  b = true → Q () w → wp_total (assert b) Q w.
Proof. by intros ->. Qed.

Lemma wp_total_uv_scripted_events (Q : list UvEvent → World → Prop) w :
  Q (uv_events (uv_oracle w) (length (uv_log w))) w → wp_total uv_scripted_events Q w.
Proof. done. Qed.

Lemma same_but_pipes_field {T} (f : SyncProcessRunner → T) w w' :
  (∀ v r, f (set_pipes_ v r) = f r) →
  same_but_pipes w w' → f (runner w') = f (runner w).
Proof.
  intros Hf [Hsame _]. rewrite <- (Hf None (runner w')), <- (Hf None (runner w)).
  by rewrite Hsame.
Qed.

(** X13. The teardown of a runner whose loop exists and whose pipes are
    all initialized or started closes the handle of every pipe once, in
    the order of the fds, then the kill timer if there is one, runs the
    loop and deletes it.  When that run of the loop delivers close
    callbacks only, and one for each pipe, in whatever order, every pipe
    ends in [kClosed] and the runner in [kHandlesClosed], so that the
    assertions of the destructors hold. *)
Theorem teardown_closes_every_handle (w : World) (ps : list (option StdioPipe.t)) :
  let this := runner w in
  let calls :=
    close_calls ps
    ++ (if kill_timer_initialized_ this then [uv_ref_timer; uv_close_timer] else []) in
  let now := length (uv_log w ++ calls) in
  lifecycle_ this ≠ kHandlesClosed →
  uv_loop_ this = true →
  pipes_ this = Some ps →
  length ps = Z.to_nat (stdio_count_ this) →
  (∀ i p, ps !! i = Some (Some p) → pipe_open p = true) →
  0 ≤ uv_ret (uv_oracle w) uv_run now →
  Forall (close_event_for ps) (uv_events (uv_oracle w) now) →
  (∀ i p, ps !! i = Some (Some p) → EvClose i ∈ uv_events (uv_oracle w) now) →
  ∃ w',
    (CloseHandlesAndDeleteLoop;; SyncProcessRunner_delete) w = Ok () w'
    ∧ uv_log w' = uv_log w ++ calls ++ [uv_run; uv_loop_delete]
    ∧ pipes_ (runner w') = Some (with_lifecycle StdioPipe.kClosed <$> ps)
    ∧ lifecycle_ (runner w') = kHandlesClosed.
Proof.
  intros this calls now Hlife Hloop Hps Hlen Hopen Hrun Hes Hall.
  set (w0 := mkWorld (set_lifecycle_ kHandlesClosed (runner w)) (uv_log w) (uv_oracle w)).
  destruct (close_loop_total (Z.to_nat (stdio_count_ this)) 0 w0 ps Hps)
    as (w1 & Hloop1 & Hps1 & Hsame1 & Hlog1); [lia | by eauto |].
  rewrite take_0, drop_0 in Hps1. cbn [app] in Hps1. rewrite drop_0 in Hlog1.
  unfold w0 in Hlog1. cbn [uv_log] in Hlog1.
  set (w2 := mkWorld (runner w1) (uv_log w ++ calls) (uv_oracle w)).
  set (w3 := mkWorld (runner w1) ((uv_log w ++ calls) ++ [uv_run]) (uv_oracle w)).
  destruct (close_callbacks_total ps (uv_events (uv_oracle w) now) w3
              (with_lifecycle StdioPipe.kClosing <$> ps))
    as (w4 & qs & Hcb & Hqs & Hsame4 & Hlog4 & Hshape & Hfin); [done| |done|].
  { intros j. left. by rewrite list_lookup_fmap. }
  assert (qs = (with_lifecycle StdioPipe.kClosed <$> ps)) as ->.
  { apply list_eq. intros j. rewrite list_lookup_fmap.
    destruct (ps !! j) as [[p|]|] eqn:Hj.
    - rewrite Hfin; [by rewrite Hj|]. left. by apply (Hall j p).
    - destruct (Hshape j) as [->| ->]; by rewrite Hj.
    - destruct (Hshape j) as [->| ->]; by rewrite Hj. }
  clear Hshape Hfin.
  assert (uv_oracle w1 = uv_oracle w) as Ho1 by (by destruct Hsame1).
  assert (uv_oracle w4 = uv_oracle w) as Ho4 by (by destruct Hsame4).
  assert (∀ {T} (f : SyncProcessRunner → T),
            (∀ v r, f (set_pipes_ v r) = f r) →
            f (runner w4) = f (set_lifecycle_ kHandlesClosed (runner w))) as Hfield.
  { intros T f Hf. rewrite (same_but_pipes_field f _ _ Hf Hsame4).
    exact (same_but_pipes_field f _ _ Hf Hsame1). }
  set (Q := λ (_ : unit) (w' : World),
              uv_log w' = uv_log w ++ calls ++ [uv_run; uv_loop_delete]
              ∧ pipes_ (runner w') = Some (with_lifecycle StdioPipe.kClosed <$> ps)
              ∧ lifecycle_ (runner w') = kHandlesClosed).
  destruct (wp_total_elim (CloseHandlesAndDeleteLoop;; SyncProcessRunner_delete) Q w)
    as ([] & w' & Hfinal & HQ); [|by exists w'].
  apply wp_total_bind. unfold CloseHandlesAndDeleteLoop.
  apply wp_total_bind, wp_total_get_runner.
  apply wp_total_bind, wp_total_assert.
  { fold this. by destruct (lifecycle_ this). }
  apply wp_total_bind, wp_total_modify. fold w0. fold this. rewrite Hps, Hloop.
  apply wp_total_bind, wp_total_bind, wp_total_assert; [done|].
  apply wp_total_bind. eapply wp_total_intro; [exact Hloop1|].
  apply wp_total_ret.
  apply (wp_total_seq _ _ _ (λ _ w', w' = w2)).
  { unfold w2, calls. rewrite app_assoc, <- Hlog1, <- Ho1. fold this.
    destruct (kill_timer_initialized_ this).
    - apply wp_total_bind, wp_total_uv, wp_total_bind, wp_total_uv, wp_total_ret.
      cbn [runner uv_log uv_oracle]. by rewrite <- app_assoc.
    - apply wp_total_ret. rewrite app_nil_r. by destruct w1. }
  intros _ ? ->.
  apply wp_total_bind. unfold uv_run_default.
  apply wp_total_bind, wp_total_uv_scripted_events.
  apply wp_total_bind, wp_total_uv. cbn [w2 runner uv_log uv_oracle]. fold now. fold w3.
  apply wp_total_bind. eapply wp_total_intro; [exact Hcb|].
  apply wp_total_ret.
  assert ((uv_ret (uv_oracle w) uv_run now <? 0) = false) as -> by (apply Z.ltb_ge; lia).
  apply wp_total_bind, wp_total_uv, wp_total_ret.
  unfold SyncProcessRunner_delete.
  apply wp_total_bind, wp_total_get_runner. cbn [runner uv_log uv_oracle].
  apply wp_total_bind, wp_total_assert.
  { by rewrite (Hfield _ lifecycle_). }
  rewrite Hqs.
  apply wp_total_bind, wp_total_assert.
  { apply bool_decide_eq_true. rewrite length_fmap.
    rewrite (Hfield _ stdio_count_) by done. cbn. fold this. lia. }
  apply wp_total_assert.
  { apply forallb_forall. intros h Hin%list_elem_of_In%elem_of_take.
    destruct Hin as (j & Hj & _). rewrite list_lookup_fmap in Hj.
    destruct (ps !! j) as [[p|]|]; cbn in Hj; by simplify_eq. }
  unfold Q. cbn [runner uv_log]. split_and!.
  - rewrite Hlog4. unfold w3. cbn [uv_log]. by rewrite <- !app_assoc.
  - done.
  - by rewrite (Hfield _ lifecycle_).
Qed.

Lemma teardown_closes_every_handle_witness :
  ∃ w',
    (CloseHandlesAndDeleteLoop;; SyncProcessRunner_delete) sample_teardown = Ok () w'
    ∧ uv_log w' = [uv_close_pipe 1; uv_run; uv_loop_delete]
    ∧ pipes_ (runner w')
      = Some [None; Some (StdioPipe.set_lifecycle_ StdioPipe.kClosed sample_stdout_pipe);
              None]
    ∧ lifecycle_ (runner w') = kHandlesClosed.
Proof.
  apply (teardown_closes_every_handle sample_teardown [None; Some sample_stdout_pipe; None]).
  - discriminate.
  - reflexivity.
  - reflexivity.
  - reflexivity.
  - intros i p Hi. destruct i as [|[|[|i]]]; cbn in Hi; simplify_eq. reflexivity.
  - vm_compute. discriminate.
  - repeat constructor. by exists sample_stdout_pipe.
  - intros i p Hi. destruct i as [|[|[|i]]]; cbn in Hi; simplify_eq.
    apply elem_of_cons. by left.
Defined.

(** ** The error that is reported *)

(** X14. After any sequence of error reports the primary slot holds the
    first nonzero code among what it held and the primary reports, the
    pipe slot the first nonzero code among what it held and the pipe
    reports, and [GetError] is the first nonzero of the two: how the two
    kinds of reports interleave makes no difference. *)
Theorem first_error_wins (cs : list ErrorReport) (r : SyncProcessRunner) :
  let final := foldl (λ r c, report c r) r cs in
  error_ final = first_nonzero (error_ r :: primary_reports cs)
  ∧ pipe_error_ final = first_nonzero (pipe_error_ r :: pipe_reports cs)
  ∧ GetError final = first_nonzero [error_ final; pipe_error_ final]
  ∧ ∀ cs',
      primary_reports cs' = primary_reports cs →
      pipe_reports cs' = pipe_reports cs →
      GetError (foldl (λ r c, report c r) r cs') = GetError final.
Proof.
  assert (∀ cs r,
            error_ (foldl (λ r c, report c r) r cs)
            = first_nonzero (error_ r :: primary_reports cs)
            ∧ pipe_error_ (foldl (λ r c, report c r) r cs)
              = first_nonzero (pipe_error_ r :: pipe_reports cs)) as Hslots.
  { clear. induction cs as [|c cs IH]; intros r; cbn [foldl].
    - unfold primary_reports, pipe_reports. cbn [omap list_omap first_nonzero].
      split; (case_match eqn:E; [by apply Z.eqb_eq in E | done]).
    - destruct (IH (report c r)) as [-> ->]. unfold primary_reports, pipe_reports.
      destruct c as [e|e]; cbn [report omap list_omap first_nonzero].
      + rewrite error_SetError, pipe_error_SetError. split; [|done].
        destruct (error_ r =? 0) eqn:E; [done|]. cbn [first_nonzero]. by rewrite E.
      + rewrite error_SetPipeError, pipe_error_SetPipeError. split; [done|].
        destruct (pipe_error_ r =? 0) eqn:E; [done|]. cbn [first_nonzero]. by rewrite E. }
  assert (∀ x, GetError x = first_nonzero [error_ x; pipe_error_ x]) as Hget.
  { intros x. unfold GetError. cbn [first_nonzero].
    destruct (error_ x =? 0); cbn [negb]; [|done].
    case_match eqn:E; [by apply Z.eqb_eq in E | done]. }
  intros final. subst final. destruct (Hslots cs r) as [He Hp].
  split_and!; [done | done | apply Hget |].
  intros cs' Hprimary Hpipe. destruct (Hslots cs' r) as [He' Hp'].
  rewrite !Hget. by rewrite He, Hp, He', Hp', Hprimary, Hpipe.
Qed.
Lemma Kill_sets_killed w w' : Kill w = Ok () w' → killed_ (runner w') = true.
Proof.
  intros Hrun. destruct (killed_ (runner w)) eqn:Hk.
  - rewrite Kill_killed in Hrun by done. by simplify_eq.
  - unfold Kill in Hrun.
    apply bind_inv in Hrun as (this & w0 & Hget & Hrun).
    unfold get_runner in Hget. simplify_eq. rewrite Hk in Hrun.
    apply bind_inv in Hrun as ([] & w1 & Hset & Hrun).
    unfold modify_runner in Hset. simplify_eq.
    match type of Hrun with
    | ?m _ = _ => assert (preserves killed_ m) as Hframe by frame
    end.
    by rewrite (Hframe _ _ _ Hrun).
Qed.

Lemma Increment_tracks n w w' :
  IncrementBufferSizeAndCheckOverflow n w = Ok () w' →
  let size := to_size_t (buffered_output_size_ (runner w) + n) in
  buffered_output_size_ (runner w') = size
  ∧ max_buffer_ (runner w') = max_buffer_ (runner w)
  ∧ killed_ (runner w')
    = killed_ (runner w) || ((0 <? max_buffer_ (runner w)) && (max_buffer_ (runner w) <? size)).
Proof.
  intros Hrun size.
  pose proof (IncrementBufferSizeAndCheckOverflow_adds _ _ _ Hrun) as Hsize.
  assert (preserves max_buffer_ (IncrementBufferSizeAndCheckOverflow n)) as Hmax
    by (unfold IncrementBufferSizeAndCheckOverflow; frame).
  split; [done|]. split; [by apply (Hmax _ _ _ Hrun)|].
  unfold IncrementBufferSizeAndCheckOverflow in Hrun.
  apply bind_inv in Hrun as ([] & w1 & Hset & Hrun).
  unfold modify_runner in Hset. simplify_eq.
  apply bind_inv in Hrun as (this & w2 & Hget & Hrun).
  unfold get_runner in Hget. simplify_eq.
  cbn [runner max_buffer_ buffered_output_size_ set_buffered_output_size_] in Hrun.
  fold size in Hrun.
  destruct ((0 <? max_buffer_ (runner w)) && (max_buffer_ (runner w) <? size)).
  - rewrite (Kill_sets_killed _ _ Hrun). by rewrite orb_true_r.
  - unfold mret, M_ret in Hrun. simplify_eq. cbn. by rewrite orb_false_r.
Qed.

Lemma OnRead_tracks i buf nread w w' :
  0 ≤ nread →
  SyncProcessStdioPipe_OnRead i buf nread w = Ok () w' →
  let size := to_size_t (buffered_output_size_ (runner w) + nread) in
  buffered_output_size_ (runner w') = size
  ∧ max_buffer_ (runner w') = max_buffer_ (runner w)
  ∧ killed_ (runner w')
    = killed_ (runner w) || ((0 <? max_buffer_ (runner w)) && (max_buffer_ (runner w) <? size)).
Proof.
  intros Hn Hrun. unfold SyncProcessStdioPipe_OnRead in Hrun.
  replace (nread =? UV_EOF) with false in Hrun
    by (symmetry; apply Z.eqb_neq; unfold UV_EOF; lia).
  replace (nread <? 0) with false in Hrun by (symmetry; apply Z.ltb_ge; lia).
  apply bind_inv in Hrun as (p & w1 & Hget & Hrun).
  apply bind_inv in Hrun as (p' & w2 & Hcommit & Hrun).
  apply bind_inv in Hrun as ([] & w3 & Hput & Hrun).
  assert (∀ {T} (f : SyncProcessRunner → T),
            (∀ v r, f (set_pipes_ v r) = f r) → f (runner w3) = f (runner w)) as Hframe.
  { intros T f Hf.
    rewrite (put_pipe_preserves f _ _ Hf _ _ _ Hput).
    rewrite (preserves_from_option f _ _ _ _ Hcommit).
    exact (get_pipe_preserves f _ _ _ _ Hget). }
  destruct (Increment_tracks _ _ _ Hrun) as (Hb & Hm & Hk). cbv zeta in *.
  rewrite (Hframe _ buffered_output_size_), (Hframe _ max_buffer_), (Hframe _ killed_)
    in * by done.
  done.
Qed.

Lemma read_callbacks_frame {T} (f : SyncProcessRunner → T) i :
  (∀ v r, f (set_pipes_ v r) = f r) →
  (∀ v r, f (set_pipe_error_ v r) = f r) →
  (∀ s, preserves f (SyncProcessStdioPipe_OnAlloc i s))
  ∧ (∀ buf bytes, preserves f (uv_store i buf bytes))
  ∧ (∀ buf nread, nread < 0 → preserves f (SyncProcessStdioPipe_OnRead i buf nread)).
Proof.
  intros Hp He. split_and!.
  - intros s. unfold SyncProcessStdioPipe_OnAlloc. frame.
  - intros buf bytes. unfold uv_store. frame.
  - intros buf nread Hneg. unfold SyncProcessStdioPipe_OnRead, SyncProcessStdioPipe_SetError.
    replace (nread <? 0) with true by (symmetry; apply Z.ltb_lt; lia).
    frame.
Qed.

Lemma killed_when_over_step (r r' : SyncProcessRunner) n :
  0 ≤ buffered_output_size_ r → 0 ≤ n →
  killed_when_over r →
  buffered_output_size_ r' = buffered_output_size_ r + n →
  max_buffer_ r' = max_buffer_ r →
  killed_ r' = killed_ r || ((0 <? max_buffer_ r)
                             && (max_buffer_ r <? buffered_output_size_ r + n)) →
  killed_when_over r'.
Proof.
  unfold killed_when_over. intros Hb Hn -> -> -> ->.
  destruct (0 <? max_buffer_ r); cbn [andb orb]; [|done].
  destruct (max_buffer_ r <? buffered_output_size_ r) eqn:E; [|done].
  apply Z.ltb_lt in E. cbn [orb]. symmetry. apply Z.ltb_lt. lia.
Qed.

Lemma read_round_accounts i c buf bytes b w0 w :
  alloc_ready i c buf w →
  Z.of_nat (length bytes) ≤ len buf →
  0 ≤ b → b + Z.of_nat (length bytes) < 2 ^ 64 →
  cap_inv b w0 w →
  ∃ w', (uv_store i buf bytes;;
         SyncProcessStdioPipe_OnRead i buf (Z.of_nat (length bytes))) w = Ok () w'
        ∧ read_inv i (c ++ bytes) w'
        ∧ cap_inv (b + Z.of_nat (length bytes)) w0 w'.
Proof.
  intros Hready Hlen Hb Hmax (Hbuf & Hm & Hk).
  destruct (read_round_total i c buf bytes w Hready Hlen) as (w' & Hround & Hinv).
  exists w'. split; [done|]. split; [done|].
  apply bind_inv in Hround as ([] & w1 & Hstore & Hread).
  destruct (read_callbacks_frame (λ r, (buffered_output_size_ r, max_buffer_ r, killed_ r)) i)
    as (_ & Hst & _); [done..|].
  pose proof (Hst _ _ _ _ _ Hstore) as Hf. cbn beta in Hf.
  injection Hf as Hb1 Hm1 Hk1.
  destruct (OnRead_tracks i buf (Z.of_nat (length bytes)) w1 w' ltac:(lia) Hread)
    as (Hb2 & Hm2 & Hk2).
  cbv zeta in *. rewrite Hb1, Hm1, Hk1, Hbuf in *.
  rewrite to_size_t_small in * by (change 18446744073709551616 with (2 ^ 64); lia).
  split_and!; [done | congruence |].
  apply (killed_when_over_step (runner w) (runner w') (Z.of_nat (length bytes)));
    [lia | lia | done | congruence | done | by rewrite Hbuf].
Qed.

Lemma read_end_accounts i c buf nread b w0 w :
  read_inv i c w → - 2 ^ 31 ≤ nread < 0 →
  cap_inv b w0 w →
  ∃ w', SyncProcessStdioPipe_OnRead i buf nread w = Ok () w'
        ∧ read_inv i c w' ∧ cap_inv b w0 w'.
Proof.
  intros Hinv Hn (Hbuf & Hm & Hk).
  destruct (read_end_total i c buf nread w Hinv Hn) as (w' & Hread & Hinv').
  exists w'. split; [done|]. split; [done|].
  destruct (read_callbacks_frame (λ r, (buffered_output_size_ r, max_buffer_ r, killed_ r)) i)
    as (_ & _ & Hend); [done..|].
  pose proof (Hend buf nread ltac:(lia) _ _ _ Hread) as Hf. cbn beta in Hf.
  injection Hf as Hb1 Hm1 Hk1.
  unfold cap_inv, killed_when_over in *. rewrite Hb1, Hm1, Hk1. done.
Qed.

Lemma OnAlloc_accounts i c suggested_size b w0 w :
  read_inv i c w → cap_inv b w0 w →
  ∃ buf w', SyncProcessStdioPipe_OnAlloc i suggested_size w = Ok buf w'
            ∧ alloc_ready i c buf w' ∧ cap_inv b w0 w'.
Proof.
  intros Hinv (Hbuf & Hm & Hk).
  destruct (OnAlloc_total i c suggested_size w Hinv) as (buf & w' & Halloc & Hready).
  exists buf, w'. split; [done|]. split; [done|].
  destruct (read_callbacks_frame (λ r, (buffered_output_size_ r, max_buffer_ r, killed_ r)) i)
    as (Ha & _ & _); [done..|].
  pose proof (Ha suggested_size _ _ _ Halloc) as Hf. cbn beta in Hf.
  injection Hf as Hb1 Hm1 Hk1.
  unfold cap_inv, killed_when_over in *. rewrite Hb1, Hm1, Hk1. done.
Qed.

Lemma uv__read_accounts i fuel :
  ∀ pending c b w0 w,
    (length pending ≤ fuel)%nat → read_inv i c w →
    0 ≤ b → b + Z.of_nat (length pending) < 2 ^ 64 →
    cap_inv b w0 w →
    ∃ w', uv__read fuel i pending w = Ok () w'
          ∧ read_inv i (c ++ pending) w'
          ∧ cap_inv (b + Z.of_nat (length pending)) w0 w'.
Proof.
  induction fuel as [|fuel IH]; intros pending c b w0 w Hfuel Hinv Hb Hmax Hcap.
  all: rewrite uv__read_unfold.
  all: destruct (OnAlloc_accounts i c 65536 b w0 w Hinv Hcap)
         as (buf & w1 & Halloc & Hready & Hcap1).
  all: rewrite (bind_ok _ _ _ _ _ Halloc).
  all: pose proof Hready
         as (_ & _ & bf & _ & _ & _ & _ & _ & _ & _ & _ & _ & Hblen & Hroom & _).
  all: unfold OutputBuffer.kBufferSize in *.
  all: replace (len buf <=? 0) with false by (symmetry; apply Z.leb_gt; lia).
  all: cbn zeta.
  all: set (n := Z.to_nat (Z.min (len buf) (Z.of_nat (length pending)))).
  all: assert (Hn : (n ≤ length pending)%nat) by lia.
  all: assert (Htake : length (take n pending) = n) by (rewrite length_take; lia).
  all: destruct (read_round_accounts i c buf (take n pending) b w0 w1 Hready)
         as (w2 & Hround & Hinv2 & Hcap2); [rewrite Htake; lia | done
                                           | rewrite Htake; lia | done |].
  all: rewrite Htake in Hround, Hcap2.
  all: rewrite (bind_ok2 _ _ _ _ _ _ Hround).
  - destruct pending; [|simpl in Hfuel; lia].
    exists w2. rewrite drop_nil. split; [done|].
    subst n. simpl in Hinv2, Hcap2. rewrite take_nil in Hinv2. split; [done|].
    simpl. by rewrite Z.min_r in Hcap2 by lia.
  - pose proof (take_drop n pending) as Htd.
    assert (Hlen : length pending = (n + length (drop n pending))%nat)
      by (rewrite length_drop; lia).
    destruct (drop n pending) as [|x rest] eqn:Hdrop.
    + exists w2. split; [done|].
      rewrite app_nil_r in Htd. rewrite Htd in Hinv2. split; [done|].
      simpl in Hlen. by replace (length pending) with n by lia.
    + assert (1 ≤ n)%nat as Hpos.
      { destruct pending; [by rewrite drop_nil in Hdrop|]. simpl in n. lia. }
      destruct (IH (x :: rest) (c ++ take n pending) (b + Z.of_nat n) w0 w2)
        as (w3 & Hrec & Hinv3 & Hcap3); [lia | done | lia | lia | done |].
      exists w3. split; [done|].
      rewrite <- app_assoc, Htd in Hinv3. split; [done|].
      by replace (b + Z.of_nat (length pending))
        with (b + Z.of_nat n + Z.of_nat (length (x :: rest))) by lia.
Qed.

Lemma dispatch_all_reads_accounts i :
  ∀ es c b w0 w,
    Forall (read_event_of i) es → read_inv i c w →
    0 ≤ b → b + Z.of_nat (length (delivered es)) < 2 ^ 64 →
    cap_inv b w0 w →
    ∃ w', dispatch_all es w = Ok () w'
          ∧ read_inv i (c ++ delivered es) w'
          ∧ cap_inv (b + Z.of_nat (length (delivered es))) w0 w'.
Proof.
  induction es as [|e es IH]; intros c b w0 w Hes Hinv Hb Hmax Hcap.
  - exists w. split; [done|]. rewrite app_nil_r. split; [done|].
    cbn. by rewrite Z.add_0_r.
  - apply Forall_cons in Hes as [He Hes].
    set (bytes := match e with EvData _ bytes => bytes | _ => [] end).
    assert (Hdel : delivered (e :: es) = bytes ++ delivered es) by done.
    rewrite Hdel, length_app in *.
    assert (∃ w1, dispatch e w = Ok () w1
                  ∧ read_inv i (c ++ bytes) w1
                  ∧ cap_inv (b + Z.of_nat (length bytes)) w0 w1)
      as (w1 & Hd & Hinv1 & Hcap1).
    { destruct e; try done; cbn in He; subst bytes.
      - subst pipe. apply uv__read_accounts; try done. lia.
      - destruct He as [-> Hn]. rewrite app_nil_r. cbn [dispatch length].
        rewrite Z.add_0_r.
        destruct (OnAlloc_accounts i c 65536 b w0 w Hinv Hcap)
          as (buf & w1 & Halloc & Hready & Hcap1).
        rewrite (bind_ok _ _ _ _ _ Halloc).
        apply read_end_accounts; [|done..]. by eapply alloc_ready_read_inv. }
    destruct (IH (c ++ bytes) (b + Z.of_nat (length bytes)) w0 w1)
      as (w2 & Hrest & Hinv2 & Hcap2); [done | done | lia | lia | done |].
    exists w2. split.
    + cbn [dispatch_all]. by rewrite (bind_ok _ _ _ _ _ Hd).
    + rewrite app_assoc. split; [done|].
      by replace (b + Z.of_nat (length bytes + length (delivered es)))
        with (b + Z.of_nat (length bytes) + Z.of_nat (length (delivered es))) by lia.
Qed.


(** X15. The cap on the output counts every byte that arrives, over a
    whole script of read callbacks on a pipe, cut in any way: the counter
    grows by the number of bytes delivered, the cap is not changed, and
    afterwards the runner is killed if and only if the cap is positive and
    the counter is over it.  The bytes over the cap are captured like the
    others, and while the runner is not killed no kill signal is sent. *)
Theorem output_is_counted_and_capped (w : World) (i : nat) (c : list byte)
    (es : list UvEvent) :
  read_inv i c w →
  Forall (read_event_of i) es →
  0 ≤ buffered_output_size_ (runner w) →
  buffered_output_size_ (runner w) + Z.of_nat (length (delivered es)) < 2 ^ 64 →
  killed_when_over (runner w) →
  kill_budget w →
  ∃ w' p',
    dispatch_all es w = Ok () w'
    ∧ pipe_of w' i = Some p' ∧ captured p' = c ++ delivered es
    ∧ buffered_output_size_ (runner w')
      = buffered_output_size_ (runner w) + Z.of_nat (length (delivered es))
    ∧ max_buffer_ (runner w') = max_buffer_ (runner w)
    ∧ killed_ (runner w')
      = (0 <? max_buffer_ (runner w))
        && (max_buffer_ (runner w)
            <? buffered_output_size_ (runner w) + Z.of_nat (length (delivered es)))
    ∧ (killed_ (runner w') = false → kill_attempts (uv_log w') = 0%nat).
Proof.
  intros Hinv Hes Hb Hmax Hover Hbudget.
  destruct (dispatch_all_reads_accounts i es c (buffered_output_size_ (runner w)) w w)
    as (w' & Hrun & (p' & Hp' & _ & Hcap' & _) & Hcount & Hcapmax & Hkilled);
    [done | done | done | done | done |].
  exists w', p'. split_and!; try done.
  - unfold killed_when_over in Hkilled. by rewrite Hkilled, Hcapmax, Hcount.
  - intros Hk. pose proof (dispatch_all_kill_budget es w () w' Hbudget Hrun) as Hb'.
    unfold kill_budget in Hb'. rewrite Hk in Hb'. lia.
Qed.

Lemma output_is_counted_and_capped_witness :
  ∃ w', dispatch_all sample_reads sample_capped_4 = Ok () w'
        ∧ buffered_output_size_ (runner w') = 5
        ∧ killed_ (runner w') = true.
Proof.
  destruct (output_is_counted_and_capped sample_capped_4 1 [] sample_reads)
    as (w' & p' & Hrun & _ & _ & Hcount & Hmaxb & Hkilled & _).
  - exists sample_stdout_pipe. split_and!; try reflexivity.
    + split_and!; try reflexivity. intros k b Hk. discriminate Hk.
    + split; [intros sig n Hf; discriminate Hf | reflexivity].
  - repeat constructor; unfold UV_EOF; lia.
  - vm_compute. discriminate.
  - vm_compute. reflexivity.
  - reflexivity.
  - vm_compute. lia.
  - exists w'. split; [done|]. split; [exact Hcount | exact Hkilled].
Defined.

(** ** The buffers of the strings *)

Section string_buffers_proofs.
Context `{Host} `{StringHost}.
Hypothesis Hhost : string_host_ok.

Lemma Write_fits s :
  0 ≤ Z.of_nat (length (StringBytes_Write s)) ≤ StringBytes_StorageSize s.
Proof. destruct Hhost as [Hw _]. specialize (Hw s). lia. Qed.

Lemma ROUND_UP_le a c :
  0 ≤ a → a ≤ c → c mod 8 = 0 →
  a ≤ ROUND_UP a 8 ≤ c ∧ ROUND_UP a 8 mod 8 = 0.
Proof.
  intros Ha Hac Hc. destruct Hhost as [_ Hr]. destruct (Hr a Ha) as [Hb Hm].
  split; [|done]. split; [lia|].
  apply Z.mod_divide in Hm as [q Hq]; [|lia].
  apply Z.mod_divide in Hc as [q' Hq']; [|lia]. lia.
Qed.

Lemma store_ok offset c b :
  8 * Z.of_nat (length (CharBuffer.table b)) ≤ offset < Z.of_nat (length (CharBuffer.chars b)) →
  CharBuffer.store offset c b
  = Some (CharBuffer.mk (CharBuffer.table b)
            (<[Z.to_nat offset := Some c]> (CharBuffer.chars b))).
Proof. intros Hr. unfold CharBuffer.store. by rewrite bool_decide_true. Qed.

Lemma store_all_ok bytes : ∀ offset b,
  8 * Z.of_nat (length (CharBuffer.table b)) ≤ offset →
  offset + Z.of_nat (length bytes) ≤ Z.of_nat (length (CharBuffer.chars b)) →
  ∃ b', CharBuffer.store_all offset bytes b = Some b'
        ∧ CharBuffer.table b' = CharBuffer.table b
        ∧ length (CharBuffer.chars b') = length (CharBuffer.chars b)
        ∧ (∀ k, (k < Z.to_nat offset ∨ Z.to_nat offset + length bytes ≤ k)%nat →
                CharBuffer.chars b' !! k = CharBuffer.chars b !! k)
        ∧ ∀ k c, bytes !! k = Some c →
                 CharBuffer.chars b' !! (Z.to_nat offset + k)%nat = Some (Some c).
Proof.
  induction bytes as [|c bytes IH]; intros offset b Hlo Hhi.
  - exists b. split_and!; try done.
  - cbn [length] in Hhi. cbn [CharBuffer.store_all].
    rewrite store_ok by lia. cbn [mbind option_bind].
    set (b1 := CharBuffer.mk _ _).
    destruct (IH (offset + 1) b1) as (b' & Hrun & Htab & Hlen & Hout & Hin).
    { cbn. lia. }
    { unfold b1. cbn. rewrite length_insert. lia. }
    exists b'. split; [done|]. split; [done|].
    unfold b1 in Hlen, Hout. cbn [CharBuffer.chars] in Hlen, Hout.
    rewrite length_insert in Hlen. split; [done|]. split.
    + intros k Hk. cbn [length] in Hk. rewrite Hout by lia.
      apply list_lookup_insert_ne. lia.
    + intros [|k] x Hx.
      * injection Hx as ->. rewrite Hout by lia.
        rewrite Nat.add_0_r. apply list_lookup_insert_eq. lia.
      * cbn in Hx. specialize (Hin k x Hx).
        by replace (Z.to_nat offset + S k)%nat with (Z.to_nat (offset + 1) + k)%nat by lia.
Qed.

Lemma data_size_loop_cons d s rest :
  0 ≤ d → d + storage_bound (s :: rest) < 2 ^ 64 → 0 ≤ storage_bound rest →
  data_size_loop d (s :: rest)
  = data_size_loop (ROUND_UP (d + (StringBytes_StorageSize s + 1)) 8) rest
  ∧ d + (StringBytes_StorageSize s + 1)
    ≤ ROUND_UP (d + (StringBytes_StorageSize s + 1)) 8
    < d + (StringBytes_StorageSize s + 8) + 1
  ∧ ROUND_UP (d + (StringBytes_StorageSize s + 1)) 8 mod 8 = 0.
Proof.
  intros Hd Hb Hrest. cbn [storage_bound foldr] in Hb. fold (storage_bound rest) in Hb.
  pose proof (Write_fits s) as Hs.
  destruct Hhost as [_ Hr].
  destruct (Hr (d + (StringBytes_StorageSize s + 1))) as [Hround Hmod]; [lia|].
  change (2 ^ 64) with 18446744073709551616 in Hb.
  unfold data_size_loop. cbn [foldl].
  rewrite (to_size_t_small (StringBytes_StorageSize s + 1)) by lia.
  rewrite (to_size_t_small (d + (StringBytes_StorageSize s + 1))) by lia.
  rewrite (to_size_t_small (ROUND_UP _ 8)) by lia.
  split; [done|]. split; [lia | done].
Qed.

Lemma storage_bound_nonneg strings : 0 ≤ storage_bound strings.
Proof.
  induction strings as [|s rest IH]; [done|].
  cbn [storage_bound foldr]. fold (storage_bound rest).
  pose proof (Write_fits s). lia.
Qed.

Lemma data_size_loop_bounds strings : ∀ d,
  0 ≤ d → d mod 8 = 0 → d + storage_bound strings < 2 ^ 64 →
  d ≤ data_size_loop d strings ≤ d + storage_bound strings
  ∧ data_size_loop d strings mod 8 = 0.
Proof.
  induction strings as [|s rest IH]; intros d Hd Hmod Hb.
  - cbn. split; [lia | done].
  - pose proof (storage_bound_nonneg rest) as Hrest.
    destruct (data_size_loop_cons d s rest Hd Hb Hrest) as (-> & Hround & Hm).
    cbn [storage_bound foldr] in *. fold (storage_bound rest) in *.
    pose proof (Write_fits s) as Hs.
    destruct (IH (ROUND_UP (d + (StringBytes_StorageSize s + 1)) 8)) as [Hle Hm'];
      [lia | done | lia |].
    split; [lia | done].
Qed.

Lemma set_slot_ok i p b :
  0 ≤ i < Z.of_nat (length (CharBuffer.table b)) →
  8 * Z.of_nat (length (CharBuffer.table b)) ≤ Z.of_nat (length (CharBuffer.chars b)) →
  CharBuffer.set_slot i p b
  = Some (CharBuffer.mk (<[Z.to_nat i := p]> (CharBuffer.table b)) (CharBuffer.chars b)).
Proof.
  intros Hi Hfit. unfold CharBuffer.set_slot. rewrite bool_decide_true; [done|]. lia.
Qed.

Lemma write_strings_ok ls N :
  N < 2 ^ 64 →
  ∀ strings i off d b,
    8 * Z.of_nat (length (CharBuffer.table b)) = ls →
    Z.of_nat (length (CharBuffer.chars b)) = N →
    0 ≤ i → i + Z.of_nat (length strings) < Z.of_nat (length (CharBuffer.table b)) →
    Z.of_nat (length (CharBuffer.table b)) ≤ 2 ^ 32 →
    ls ≤ off ≤ ls + d → off mod 8 = 0 →
    0 ≤ d → d mod 8 = 0 → d + storage_bound strings < 2 ^ 64 →
    ls + data_size_loop d strings ≤ N →
    ∃ b', write_strings strings i off b = Some b'
      ∧ length (CharBuffer.table b') = length (CharBuffer.table b)
      ∧ length (CharBuffer.chars b') = length (CharBuffer.chars b)
      ∧ (∀ k, (k < Z.to_nat off)%nat → CharBuffer.chars b' !! k = CharBuffer.chars b !! k)
      ∧ (∀ j, (j < Z.to_nat i ∨ Z.to_nat i + length strings ≤ j)%nat →
              CharBuffer.table b' !! j = CharBuffer.table b !! j)
      ∧ ∀ j s, strings !! j = Some s →
          ∃ o, CharBuffer.table b' !! (Z.to_nat i + j)%nat = Some (CharBuffer.Ptr o)
               ∧ off ≤ o ∧ o mod 8 = 0
               ∧ o + Z.of_nat (length (StringBytes_Write s)) < N
               ∧ CharBuffer.string_at b' o (StringBytes_Write s).
Proof.
  intros HN. change (2 ^ 64) with 18446744073709551616 in HN.
  induction strings as [|s rest IH];
    intros i off d b Hls Hchars Hi Hslots Htab Hoff Hal Hd Hdm Hb Hfit.
  { exists b. split_and!; try done. }
  pose proof (storage_bound_nonneg rest) as Hrest.
  destruct (data_size_loop_cons d s rest Hd Hb Hrest) as (Hcons & Hround & Hm).
  rewrite Hcons in Hfit.
  set (d1 := ROUND_UP (d + (StringBytes_StorageSize s + 1)) 8) in *.
  cbn [storage_bound foldr] in Hb. fold (storage_bound rest) in Hb.
  pose proof (Write_fits s) as Hs.
  set (W := Z.of_nat (length (StringBytes_Write s))) in *.
  destruct (data_size_loop_bounds rest d1) as [[Hd1 _] _]; [lia | done | lia |].
  cbn [length] in Hslots.
  assert (Hend : off + W + 1 ≤ ls + d1) by lia.
  assert (Hmodsum : (ls + d1) mod 8 = 0).
  { rewrite <- Hls. rewrite Z.add_comm, Z.mul_comm, Z.mod_add by lia. done. }
  destruct (ROUND_UP_le (off + W + 1) (ls + d1)) as [Hoff1 Hal1]; [lia | lia | done |].
  set (off1 := ROUND_UP (off + W + 1) 8) in *.
  (* list[i] = buffer + data_offset *)
  cbn [write_strings]. rewrite set_slot_ok by lia. cbn [mbind option_bind].
  set (b1 := CharBuffer.mk _ _).
  (* StringBytes::Write *)
  destruct (store_all_ok (StringBytes_Write s) off b1)
    as (b2 & Hwrite & Htab2 & Hlen2 & Hout2 & Hin2).
  { unfold b1. cbn. rewrite length_insert. lia. }
  { unfold b1. cbn. fold W. lia. }
  rewrite Hwrite. cbn [mbind option_bind]. fold W.
  (* buffer[data_offset++] = 0 *)
  rewrite (to_size_t_small (off + W)) by lia.
  rewrite store_ok; cycle 1.
  { rewrite Htab2, Hlen2. unfold b1. cbn. rewrite length_insert. lia. }
  cbn [mbind option_bind].
  set (b3 := CharBuffer.mk _ _).
  rewrite (to_size_t_small (off + W + 1)) by lia.
  fold off1. rewrite (to_size_t_small off1) by lia.
  assert (Hi1 : to_unsigned_int (i + 1) = i + 1).
  { unfold to_unsigned_int, wrap_unsigned. apply Z.mod_small. lia. }
  rewrite Hi1.
  assert (Htab3 : CharBuffer.table b3 = <[Z.to_nat i := CharBuffer.Ptr off]> (CharBuffer.table b))
    by (unfold b3; cbn; by rewrite Htab2).
  assert (Hchars3 : length (CharBuffer.chars b3) = length (CharBuffer.chars b)).
  { unfold b3. cbn. by rewrite length_insert, Hlen2. }
  destruct (IH (i + 1) off1 d1 b3) as (b' & Hrun & Htl & Hcl & Hck & Htk & Hstr).
  { rewrite Htab3, length_insert. done. }
  { by rewrite Hchars3. }
  { lia. }
  { rewrite Htab3, length_insert. lia. }
  { rewrite Htab3, length_insert. lia. }
  { lia. }
  { done. }
  { lia. }
  { done. }
  { lia. }
  { done. }
  exists b'. split; [done|].
  rewrite Htab3, length_insert in Htl. rewrite Hchars3 in Hcl.
  split; [done|]. split; [done|]. split_and!.
  - intros k Hk. rewrite Hck by lia. unfold b3. cbn [CharBuffer.chars].
    rewrite list_lookup_insert_ne by lia. by rewrite Hout2 by lia.
  - intros j Hj. cbn [length] in Hj. rewrite Htk by lia. rewrite Htab3.
    apply list_lookup_insert_ne. lia.
  - intros [|j] s' Hs'.
    + injection Hs' as <-. exists off. rewrite Nat.add_0_r.
      split_and!; try done; try lia.
      * rewrite Htk by lia. rewrite Htab3. apply list_lookup_insert_eq. lia.
      * split.
        -- intros k c Hk. pose proof (lookup_lt_Some _ _ _ Hk) as Hlt.
           rewrite Hck by lia. unfold b3. cbn [CharBuffer.chars].
           rewrite list_lookup_insert_ne by lia. by apply Hin2.
        -- rewrite Hck by lia. unfold b3. cbn [CharBuffer.chars].
           replace (Z.to_nat off + length (StringBytes_Write s))%nat
             with (Z.to_nat (off + W)) by lia.
           apply list_lookup_insert_eq. rewrite Hlen2. unfold b1. cbn. lia.
    + cbn in Hs'. destruct (Hstr j s' Hs') as (o & Hp & Ho & Hmo & Hend' & Hat).
      exists o. replace (Z.to_nat i + S j)%nat with (Z.to_nat (i + 1) + j)%nat by lia.
      split_and!; try done. lia.
Qed.

Lemma c_string_at b bytes : ∀ p fuel,
  (∀ k c, bytes !! k = Some c → CharBuffer.chars b !! (p + k)%nat = Some (Some c)) →
  CharBuffer.chars b !! (p + length bytes)%nat = Some (Some x00) →
  x00 ∉ bytes → (length bytes < fuel)%nat →
  CharBuffer.c_string fuel b p = Some bytes.
Proof.
  induction bytes as [|c bytes IH]; intros p fuel Hin Hnul Hno Hfuel.
  all: destruct fuel as [|fuel]; [cbn in Hfuel; lia|].
  all: cbn [CharBuffer.c_string].
  - rewrite Nat.add_0_r in Hnul. rewrite Hnul. by rewrite bool_decide_true.
  - rewrite <- (Nat.add_0_r p), (Hin 0%nat c) by done.
    rewrite bool_decide_false by (intros ->; apply Hno; left).
    rewrite (IH (S (p + 0)) fuel); [done | | | |].
    + intros k x Hk. replace (S (p + 0) + k)%nat with (p + S k)%nat by lia.
      by apply Hin.
    + by replace (S (p + 0) + length bytes)%nat with (p + length (c :: bytes))%nat
        by (cbn [length]; lia).
    + intros Hx. apply Hno. by right.
    + cbn [length] in Hfuel. lia.
Qed.

Lemma CopyJsString_buffer_ok js_value :
  let js_string := match js_value with JsString s => s | _ => ToString js_value end in
  StringBytes_StorageSize js_string + 1 < 2 ^ 64 →
  ∃ b, CopyJsString_buffer js_value = Some (0, b)
       ∧ Z.of_nat (length (CharBuffer.chars b)) = StringBytes_StorageSize js_string + 1
       ∧ CharBuffer.string_at b 0 (StringBytes_Write js_string).
Proof.
  intros s Hsize. change (2 ^ 64) with 18446744073709551616 in Hsize.
  pose proof (Write_fits s) as Hs.
  unfold CopyJsString_buffer. fold s. cbv zeta.
  rewrite to_size_t_small by lia.
  set (b0 := CharBuffer.alloc 0 _).
  assert (Hlen0 : Z.of_nat (length (CharBuffer.chars b0)) = StringBytes_StorageSize s + 1).
  { unfold b0, CharBuffer.alloc. cbn. rewrite length_replicate. lia. }
  assert (Htab0 : CharBuffer.table b0 = []) by done.
  destruct (store_all_ok (StringBytes_Write s) 0 b0)
    as (b1 & Hwrite & Htab1 & Hlen1 & Hout1 & Hin1).
  { by rewrite Htab0. }
  { lia. }
  rewrite Hwrite. cbn [mbind option_bind].
  rewrite store_ok by (rewrite Htab1, Hlen1, Htab0; cbn [length]; lia).
  cbn [mbind option_bind]. eexists. split; [done|].
  cbn [CharBuffer.chars]. rewrite length_insert, Hlen1. split; [done|]. split.
  - intros k c Hk. pose proof (lookup_lt_Some _ _ _ Hk) as Hlt.
    cbn [CharBuffer.chars Z.to_nat Nat.add].
    rewrite list_lookup_insert_ne by lia. by apply Hin1.
  - cbn [CharBuffer.chars Z.to_nat Nat.add]. rewrite Nat2Z.id.
    apply list_lookup_insert_eq. lia.
Qed.

Lemma CopyJsStringArray_buffer_ok elems :
  let strings := map (λ e, match e with JsString s => s | _ => ToString e end) elems in
  let list_size := 8 * (Z.of_nat (length elems) + 1) in
  Z.of_nat (length elems) + 1 < 2 ^ 32 →
  list_size + storage_bound strings < 2 ^ 64 →
  ∃ b, CopyJsStringArray_buffer (JsArray elems) = Some (0, Some b)
       ∧ Z.of_nat (length (CharBuffer.chars b)) = list_size + data_size_loop 0 strings
       ∧ length (CharBuffer.table b) = S (length elems)
       ∧ CharBuffer.table b !! length elems = Some CharBuffer.Null
       ∧ ∀ j s, strings !! j = Some s →
           ∃ o, CharBuffer.table b !! j = Some (CharBuffer.Ptr o)
                ∧ list_size ≤ o ∧ o mod 8 = 0
                ∧ o + Z.of_nat (length (StringBytes_Write s))
                  < Z.of_nat (length (CharBuffer.chars b))
                ∧ CharBuffer.string_at b o (StringBytes_Write s).
Proof.
  intros strings ls Hlen Hsize.
  change (2 ^ 32) with 4294967296 in Hlen.
  pose proof Hsize as Hsize'. change (2 ^ 64) with 18446744073709551616 in Hsize'.
  pose proof (storage_bound_nonneg strings) as Hbound.
  destruct (data_size_loop_bounds strings 0) as [Hds Hdm]; [done | done | lia |].
  unfold CopyJsStringArray_buffer. fold strings. cbv zeta.
  rewrite to_unsigned_int_small by lia.
  replace ((Z.of_nat (length elems) + 1) * 8) with ls by (unfold ls; lia).
  rewrite (to_size_t_small ls) by (unfold ls; lia).
  rewrite (to_size_t_small (ls + _)) by lia.
  set (b0 := CharBuffer.alloc ls _).
  assert (Htab0 : length (CharBuffer.table b0) = S (length elems)).
  { unfold b0, CharBuffer.alloc. cbn [CharBuffer.table]. rewrite length_replicate.
    unfold ls. rewrite Z.mul_comm, Z.div_mul by lia. lia. }
  assert (Hlen0 : Z.of_nat (length (CharBuffer.chars b0)) = ls + data_size_loop 0 strings).
  { unfold b0, CharBuffer.alloc. cbn [CharBuffer.chars]. rewrite length_replicate. lia. }
  assert (Hstrings : length strings = length elems) by (unfold strings; by rewrite length_map).
  assert (Hfit : ls + data_size_loop 0 strings < 2 ^ 64)
    by (change (2 ^ 64) with 18446744073709551616; lia).
  destruct (write_strings_ok ls (ls + data_size_loop 0 strings) Hfit strings 0 ls 0 b0)
    as (b1 & Hrun & Htab1 & Hlen1 & _ & _ & Hstr);
    [rewrite Htab0; unfold ls; lia | done | done | rewrite Htab0, Hstrings; lia
    | rewrite Htab0; change (2 ^ 32) with 4294967296; lia | lia
    | unfold ls; by rewrite Z.mul_comm, Z.mod_mul | done | done | lia | lia |].
  rewrite Hrun. cbn [mbind option_bind].
  rewrite set_slot_ok by (rewrite ?Htab1, ?Hlen1, ?Htab0; unfold ls in *; lia).
  cbn [mbind option_bind]. eexists. split; [done|].
  cbn [CharBuffer.chars CharBuffer.table]. rewrite length_insert, Hlen1, Htab1, Htab0.
  rewrite Nat2Z.id.
  split; [done|]. split; [done|]. split.
  { apply list_lookup_insert_eq. rewrite Htab1, Htab0. lia. }
  intros j s Hj. pose proof (lookup_lt_Some _ _ _ Hj) as Hlt.
  destruct (Hstr j s Hj) as (o & Hp & Ho & Hmo & Hend & Hat).
  exists o. cbn [Z.to_nat Nat.add] in Hp.
  rewrite list_lookup_insert_ne by lia.
  split_and!; try done. lia.
Qed.
End string_buffers_proofs.

Lemma sample_string_host_ok : @string_host_ok sample_string_host.
Proof.
  split.
  - intros s. cbn.
    assert (length (String.list_byte_of_string s) = String.length s) as ->; [|lia].
    unfold String.list_byte_of_string. rewrite length_map.
    induction s as [|c s IH]; [done|]. cbn. by rewrite IH.
  - intros a Ha. cbn.
    pose proof (Z.mod_pos_bound a 8 ltac:(lia)) as Hm.
    pose proof (Z.div_mod a 8 ltac:(lia)) as Hdiv.
    destruct (a mod 8 =? 0) eqn:E.
    + apply Z.eqb_eq in E. split; [lia | done].
    + apply Z.eqb_neq in E. split; [lia|].
      replace (a + 8 - a mod 8) with ((a / 8 + 1) * 8) by lia.
      apply Z.mod_mul. lia.
Qed.

(** X16. [CopyJsStringArray] never writes outside the buffer it
    allocates, when [StringBytes::Write] stores no more bytes than
    [StringBytes::StorageSize] announced and the sizes do not wrap: it
    returns 0 with a table of one pointer for every element, in order,
    and a final [NULL]; every pointer is behind the table and a multiple
    of 8, and at it are the bytes of the element's string and a NUL, so a
    string without NUL bytes is read back as it was written.  The strings
    are the ones of [CopyJsStringArray] above.  [CopyJsString] likewise
    returns 0 with a buffer of [StorageSize + 1] bytes that holds the
    bytes of the string and a NUL. *)
Theorem string_buffers_are_safe `{Host} `{StringHost}
    (elems : list JsValue) (target : option (list string)) :
  let strings := map (λ e, match e with JsString s => s | _ => ToString e end) elems in
  let list_size := 8 * (Z.of_nat (length elems) + 1) in
  string_host_ok →
  Z.of_nat (length elems) + 1 < 2 ^ 32 →
  list_size + storage_bound strings < 2 ^ 64 →
  (∃ b,
     CopyJsStringArray_buffer (JsArray elems) = Some (0, Some b)
     ∧ CopyJsStringArray (JsArray elems) target = (0, Some strings)
     ∧ Z.of_nat (length (CharBuffer.chars b)) = list_size + data_size_loop 0 strings
     ∧ length (CharBuffer.table b) = S (length elems)
     ∧ CharBuffer.table b !! length elems = Some CharBuffer.Null
     ∧ ∀ j s, strings !! j = Some s →
         ∃ o, CharBuffer.table b !! j = Some (CharBuffer.Ptr o)
              ∧ list_size ≤ o ∧ o mod 8 = 0
              ∧ o + Z.of_nat (length (StringBytes_Write s))
                < Z.of_nat (length (CharBuffer.chars b))
              ∧ CharBuffer.string_at b o (StringBytes_Write s)
              ∧ (x00 ∉ StringBytes_Write s →
                 CharBuffer.c_string (length (CharBuffer.chars b)) b (Z.to_nat o)
                 = Some (StringBytes_Write s)))
  ∧ ∀ js_value old,
      let js_string := match js_value with JsString s => s | _ => ToString js_value end in
      StringBytes_StorageSize js_string + 1 < 2 ^ 64 →
      ∃ b, CopyJsString_buffer js_value = Some (0, b)
           ∧ CopyJsString js_value old = (0, Some js_string)
           ∧ Z.of_nat (length (CharBuffer.chars b)) = StringBytes_StorageSize js_string + 1
           ∧ CharBuffer.string_at b 0 (StringBytes_Write js_string).
Proof.
  intros strings list_size Hhost Hlen Hsize. split.
  - destruct (CopyJsStringArray_buffer_ok Hhost elems Hlen Hsize)
      as (b & Hrun & Hchars & Htab & Hnull & Hstr).
    exists b. split_and!; try done.
    intros j s Hj. destruct (Hstr j s Hj) as (o & Hp & Ho & Hal & Hend & Hat).
    exists o. split_and!; try done.
    intros Hno. destruct Hat as [Hbytes Hnul].
    apply c_string_at; try done. lia.
  - intros js_value old js_string Hfit.
    destruct (CopyJsString_buffer_ok Hhost js_value Hfit) as (b & Hrun & Hchars & Hat).
    by exists b.
Qed.

Lemma string_buffers_are_safe_witness :
  ∃ b, @CopyJsStringArray_buffer sample_host sample_string_host
         (JsArray [JsString "ls"; JsString "-l"]) = Some (0, Some b)
       ∧ CharBuffer.table b = [CharBuffer.Ptr 24; CharBuffer.Ptr 32; CharBuffer.Null].
Proof.
  destruct (@string_buffers_are_safe sample_host sample_string_host
              [JsString "ls"; JsString "-l"] None)
    as [(b & Hrun & _) _].
  - exact sample_string_host_ok.
  - vm_compute. reflexivity.
  - vm_compute. reflexivity.
  - exists b. split; [exact Hrun|].
    vm_compute in Hrun. by injection Hrun as <-.
Defined.

(** ** The spawn, over a whole run *)

Lemma spawn_codes_from_app o log c : ∀ n,
  spawn_codes_from o n (log ++ [c])
  = spawn_codes_from o n log
    ++ (if is_spawn c then [uv_ret o c (n + length log)] else []).
Proof.
  induction log as [|c' log IH]; intros n; cbn [spawn_codes_from app length].
  - by rewrite Nat.add_0_r, app_nil_r.
  - rewrite IH, <- app_assoc. by replace (S n + length log)%nat with (n + S (length log))%nat by lia.
Qed.

Lemma spawn_codes_app o log c :
  spawn_codes o (log ++ [c])
  = spawn_codes o log ++ (if is_spawn c then [uv_ret o c (length log)] else []).
Proof. unfold spawn_codes. by rewrite spawn_codes_from_app. Qed.

Lemma io_calls_app log c :
  io_calls (log ++ [c]) = (io_calls log + (if is_io c then 1 else 0))%nat.
Proof.
  unfold io_calls. rewrite List.filter_app, length_app. cbn [List.filter].
  by destruct (is_io c).
Qed.

Ltac spawn_norm :=
  cbn [runner uv_log uv_oracle] in *;
  rewrite ?spawn_codes_app, ?io_calls_app; cbn [is_spawn is_io];
  rewrite ?app_nil_r, ?Nat.add_0_r.

Ltac spawn_side :=
  let w := fresh "w" in
  let HI := fresh "HI" in
  intros w HI; unfold spawn_pending, spawned, spawn_settled in *; spawn_norm;
  first
    [ exact HI
    | destruct HI as [HI1 HI2]; split; [exact HI1|];
      unfold SetError, SetPipeError;
      repeat match goal with
             | |- context [if ?x =? 0 then _ else _] =>
                 let E := fresh "E" in destruct (x =? 0) eqn:E; [apply Z.eqb_eq in E|]
             end;
      first
        [ exact HI2
        | repeat case_match; cbn [error_ set_error_] in *; first [done | lia | intuition lia] ] ].


Lemma teardown_spawn_settled o :
  stable (spawn_settled o) (CloseHandlesAndDeleteLoop;; SyncProcessRunner_delete).
Proof. stable_with spawn_side. Qed.





